(** * A shallow embedding of the Vectara query adapter and the Slack text
      formatter (services/vectara.ts, config/prompts.ts, app.ts).

    Layout: the JavaScript values and string operations the program relies
    on ([Js]), the configuration defaults ([Prompts]), the adapter
    ([Vectara]) and the formatter ([App]), then the OODA AI service
    ([Ooda]), the handlers of the application ([Slack]), the service it
    builds from the environment ([Env]) and the adapter with its calls of
    the logger of utils/logger.ts ([Logged]); the lemmas and theorems
    about them follow the definitions. *)

From Stdlib Require Import Ascii String.
From Stdlib Require Import List Bool Arith NArith ZArith QArith Lia Sorted.
Import ListNotations.

Set Warnings "-register-all".

Local Open Scope nat_scope.

(* ================================================================== *)
(** * JavaScript values and string operations                          *)
(* ================================================================== *)

Module Js.

(** A JavaScript string is a sequence of UTF-16 code units; [substring],
    [trim] and regular expressions without the [u] flag all work on code
    units. *)
Definition code_unit := N.
Definition js_string := list code_unit.

(** The code units of an ASCII literal. *)
Definition lit (s : string) : js_string :=
  map N_of_ascii (list_ascii_of_string s).
Arguments lit s%_string.

Definition LF : code_unit := 10%N.

Fixpoint str_eqb (a b : js_string) : bool :=
  match a, b with
  | [], [] => true
  | x :: a', y :: b' => N.eqb x y && str_eqb a' b'
  | _, _ => false
  end.

(** Truthiness of a string: only the empty string is falsy. *)
Definition truthy_string (s : js_string) : bool :=
  match s with [] => false | _ :: _ => true end.

(** [s.substring(0, n)]. *)
Definition substring0 (n : nat) (s : js_string) : js_string := firstn n s.

(** [a ?? b] on a value that may be [undefined] or [null] ([None]). *)
Definition nullish {A : Type} (a : option A) (b : A) : A :=
  match a with Some v => v | None => b end.

(** ** Numbers

    A JavaScript number is a double: a finite value (each is a rational),
    one of the two infinities, or NaN.  Only comparisons are used by the
    program, and on finite doubles they agree with the order of [Q]. *)
Inductive number : Type :=
| NaN
| NegInf
| Fin (q : Q)
| PosInf.

(** [a >= b]. *)
Definition geb (a b : number) : bool :=
  match a, b with
  | NaN, _ | _, NaN => false
  | _, NegInf => true
  | PosInf, _ => true
  | NegInf, _ => false
  | Fin _, PosInf => false
  | Fin x, Fin y => Qle_bool y x
  end.

(** [a < b]. *)
Definition ltb (a b : number) : bool :=
  match a, b with
  | NaN, _ | _, NaN => false
  | PosInf, _ => false
  | _, PosInf => true
  | _, NegInf => false
  | NegInf, Fin _ => true
  | Fin x, Fin y => negb (Qle_bool y x)
  end.

Definition of_Z (z : Z) : number := Fin (inject_Z z).

(** ** JSON values, for the fields the program types as [any]. *)
Inductive json : Type :=
| JNull
| JBool (b : bool)
| JNumber (n : number)
| JString (s : js_string)
| JArray (l : list json)
| JObject (l : list (js_string * json)).

(** ** Character classes of regular expressions *)

(** LineTerminator: LF, CR, LS, PS. *)
Definition is_line_terminator (c : code_unit) : bool :=
  (N.eqb c 10 || N.eqb c 13 || N.eqb c 8232 || N.eqb c 8233)%N.

(** WhiteSpace or LineTerminator: what [\s] matches and [trim] strips. *)
Definition is_space (c : code_unit) : bool :=
  (N.eqb c 9 || N.eqb c 11 || N.eqb c 12 || N.eqb c 32 || N.eqb c 160
   || N.eqb c 5760 || (N.leb 8192 c && N.leb c 8202) || N.eqb c 8239
   || N.eqb c 8287 || N.eqb c 12288 || N.eqb c 65279
   || is_line_terminator c)%N.

Inductive cls : Type :=
| CChar (c : code_unit)   (* an escaped or plain literal *)
| CDot                    (* [.] *)
| CSpace.                 (* [\s] *)

Definition cls_match (k : cls) (c : code_unit) : bool :=
  match k with
  | CChar d => N.eqb c d
  | CDot => negb (is_line_terminator c)
  | CSpace => is_space c
  end.

(** ** Regular expressions

    The fragment the program uses: single code units, [^] under the [m]
    flag, a lazy star and a greedy bounded repetition of a class, numbered
    capture groups and sequencing. *)
Inductive regex : Type :=
| One (k : cls)
| Bol
| LazyStar (k : cls)
| Repeat (k : cls) (lo hi : nat)
| Group (i : nat) (r : regex)
| Seq (r1 r2 : regex).

(** The state of a match attempt: the code unit before the current
    position ([None] at the start of the input), the input still to be
    read, and the captures made so far. *)
Record mstate : Type := MState {
  prev : option code_unit;
  rest : js_string;
  caps : list (nat * js_string)
}.

Definition at_line_start (p : option code_unit) : bool :=
  match p with None => true | Some c => is_line_terminator c end.

(** [k*?] followed by [cont]: try the continuation first, and consume one
    more code unit only when it fails. *)
Fixpoint lazy_star (k : cls) (cont : mstate -> option mstate)
    (p : option code_unit) (cs : list (nat * js_string)) (s : js_string)
    : option mstate :=
  match cont (MState p s cs) with
  | Some r => Some r
  | None =>
      match s with
      | c :: s' => if cls_match k c then lazy_star k cont (Some c) cs s' else None
      | [] => None
      end
  end.

(** [k{lo,hi}] followed by [cont]: consume as many as allowed first, and
    give one back each time the continuation fails. *)
Fixpoint repeat_greedy (k : cls) (lo hi : nat) (cont : mstate -> option mstate)
    (p : option code_unit) (cs : list (nat * js_string)) (s : js_string)
    : option mstate :=
  let stop := if Nat.eqb lo 0 then cont (MState p s cs) else None in
  match hi with
  | O => stop
  | S hi' =>
      match s with
      | c :: s' =>
          if cls_match k c then
            match repeat_greedy k (Nat.pred lo) hi' cont (Some c) cs s' with
            | Some r => Some r
            | None => stop
            end
          else stop
      | [] => stop
      end
  end.

(** Backtracking matcher in continuation-passing style. *)
Fixpoint run (r : regex) (cont : mstate -> option mstate) (st : mstate)
    : option mstate :=
  match r with
  | One k =>
      match rest st with
      | c :: s' => if cls_match k c then cont (MState (Some c) s' (caps st)) else None
      | [] => None
      end
  | Bol => if at_line_start (prev st) then cont st else None
  | LazyStar k => lazy_star k cont (prev st) (caps st) (rest st)
  | Repeat k lo hi => repeat_greedy k lo hi cont (prev st) (caps st) (rest st)
  | Group i r' =>
      run r'
        (fun st1 =>
           let taken := firstn (length (rest st) - length (rest st1)) (rest st) in
           cont (MState (prev st1) (rest st1) ((i, taken) :: caps st1)))
        st
  | Seq r1 r2 => run r1 (run r2 cont) st
  end.

(** One match attempt at the current position. *)
Definition exec (r : regex) (p : option code_unit) (s : js_string)
    : option mstate :=
  run r Some (MState p s []).

(** The text of capture group [i] (the empty string when it took no part
    in the match). *)
Fixpoint capture (i : nat) (cs : list (nat * js_string)) : js_string :=
  match cs with
  | [] => []
  | (j, t) :: cs' => if Nat.eqb i j then t else capture i cs'
  end.

(** [s.replace(/r/g, repl)], where [repl] builds the replacement from the
    captures.  [skip] counts the code units of [s] that the last match
    already consumed: the scan resumes after the matched text, and after an
    empty match it copies one code unit and moves on. *)
Fixpoint replace_from (r : regex) (repl : list (nat * js_string) -> js_string)
    (skip : nat) (p : option code_unit) (s : js_string) : js_string :=
  match skip with
  | S k =>
      match s with
      | [] => []
      | c :: s' => replace_from r repl k (Some c) s'
      end
  | O =>
      match exec r p s with
      | Some st =>
          let n := length s - length (rest st) in
          repl (caps st) ++
          match s with
          | [] => []
          | c :: s' =>
              (if Nat.eqb n 0 then [c] else []) ++
              replace_from r repl (Nat.pred n) (Some c) s'
          end
      | None =>
          match s with
          | [] => []
          | c :: s' => c :: replace_from r repl 0 (Some c) s'
          end
      end
  end.

Definition replace_all (r : regex) (repl : list (nat * js_string) -> js_string)
    (s : js_string) : js_string :=
  replace_from r repl 0 None s.

(** The replacement strings ['$1'] and ['']. *)
Definition dollar1 (cs : list (nat * js_string)) : js_string := capture 1 cs.
Definition empty_repl (cs : list (nat * js_string)) : js_string := [].

(** [s.trim()]. *)
Fixpoint trim_start (s : js_string) : js_string :=
  match s with
  | c :: s' => if is_space c then trim_start s' else s
  | [] => []
  end.

Definition trim_end (s : js_string) : js_string :=
  rev (trim_start (rev s)).

Definition trim (s : js_string) : js_string := trim_end (trim_start s).

(** ** Completions: a call returns a value or throws one. *)
Inductive completion (E A : Type) : Type :=
| Return (a : A)
| Throw (e : E).
Arguments Return {E A} a.
Arguments Throw {E A} e.

Definition bind {E A B : Type} (c : completion E A) (k : A -> completion E B)
    : completion E B :=
  match c with
  | Return a => k a
  | Throw e => Throw e
  end.

(** [try { body } catch (error) { handler(error) }]. *)
Definition try_catch {E A : Type} (body : completion E A)
    (handler : E -> completion E A) : completion E A :=
  match body with
  | Return a => Return a
  | Throw e => handler e
  end.

End Js.

(* ================================================================== *)
(** * config/prompts.ts                                                *)
(* ================================================================== *)

Module Prompts.
Import Js.

(** The decimal literal [n / d]. *)
Definition decimal (n : Z) (d : positive) : number := Fin (n # d).

Record QueryDefaults : Type := {
  d_searchDepth : number;
  d_maxResults : number;
  d_maxTokens : number;
  d_maxResponseChars : number;
  d_temperature : number;
  d_frequencyPenalty : number;
  d_presencePenalty : number;
  d_relevanceThreshold : number;
  d_diversityBias : number
}.

Definition VectaraQueryDefaults : QueryDefaults := {|
  d_searchDepth := of_Z 100;
  d_maxResults := of_Z 20;
  d_maxTokens := of_Z 300;
  d_maxResponseChars := of_Z 4000;
  d_temperature := decimal 5 10;
  d_frequencyPenalty := decimal 3 10;
  d_presencePenalty := decimal 3 10;
  d_relevanceThreshold := decimal 25 100;
  d_diversityBias := decimal 2 10
|}.

End Prompts.

(* ================================================================== *)
(** * services/vectara.ts                                              *)
(* ================================================================== *)

Module Vectara.
Import Js Prompts.

(** [interface VectaraConfig].  The fields marked [?] may be left out;
    [searchDepth] is declared required, but the constructor guards it with
    [??] like the optional ones, so it is modelled as optional too. *)
Record VectaraConfig : Type := {
  customerId : js_string;
  apiKey : js_string;
  corpusKey : js_string;
  prePrompt : js_string;
  promptTemplate : js_string;
  searchDepth : option number;
  maxResults : option number;
  maxTokens : option number;
  temperature : option number;
  frequencyPenalty : option number;
  presencePenalty : option number;
  diversityBias : option number;
  relevanceThreshold : option number;
  maxResponseChars : option number
}.

(** [Required<VectaraConfig>]: the configuration the service holds. *)
Record RequiredConfig : Type := {
  r_customerId : js_string;
  r_apiKey : js_string;
  r_corpusKey : js_string;
  r_prePrompt : js_string;
  r_promptTemplate : js_string;
  r_searchDepth : number;
  r_maxResults : number;
  r_maxTokens : number;
  r_temperature : number;
  r_frequencyPenalty : number;
  r_presencePenalty : number;
  r_diversityBias : number;
  r_relevanceThreshold : number;
  r_maxResponseChars : number
}.

Record VectaraCitations : Type := {
  style : js_string;
  url_pattern : js_string;
  text_pattern : js_string
}.

Record VectaraModelParameters : Type := {
  mp_temperature : number;
  mp_max_tokens : number;
  mp_frequency_penalty : number;
  mp_presence_penalty : number
}.

Record VectaraGeneration : Type := {
  generation_preset_name : js_string;
  prompt_template : js_string;
  max_used_search_results : number;
  max_response_characters : number;
  response_language : js_string;
  model_parameters : VectaraModelParameters;
  citations : option VectaraCitations
}.

Record VectaraReranker : Type := {
  rr_type : js_string;
  rr_diversity_bias : number;
  rr_limit : number;
  rr_cutoff : number
}.

Record VectaraCorpus : Type := { corpus_key : js_string }.

Record VectaraSearch : Type := {
  corpora : list VectaraCorpus;
  s_limit : number;
  reranker : VectaraReranker
}.

Record VectaraRequestPayload : Type := {
  p_query : js_string;
  p_search : VectaraSearch;
  p_generation : option VectaraGeneration
}.

Record RequestHeaders : Type := {
  x_api_key : js_string;
  content_type : js_string
}.

Record DocumentMetadata : Type := {
  md_title : option js_string;
  md_url : option js_string;
  md_type : option js_string;
  md_excerpt : option js_string
}.

(** [interface VectaraSearchResult]; an absent or [null] member is [None]. *)
Record VectaraSearchResult : Type := {
  text : option js_string;
  score : option number;
  document_metadata : option DocumentMetadata
}.

(** A member that [query] treats differently when it is missing
    ([undefined]) and when it is [null]. *)
Inductive field (A : Type) : Type :=
| Missing
| IsNull
| Given (a : A).

Arguments Missing {A}.
Arguments IsNull {A}.
Arguments Given {A} a.

(** [interface VectaraResponse], as parsed from the reply: every member has
    its declared type, is missing, or is [null].  Missing and [null] are
    one case ([None]) where [query] does not tell them apart ([!summary],
    [field_errors || messages]); for [search_results] it does: the default
    [= []] of the destructuring applies to a missing member only.  An
    entry of the array is a passage or [null] ([None]). *)
Record VectaraResponse : Type := {
  summary : option js_string;
  search_results : field (list (option VectaraSearchResult));
  factual_consistency_score : option number;
  field_errors : option (list json);
  messages : option (list js_string)
}.

Record VectaraSource : Type := {
  title : js_string;
  url : js_string
}.

Record QueryResult : Type := {
  qr_summary : js_string;
  qr_sources : list VectaraSource
}.

(** What [axios.post] resolves to (a 2xx reply).  The body is an object
    or [null] ([None]). *)
Record AxiosResponse : Type := {
  status : Z;
  statusText : js_string;
  data : option VectaraResponse
}.

Record AxiosErrorResponse : Type := {
  e_status : Z;
  e_statusText : js_string;
  e_data : json
}.

(** [AxiosError]: [response] is there when the server answered with a
    non-2xx status, and absent on a transport failure. *)
Record AxiosError : Type := {
  ae_message : js_string;
  ae_code : option js_string;
  ae_response : option AxiosErrorResponse
}.

(** The values [query] can see thrown: an [AxiosError], a plain [Error]
    with its message, the [TypeError] the engine raises when [member] is
    read from [null] or [undefined] (its message is the engine's), or any
    other value. *)
Inductive thrown : Type :=
| ThrownAxiosError (e : AxiosError)
| ThrownError (message : js_string)
| ThrownTypeError (member : js_string)
| ThrownValue (v : json).

Record VectaraService : Type := {
  apiUrl : js_string;
  config : RequiredConfig
}.

(** [constructor(config: VectaraConfig)]: the service it builds.  The call
    of [logToFile] that ends it is in [Logged.constructor] below. *)
Definition constructor (c : VectaraConfig) : VectaraService := {|
  apiUrl := lit "https://api.vectara.io/v2/query";
  config := {|
    r_customerId := customerId c;
    r_apiKey := apiKey c;
    r_corpusKey := corpusKey c;
    r_prePrompt := prePrompt c;
    r_promptTemplate := promptTemplate c;
    r_searchDepth := nullish (searchDepth c) (d_searchDepth VectaraQueryDefaults);
    r_maxResults := nullish (maxResults c) (d_maxResults VectaraQueryDefaults);
    r_maxTokens := nullish (maxTokens c) (d_maxTokens VectaraQueryDefaults);
    r_temperature := nullish (temperature c) (d_temperature VectaraQueryDefaults);
    r_frequencyPenalty :=
      nullish (frequencyPenalty c) (d_frequencyPenalty VectaraQueryDefaults);
    r_presencePenalty :=
      nullish (presencePenalty c) (d_presencePenalty VectaraQueryDefaults);
    r_diversityBias := nullish (diversityBias c) (d_diversityBias VectaraQueryDefaults);
    r_relevanceThreshold :=
      nullish (relevanceThreshold c) (d_relevanceThreshold VectaraQueryDefaults);
    r_maxResponseChars :=
      nullish (maxResponseChars c) (d_maxResponseChars VectaraQueryDefaults)
  |}
|}.

(** The user prompt: the fixed template and the question after it. *)
Definition user_prompt (question : js_string) : js_string :=
  lit "#foreach( $doc in $vectaraQueryResults )" ++ [LF] ++
  lit "Title: $doc.document_metadata.title" ++ [LF] ++
  lit "URL: $doc.document_metadata.url" ++ [LF] ++
  lit "$doc.text" ++ [LF] ++
  [LF] ++
  lit "#end" ++ [LF] ++
  [LF] ++
  lit "Based on this content, " ++ question.

Definition prompt_entry (role content : js_string) : json :=
  JObject [(lit "role", JString role); (lit "content", JString content)].

Definition promptArray (cfg : RequiredConfig) (question : js_string) : json :=
  JArray [prompt_entry (lit "system") (r_prePrompt cfg);
          prompt_entry (lit "user") (user_prompt question)].

(** [r.document_metadata?.title ?? r.text?.substring(0, 100) ?? 'Untitled']
    and [r.document_metadata?.url ?? '']. *)
Definition to_source (r : VectaraSearchResult) : VectaraSource := {|
  title :=
    nullish
      (match
         match document_metadata r with Some md => md_title md | None => None end
       with
       | Some t => Some t
       | None => option_map (substring0 100) (text r)
       end)
      (lit "Untitled");
  url :=
    nullish
      (match document_metadata r with Some md => md_url md | None => None end)
      []
|}.

(** The filter on scores:
    [(r.score ?? 0) >= (this.config.relevanceThreshold ?? 0.2)]. *)
Definition passes_cutoff (cfg : RequiredConfig) (r : VectaraSearchResult) : bool :=
  geb (nullish (score r) (of_Z 0))
      (nullish (Some (r_relevanceThreshold cfg)) (decimal 2 10)).

(** The callback of [reduce]: push [curr] unless its url is in [acc]. *)
Definition dedup_step (acc : list VectaraSource) (curr : VectaraSource)
    : list VectaraSource :=
  if negb (existsb (fun s => str_eqb (url s) (url curr)) acc)
  then acc ++ [curr]
  else acc.

(** [search_results.filter(..).map(..).filter(s => s.url).reduce(.., [])]. *)
Definition derive_sources (cfg : RequiredConfig)
    (results : list VectaraSearchResult) : list VectaraSource :=
  fold_left dedup_step
    (filter (fun s => truthy_string (url s))
       (map to_source (filter (passes_cutoff cfg) results)))
    [].

(** Truthiness of an optional array: an array, empty or not, is truthy;
    [undefined] and [null] are not. *)
Definition truthy_array {A : Type} (a : option (list A)) : bool :=
  match a with Some _ => true | None => false end.

(** [response.data.field_errors || response.data.messages], as the value
    handed to [JSON.stringify]. *)
Definition errors_or_messages (d : VectaraResponse) : json :=
  match field_errors d with
  | Some fe => JArray fe
  | None =>
      match messages d with
      | Some ms => JArray (map JString ms)
      | None => JNull
      end
  end.

Section Query.

(** [JSON.stringify] and the transport ([axios.post]) are the environment
    of the service. *)
Variable JSON_stringify : json -> js_string.
Variable axios_post :
  js_string -> VectaraRequestPayload -> RequestHeaders ->
  completion thrown AxiosResponse.

Definition build_generation (cfg : RequiredConfig) (question : js_string)
    : VectaraGeneration := {|
  generation_preset_name := lit "vectara-summary-ext-24-05-med-omni";
  prompt_template := JSON_stringify (promptArray cfg question);
  max_used_search_results := r_maxResults cfg;
  max_response_characters := r_maxResponseChars cfg;
  response_language := lit "eng";
  model_parameters := {|
    mp_temperature := r_temperature cfg;
    mp_max_tokens := r_maxTokens cfg;
    mp_frequency_penalty := r_frequencyPenalty cfg;
    mp_presence_penalty := r_presencePenalty cfg
  |};
  citations := Some {| style := lit "none"; url_pattern := []; text_pattern := [] |}
|}.

Definition build_headers (cfg : RequiredConfig) : RequestHeaders := {|
  x_api_key := r_apiKey cfg;
  content_type := lit "application/json"
|}.

Definition build_payload (cfg : RequiredConfig) (question : js_string)
    : VectaraRequestPayload := {|
  p_query := question;
  p_search := {|
    corpora := [ {| corpus_key := r_corpusKey cfg |} ];
    s_limit := r_searchDepth cfg;
    reranker := {|
      rr_type := lit "mmr";
      rr_diversity_bias := r_diversityBias cfg;
      rr_limit := r_maxResults cfg;
      rr_cutoff := r_relevanceThreshold cfg
    |}
  |};
  p_generation := Some (build_generation cfg question)
|}.

(** [const { .., search_results = [] } = response.data]: the default
    stands in for a missing member, not for [null]. *)
Definition destructured {A : Type} (m : field A) (default : A) : option A :=
  match m with
  | Missing => Some default
  | IsNull => None
  | Given a => Some a
  end.

(** The passages of an array without [null] entry. *)
Fixpoint all_present {A : Type} (l : list (option A)) : option (list A) :=
  match l with
  | [] => Some []
  | Some a :: l' => option_map (cons a) (all_present l')
  | None :: _ => None
  end.

(** [search_results.filter(..)...reduce(.., [])] on what the destructuring
    bound: calling [filter] on [null] raises a [TypeError], and so does
    reading [score] from a [null] entry, in the first pass over the
    array. *)
Definition sources_of (cfg : RequiredConfig)
    (search_results : option (list (option VectaraSearchResult)))
    : completion thrown (list VectaraSource) :=
  match search_results with
  | None => Throw (ThrownTypeError (lit "filter"))
  | Some entries =>
      match all_present entries with
      | Some results => Return (derive_sources cfg results)
      | None => Throw (ThrownTypeError (lit "score"))
      end
  end.

(** The checks and the derivation that follow the [await].  Reading
    [field_errors] from a [null] body raises a [TypeError]; [!summary]
    holds of an absent summary and of the empty string, and is checked
    before [search_results] is used. *)
Definition handle_response (cfg : RequiredConfig) (response : AxiosResponse)
    : completion thrown QueryResult :=
  match data response with
  | None => Throw (ThrownTypeError (lit "field_errors"))
  | Some d =>
      if truthy_array (field_errors d) || truthy_array (messages d) then
        Throw (ThrownError
                 (lit "Invalid response from Vectara: " ++
                  JSON_stringify (errors_or_messages d)))
      else
        match summary d with
        | Some (c :: s) =>
            bind (sources_of cfg (destructured (search_results d) []))
                 (fun sources =>
                    Return {| qr_summary := c :: s; qr_sources := sources |})
        | Some [] | None =>
            Throw (ThrownError (lit "No summary in Vectara response"))
        end
  end.

(** [async query(question)] with every call of [logToFile] taken as
    having returned: what [query] does when the log can be written.  The
    [catch] block then rethrows what it caught.  [Logged.query] below is
    [query] with the log calls. *)
Definition query (self : VectaraService) (question : js_string)
    : completion thrown QueryResult :=
  let cfg := config self in
  try_catch
    (bind (axios_post (apiUrl self) (build_payload cfg question) (build_headers cfg))
          (handle_response cfg))
    (fun error => Throw error).

End Query.

End Vectara.

(* ================================================================== *)
(** * app.ts: the text formatter                                       *)
(* ================================================================== *)

Module App.
Import Js.

Definition star : cls := CChar 42%N.
Definition backtick : cls := CChar 96%N.
Definition underscore : cls := CChar 95%N.
Definition hash : cls := CChar 35%N.

(** [/\*\*(.*?)\*\*/g] *)
Definition re_bold : regex :=
  Seq (One star) (Seq (One star)
    (Seq (Group 1 (LazyStar CDot)) (Seq (One star) (One star)))).

(** [/\*(.*?)\*/g] *)
Definition re_italic : regex :=
  Seq (One star) (Seq (Group 1 (LazyStar CDot)) (One star)).

(** [/`(.*?)`/g] *)
Definition re_code : regex :=
  Seq (One backtick) (Seq (Group 1 (LazyStar CDot)) (One backtick)).

(** [/_{2}(.*?)_{2}/g] *)
Definition re_underscores : regex :=
  Seq (Repeat underscore 2 2)
    (Seq (Group 1 (LazyStar CDot)) (Repeat underscore 2 2)).

(** [/^#{1,6}\s/gm] *)
Definition re_heading : regex :=
  Seq Bol (Seq (Repeat hash 1 6) (One CSpace)).

Definition cleanupMarkdown (text : js_string) : js_string :=
  trim
    (replace_all re_heading empty_repl
       (replace_all re_underscores dollar1
          (replace_all re_code dollar1
             (replace_all re_italic dollar1
                (replace_all re_bold dollar1 text))))).

(** The source record of the formatter has the same two members as the
    adapter's. *)
Definition Source := Vectara.VectaraSource.

Definition sources_header : js_string := [LF; LF] ++ lit "*Sources:*".

(** One line of the list: a newline, a bullet (U+2022), a space and the
    Slack link [<url|title>]. *)
Definition bullet (s : Source) : js_string :=
  [LF; 8226%N] ++ lit " <" ++ Vectara.url s ++ lit "|" ++ Vectara.title s ++ lit ">".

(** [formatSources(sources)]; [None] is an absent ([undefined] or [null])
    argument. *)
Definition formatSources (sources : option (list Source)) : js_string :=
  match sources with
  | None => []
  | Some [] => []
  | Some l =>
      let limitedSources := firstn 15 l in
      fold_left (fun sourcesText source => sourcesText ++ bullet source)
        limitedSources sources_header
  end.

(** What the handlers send:
    [cleanupMarkdown(response.summary || '') + formatSources(response.sources)]. *)
Definition replyText (response : Vectara.QueryResult) : js_string :=
  cleanupMarkdown
    (if truthy_string (Vectara.qr_summary response)
     then Vectara.qr_summary response else []) ++
  formatSources (Some (Vectara.qr_sources response)).

End App.

(* ================================================================== *)
(** * Notions used to state the properties                             *)
(* ================================================================== *)

Module Props.
Import Js Prompts Vectara.

(** [a] is below [b]: the strict order of numbers (nothing is below or
    above NaN). *)
Definition below (a b : number) : Prop :=
  match a, b with
  | Fin x, Fin y => (x < y)%Q
  | NegInf, Fin _ | NegInf, PosInf | Fin _, PosInf => True
  | _, _ => False
  end.

(** [l1] is [l2] with some elements left out, the others in place. *)
Inductive Subsequence {A : Type} : list A -> list A -> Prop :=
| Subsequence_nil : Subsequence [] []
| Subsequence_skip x l1 l2 : Subsequence l1 l2 -> Subsequence l1 (x :: l2)
| Subsequence_keep x l1 l2 : Subsequence l1 l2 -> Subsequence (x :: l1) (x :: l2).

(** [r.document_metadata?.title]. *)
Definition metadata_title (r : VectaraSearchResult) : option js_string :=
  match document_metadata r with Some md => md_title md | None => None end.

(** A passage survives when it passes the score filter and its source has
    a non-empty url. *)
Definition survives (cfg : RequiredConfig) (r : VectaraSearchResult) : bool :=
  passes_cutoff cfg r && truthy_string (url (to_source r)).

(** The sources of the surviving passages, before deduplication. *)
Definition candidates (cfg : RequiredConfig) (results : list VectaraSearchResult)
    : list VectaraSource :=
  map to_source (filter (survives cfg) results).

(** The entries of [l] that carry the url [u]. *)
Definition with_url (u : js_string) (l : list VectaraSource) : list VectaraSource :=
  filter (fun s => str_eqb (url s) u) l.

(** Follows the spec's words ("deduplicate by url keeping first occurrence
    and original order"): walk the list once, keep an entry when its url
    has not been seen, and remember the urls kept. *)
Fixpoint dedup_by_url (seen : list js_string) (l : list VectaraSource)
    : list VectaraSource :=
  match l with
  | [] => []
  | s :: l' =>
      if existsb (str_eqb (url s)) seen
      then dedup_by_url seen l'
      else s :: dedup_by_url (url s :: seen) l'
  end.

(** The string [s] starts with [p]. *)
Fixpoint starts_with (p s : js_string) : bool :=
  match p, s with
  | [], _ => true
  | x :: p', y :: s' => N.eqb x y && starts_with p' s'
  | _ :: _, [] => false
  end.

(** The spec's [InvalidResponse]: one of the two errors [query] raises
    itself after a reply came back. *)
Definition InvalidResponse (e : thrown) : bool :=
  match e with
  | ThrownError m =>
      starts_with (lit "Invalid response from Vectara: ") m
      || str_eqb m (lit "No summary in Vectara response")
  | _ => false
  end.

(** The error [query] raises for a reply that carries errors or messages. *)
Definition rejection_error (stringify : json -> js_string) (d : VectaraResponse)
    : thrown :=
  ThrownError (lit "Invalid response from Vectara: " ++
               stringify (errors_or_messages d)).

(** The reply carries field errors or messages: the member is there. *)
Definition carries_errors (d : VectaraResponse) : Prop :=
  field_errors d <> None \/ messages d <> None.

(** The summary is absent or empty. *)
Definition no_summary (d : VectaraResponse) : Prop :=
  summary d = None \/ summary d = Some [].

(** The code unit before the position reached after reading [t]. *)
Definition prev_after (p : option code_unit) (t : js_string) : option code_unit :=
  match rev t with [] => p | c :: _ => Some c end.

(** [/d(.*?)d/] for a single delimiter [d]: the shape of the italic and
    of the inline-code expression. *)
Definition paired (d : code_unit) : regex :=
  Seq (One (CChar d)) (Seq (Group 1 (LazyStar CDot)) (One (CChar d))).

(** [s] with its score set to [x]. *)
Definition with_score (x : option number) (r : VectaraSearchResult)
    : VectaraSearchResult :=
  {| text := text r; score := x; document_metadata := document_metadata r |}.

End Props.

(* ================================================================== *)
(** * Concrete inputs                                                  *)
(* ================================================================== *)

Module Examples.
Import Js Prompts Vectara.

(** A rendering of JSON values, enough to run the examples. *)
Definition stringify (v : json) : js_string :=
  match v with
  | JNull => lit "null"
  | JArray [] => lit "[]"
  | JArray (_ :: _) => lit "[...]"
  | _ => lit "..."
  end.

(** A configuration with no override. *)
Definition bare_config : VectaraConfig := {|
  customerId := lit "customer";
  apiKey := lit "key";
  corpusKey := lit "corpus";
  prePrompt := lit "You are a research assistant.";
  promptTemplate := [];
  searchDepth := None;
  maxResults := None;
  maxTokens := None;
  temperature := None;
  frequencyPenalty := None;
  presencePenalty := None;
  diversityBias := None;
  relevanceThreshold := None;
  maxResponseChars := None
|}.

Definition service : VectaraService := constructor bare_config.

Definition passage (t u : string) (sc : option number) : VectaraSearchResult := {|
  text := Some (lit "passage text");
  score := sc;
  document_metadata :=
    Some {| md_title := Some (lit t); md_url := Some (lit u);
            md_type := None; md_excerpt := None |}
|}.

(** A reply with status 200 and an object as body; [rs] is the array of
    passages, [None] for a body without [search_results]. *)
Definition reply (s : option js_string) (rs : option (list VectaraSearchResult))
    (fe : option (list json)) (ms : option (list js_string)) : AxiosResponse := {|
  status := 200%Z;
  statusText := lit "OK";
  data := Some {| summary := s;
                  search_results :=
                    match rs with
                    | Some l => Given (map Some l)
                    | None => Missing
                    end;
                  factual_consistency_score := None;
                  field_errors := fe; messages := ms |}
|}.



(** A transport that answers [r], and one that fails with [e]. *)
Definition answers (r : AxiosResponse)
    (_ : js_string) (_ : VectaraRequestPayload) (_ : RequestHeaders)
    : completion thrown AxiosResponse := Return r.

Definition fails (e : thrown)
    (_ : js_string) (_ : VectaraRequestPayload) (_ : RequestHeaders)
    : completion thrown AxiosResponse := Throw e.

Definition connection_refused : AxiosError := {|
  ae_message := lit "connect ECONNREFUSED 127.0.0.1:443";
  ae_code := Some (lit "ECONNREFUSED");
  ae_response := None
|}.

Definition source (t u : string) : VectaraSource :=
  {| title := lit t; url := lit u |}.

(** Three passages; the first and the third share a url, and the first
    scores below the default cutoff 0.25. *)
Definition shadowed_results : list VectaraSearchResult :=
  [passage "A" "https://a.example/" (Some (decimal 1 10));
   passage "B" "https://b.example/" (Some (decimal 9 10));
   passage "C" "https://a.example/" (Some (decimal 9 10))].

(** Two passages above the cutoff that share a url. *)
Definition twin_results : list VectaraSearchResult :=
  [passage "A" "https://a.example/" (Some (decimal 9 10));
   passage "B" "https://a.example/" (Some (decimal 8 10))].


Definition sixteen_sources : list VectaraSource :=
  [source "t1" "u1"; source "t2" "u2"; source "t3" "u3"; source "t4" "u4";
   source "t5" "u5"; source "t6" "u6"; source "t7" "u7"; source "t8" "u8";
   source "t9" "u9"; source "t10" "u10"; source "t11" "u11"; source "t12" "u12";
   source "t13" "u13"; source "t14" "u14"; source "t15" "u15"; source "t16" "u16"].

End Examples.

(* ================================================================== *)
(** * Further notions used to state properties                         *)
(* ================================================================== *)

Module Aux.
Import Js Prompts Vectara Props.

(** [a >= b] as a proposition: the order of the numbers, equality
    included; NaN is comparable with nothing. *)
Definition at_least (a b : number) : Prop :=
  match a, b with
  | NaN, _ | _, NaN => False
  | Fin x, Fin y => (y <= x)%Q
  | PosInf, _ | _, NegInf => True
  | _, _ => False
  end.

(** The score the filter compares: the score of the passage, 0 when it
    has none. *)
Definition score_or_zero (r : VectaraSearchResult) : number :=
  match score r with Some x => x | None => of_Z 0 end.

(** The url of [s] is one of [seen]. *)
Definition url_among (seen : list js_string) (s : VectaraSource) : bool :=
  existsb (str_eqb (url s)) seen.

(** The string is empty or starts with a code unit that is not white
    space. *)
Definition starts_clean (s : js_string) : Prop :=
  match s with [] => True | c :: _ => is_space c = false end.

(** No code unit of the text is a star, a backtick, an underscore or a
    hash. *)
Definition markup_free (t : js_string) : Prop :=
  Forall (fun c => c <> 42%N /\ c <> 96%N /\ c <> 95%N /\ c <> 35%N) t.

(** Every capture is at most [n] code units long. *)
Definition caps_within (n : nat) (cs : list (nat * js_string)) : Prop :=
  Forall (fun it => length (snd it) <= n) cs.

End Aux.

(* ================================================================== *)
(** * Further concrete inputs                                          *)
(* ================================================================== *)

Module Cases.
Import Js Prompts Vectara.

(** A configuration whose cutoff did not parse as a number. *)
Definition nan_config : VectaraConfig := {|
  customerId := lit "customer";
  apiKey := lit "key";
  corpusKey := lit "corpus";
  prePrompt := [];
  promptTemplate := [];
  searchDepth := None;
  maxResults := None;
  maxTokens := None;
  temperature := None;
  frequencyPenalty := None;
  presencePenalty := None;
  diversityBias := None;
  relevanceThreshold := Some NaN;
  maxResponseChars := None
|}.

End Cases.

(* ================================================================== *)
(** * The OODA AI service (class [OODAAIService])                      *)
(* ================================================================== *)

Module Ooda.
Import Js Vectara.

(** Truthiness of a JSON value. *)
Definition truthy (v : json) : bool :=
  match v with
  | JNull => false
  | JBool b => b
  | JNumber NaN => false
  | JNumber (Fin q) => negb (Qeq_bool q 0)
  | JNumber _ => true
  | JString s => truthy_string s
  | JArray _ | JObject _ => true
  end.

(** The value bound to [k] in the members of an object; of two bindings
    of one key the later one counts, as when JSON text is parsed. *)
Fixpoint member (k : js_string) (l : list (js_string * json)) : option json :=
  match l with
  | [] => None
  | (k', v) :: l' =>
      match member k l' with
      | Some w => Some w
      | None => if str_eqb k' k then Some v else None
      end
  end.

(** [v.k] for a value that is not [null], and for one of the keys
    [answer], [sources], [message], which no string, number, boolean or
    array has: [undefined] ([None]) unless [v] is an object with the
    member. *)
Definition read (v : json) (k : js_string) : option json :=
  match v with
  | JObject l => member k l
  | _ => None
  end.

(** [interface QueryResponse], with the members as they are at run time:
    whatever the reply held under [answer] and [sources]. *)
Record QueryResponse : Type := {
  answer : option json;
  sources : option json
}.

Record OODAAIService : Type := {
  apiKey : js_string;
  baseURL : js_string
}.

(** [constructor(apiKey, baseURL = 'https://api.ooda.ai/v1')]. *)
Definition constructor (key : js_string) (base : option js_string)
    : OODAAIService := {|
  apiKey := key;
  baseURL := match base with Some b => b | None => lit "https://api.ooda.ai/v1" end
|}.

Record RequestBody : Type := { question : js_string }.

Record Headers : Type := {
  Authorization : js_string;
  Content_Type : js_string
}.

Record Response : Type := {
  status : Z;
  statusText : js_string;
  data : json
}.

(** [error.response?.data?.message]. *)
Definition upstream_message (e : AxiosError) : option json :=
  match ae_response e with
  | None => None
  | Some r =>
      match e_data r with
      | JNull => None
      | d => read d (lit "message")
      end
  end.

(** [error.response?.data?.message || error.message]. *)
Definition error_detail (e : AxiosError) : json :=
  match upstream_message e with
  | Some v => if truthy v then v else JString (ae_message e)
  | None => JString (ae_message e)
  end.

Section Query.

(** The environment: the conversion of a value to a string in a template
    literal, the message of the [TypeError] raised when a member of [null]
    is read, and the transport. *)
Variable ToString : json -> js_string.
Variable null_read_message : js_string -> js_string.
Variable axios_post :
  js_string -> RequestBody -> Headers -> completion thrown Response.

(** [${v}]: a string stands for itself. *)
Definition interpolate (v : json) : js_string :=
  match v with
  | JString s => s
  | _ => ToString v
  end.

(** [response.data.k], which throws when the data is [null]. *)
Definition read_data (d : json) (k : js_string) : completion thrown (option json) :=
  match d with
  | JNull => Throw (ThrownError (null_read_message k))
  | _ => Return (read d k)
  end.

Definition build_headers (self : OODAAIService) : Headers := {|
  Authorization := lit "Bearer " ++ apiKey self;
  Content_Type := lit "application/json"
|}.

(** [async query(question)].  In the [catch] block,
    [axios.isAxiosError(error)] holds of the [AxiosError] objects, which
    carry the flag. *)
Definition query (self : OODAAIService) (q : js_string)
    : completion thrown QueryResponse :=
  try_catch
    (bind (axios_post (baseURL self ++ lit "/query")
             {| question := q |} (build_headers self))
       (fun response =>
          bind (read_data (data response) (lit "answer")) (fun a =>
          bind (read_data (data response) (lit "sources")) (fun s =>
          Return {| answer := a; sources := s |}))))
    (fun error =>
       match error with
       | ThrownAxiosError e =>
           Throw (ThrownError
                    (lit "OODA AI API error: " ++ interpolate (error_detail e)))
       | _ => Throw error
       end).

End Query.

End Ooda.

(* ================================================================== *)
(** * Concrete inputs for the OODA service                             *)
(* ================================================================== *)

Module OodaCases.
Import Js Vectara.

(** The environment of the OODA service in the examples. *)
Definition to_string (v : json) : js_string :=
  match v with
  | JNull => lit "null"
  | JBool true => lit "true"
  | JBool false => lit "false"
  | _ => lit "[object Object]"
  end.

Definition null_read (k : js_string) : js_string :=
  lit "Cannot read properties of null (reading '" ++ k ++ lit "')".

Definition ooda_answers (r : Ooda.Response)
    (_ : js_string) (_ : Ooda.RequestBody) (_ : Ooda.Headers)
    : completion thrown Ooda.Response := Return r.

Definition ooda_fails (e : thrown)
    (_ : js_string) (_ : Ooda.RequestBody) (_ : Ooda.Headers)
    : completion thrown Ooda.Response := Throw e.

(** An upstream error with a message in its body. *)
Definition unauthorized : AxiosError := {|
  ae_message := lit "Request failed with status code 401";
  ae_code := Some (lit "ERR_BAD_REQUEST");
  ae_response :=
    Some {| e_status := 401%Z; e_statusText := lit "Unauthorized";
            e_data := JObject [(lit "message", JString (lit "Invalid API key"))] |}
|}.

Definition ooda_service : Ooda.OODAAIService :=
  Ooda.constructor (lit "key") None.

End OodaCases.

(* ================================================================== *)
(** * app.ts: the handlers                                             *)
(* ================================================================== *)

Module Slack.
Import Js Vectara.

(** The double quote. *)
Definition QUOTE : code_unit := 34%N.

(** [hay.includes(needle)]. *)
Fixpoint includes (needle hay : js_string) : bool :=
  Props.starts_with needle hay
  || match hay with
     | [] => false
     | _ :: hay' => includes needle hay'
     end.

(** The object given to [say]. *)
Record SayArguments : Type := {
  sa_text : js_string;
  sa_mrkdwn : option bool;
  sa_unfurl_links : option bool;
  sa_unfurl_media : option bool;
  sa_thread_ts : option js_string
}.

(** [say] takes a string or an object. *)
Inductive SayArg : Type :=
| SayString (s : js_string)
| SayObject (a : SayArguments).

Record RespondArguments : Type := {
  ra_response_type : js_string;
  ra_text : js_string
}.

(** A block [{type, text: {type, text}}]. *)
Record Block : Type := {
  b_type : js_string;
  b_text_type : js_string;
  b_text : js_string
}.

Record PostMessageArguments : Type := {
  pm_channel : js_string;
  pm_text : js_string;
  pm_blocks : option (list Block);
  pm_mrkdwn : option bool;
  pm_unfurl_links : option bool;
  pm_unfurl_media : option bool
}.

Record PostMessageResult : Type := { pr_ts : option js_string }.

Record DeleteArguments : Type := {
  da_channel : js_string;
  da_ts : js_string
}.

(** The calls a handler awaits, each with the type of what it resolves
    to: the functions Bolt hands to the handler, the Slack client, and
    [vectara.query]. *)
Inductive call : Type -> Type :=
| Ack : call unit
| Say (a : SayArg) : call unit
| Respond (a : RespondArguments) : call unit
| PostMessage (a : PostMessageArguments) : call PostMessageResult
| Delete (a : DeleteArguments) : call unit
| Query (question : js_string) : call QueryResult.

(** A call as it shows in a trace. *)
Inductive action : Type :=
| AAck
| ASay (a : SayArg)
| ARespond (a : RespondArguments)
| APostMessage (a : PostMessageArguments)
| ADelete (a : DeleteArguments)
| AQuery (question : js_string).

Definition action_of {R : Type} (c : call R) : action :=
  match c with
  | Ack => AAck
  | Say a => ASay a
  | Respond a => ARespond a
  | PostMessage a => APostMessage a
  | Delete a => ADelete a
  | Query q => AQuery q
  end.

(** An asynchronous computation: it returns, throws, or awaits a call and
    goes on with what the call settled to. *)
Inductive prog (A : Type) : Type :=
| Ret (a : A)
| Raise (e : thrown)
| Await (R : Type) (c : call R) (k : completion thrown R -> prog A).
Arguments Ret {A} a.
Arguments Raise {A} e.
Arguments Await {A R} c k.

(** [await c]. *)
Definition await {R : Type} (c : call R) : prog R :=
  Await c (fun r => match r with Return v => Ret v | Throw e => Raise e end).

Fixpoint pbind {A B : Type} (p : prog A) (f : A -> prog B) : prog B :=
  match p with
  | Ret a => f a
  | Raise e => Raise e
  | Await c k => Await c (fun r => pbind (k r) f)
  end.

(** [try { p } catch (error) { h(error) }]. *)
Fixpoint ptry {A : Type} (p : prog A) (h : thrown -> prog A) : prog A :=
  match p with
  | Ret a => Ret a
  | Raise e => h e
  | Await c k => Await c (fun r => ptry (k r) h)
  end.

Notation "x <- p ;; q" := (pbind p (fun x => q))
  (at level 61, p at next level, right associativity).
Notation "p ;;; q" := (pbind p (fun _ => q))
  (at level 61, right associativity).

(** The environment settles every call, knowing the calls made before. *)
Definition environment : Type :=
  forall R : Type, list action -> call R -> completion thrown R.

(** Running a computation from the history [h]: the calls made, in order,
    and how the computation ended. *)
Fixpoint run {A : Type} (env : environment) (h : list action) (p : prog A)
    : list action * completion thrown A :=
  match p with
  | Ret a => (h, Return a)
  | Raise e => (h, Throw e)
  | Await c k => run env (h ++ [action_of c]) (k (env _ h c))
  end.

(** The message of a message event, with the members the handlers read. *)
Record Message : Type := {
  m_text : option js_string;
  m_channel_type : option js_string;
  m_subtype : option js_string;
  m_ts : option js_string
}.

Record Command : Type := {
  c_command : js_string;
  c_text : js_string;
  c_channel_id : option js_string
}.

Record MentionEvent : Type := {
  ev_text : js_string;
  ev_user : js_string
}.

(** [a === 'literal'] for a member that may be absent. *)
Definition is_string (a : option js_string) (s : js_string) : bool :=
  match a with Some v => str_eqb v s | None => false end.

(** Truthiness of a member that may be absent. *)
Definition present (a : option js_string) : bool :=
  match a with Some v => truthy_string v | None => false end.

Definition dm_notice (text : js_string) : js_string :=
  lit "Querying OODA AI with: " ++ [QUOTE] ++ text ++ [QUOTE] ++ lit "...".

Definition dm_apology : js_string :=
  lit "Error processing query. Please try again in a moment.".

Definition reply_say (response : QueryResult) : SayArguments := {|
  sa_text := App.replyText response;
  sa_mrkdwn := Some true;
  sa_unfurl_links := None;
  sa_unfurl_media := None;
  sa_thread_ts := None
|}.

Section Handlers.

(** [String.prototype.toLowerCase]. *)
Variable toLowerCase : js_string -> js_string.

(** [app.message(async ({ message, say, client }) => ...)]; the calls to
    [console] are left out here and below. *)
Definition message_handler (message : option Message) : prog unit :=
  match message with
  | None => Ret tt
  | Some m =>
      match m_text m with
      | None | Some [] => Ret tt
      | Some text =>
          if negb (is_string (m_channel_type m) (lit "im"))
             || is_string (m_subtype m) (lit "bot_message")
          then Ret tt
          else if includes (lit "hello") (toLowerCase text)
          then Ret tt
          else
            ptry
              (await (Say (SayString (dm_notice text))) ;;;
               response <- await (Query text) ;;
               await (Say (SayObject (reply_say response))))
              (fun error => await (Say (SayString dm_apology)))
      end
  end.

End Handlers.

(** [app.command('/hello', ...)]. *)
Definition hello_command (command : Command) : prog unit :=
  await Ack ;;;
  await (Say (SayString (lit "Hello! You triggered " ++ c_command command))).

Definition ask_usage : RespondArguments := {|
  ra_response_type := lit "ephemeral";
  ra_text := lit "Please provide a question. Usage: /ask your question here"
|}.

Definition ask_processing : RespondArguments := {|
  ra_response_type := lit "ephemeral";
  ra_text := lit "Processing your query..."
|}.

Definition ask_loading (channel query : js_string) : PostMessageArguments := {|
  pm_channel := channel;
  pm_text := lit "Analyzing... Standby for results...";
  pm_blocks :=
    Some [ {| b_type := lit "section";
              b_text_type := lit "mrkdwn";
              b_text := lit ":hourglass: *Analyzing... Standby for results...*"
                        ++ [LF] ++ lit "_Query: " ++ query ++ lit "_" |} ];
  pm_mrkdwn := None;
  pm_unfurl_links := None;
  pm_unfurl_media := None
|}.

Definition ask_result (channel replyText : js_string) : PostMessageArguments := {|
  pm_channel := channel;
  pm_text := replyText;
  pm_blocks := None;
  pm_mrkdwn := Some true;
  pm_unfurl_links := Some false;
  pm_unfurl_media := Some false
|}.

Definition ask_apology (channel : js_string) : PostMessageArguments := {|
  pm_channel := channel;
  pm_text := lit ":x: Error processing query. Please try again in a moment.";
  pm_blocks := None;
  pm_mrkdwn := None;
  pm_unfurl_links := Some false;
  pm_unfurl_media := Some false
|}.

(** [try { if (loadingMessage.ts) await client.chat.delete(..) }
     catch (deleteError) { .. }]. *)
Definition delete_loading (channel : js_string) (ts : option js_string)
    : prog unit :=
  ptry
    (match ts with
     | Some (c :: t) =>
         await (Delete {| da_channel := channel; da_ts := c :: t |})
     | Some [] | None => Ret tt
     end)
    (fun deleteError => Ret tt).

(** [app.command('/ask', ...)].  The channel id is read again, with [!],
    where a message is posted or deleted; it was checked before. *)
Definition ask_command (command : Command) : prog unit :=
  await Ack ;;;
  let query := trim (c_text command) in
  match query with
  | [] => await (Respond ask_usage)
  | _ :: _ =>
      match c_channel_id command with
      | None | Some [] => Raise (ThrownError (lit "No channel ID provided"))
      | Some channel =>
          loadingMessage <- await (PostMessage (ask_loading channel query)) ;;
          if negb (present (pr_ts loadingMessage))
          then Raise (ThrownError
                        (lit "Failed to get message timestamp from Slack"))
          else
            await (Respond ask_processing) ;;;
            ptry
              (response <- await (Query query) ;;
               let replyText := App.replyText response in
               delete_loading channel (pr_ts loadingMessage) ;;;
               _ <- await (PostMessage (ask_result channel replyText)) ;;
               Ret tt)
              (fun error =>
                 delete_loading channel (pr_ts loadingMessage) ;;;
                 _ <- await (PostMessage (ask_apology channel)) ;;
                 Ret tt)
      end
  end.

(** [app.message(/hello/i, ...)]: the listener Bolt calls for a message
    whose text matches. *)
Definition hello_message (message : Message) : prog unit :=
  ptry
    (if is_string (m_channel_type message) (lit "im")
     then await (Say (SayObject
            {| sa_text := lit "Hello there! I received your DM.";
               sa_mrkdwn := None;
               sa_unfurl_links := None;
               sa_unfurl_media := None;
               sa_thread_ts := m_ts message |}))
     else Ret tt)
    (fun error => Ret tt).

(** The text before the first [>] and the text after it. *)
Fixpoint until_gt (s : js_string) : option (js_string * js_string) :=
  match s with
  | [] => None
  | c :: s' =>
      if N.eqb c 62 then Some ([], s')
      else match until_gt s' with
           | Some (r, after) => Some (c :: r, after)
           | None => None
           end
  end.

(** [text.replace(/<@[^>]+>/, '')]: the leftmost match is removed.  The
    expression matches at a position that holds [<@], then at least one
    code unit other than [>], then [>]: the greedy class takes everything
    up to the next [>], and giving some of it back never helps, since what
    it gives back is not [>]. *)
Fixpoint strip_mention (s : js_string) : js_string :=
  match s with
  | [] => []
  | c :: t =>
      if N.eqb c 60 then
        match t with
        | d :: u =>
            if N.eqb d 64 then
              match until_gt u with
              | Some (_ :: _, after) => after
              | _ => c :: strip_mention t
              end
            else c :: strip_mention t
        | [] => c :: strip_mention t
        end
      else c :: strip_mention t
  end.

Definition mention_greeting (user : js_string) : js_string :=
  lit "Hello <@" ++ user ++ lit ">! How can I help you?".

Definition mention_notice (query : js_string) : js_string :=
  lit "Processing query: " ++ [QUOTE] ++ query ++ [QUOTE] ++ lit "...".

Definition mention_apology : js_string :=
  lit "Sorry, I encountered an error processing your query. Please try again.".

Definition mention_reply (response : QueryResult) : SayArguments := {|
  sa_text := App.replyText response;
  sa_mrkdwn := Some true;
  sa_unfurl_links := Some false;
  sa_unfurl_media := Some false;
  sa_thread_ts := None
|}.

(** [app.event('app_mention', ...)]. *)
Definition mention_handler (event : MentionEvent) : prog unit :=
  ptry
    (let query := trim (strip_mention (ev_text event)) in
     match query with
     | [] => await (Say (SayString (mention_greeting (ev_user event))))
     | _ :: _ =>
         await (Say (SayString (mention_notice query))) ;;;
         response <- await (Query query) ;;
         await (Say (SayObject (mention_reply response)))
     end)
    (fun error => await (Say (SayString mention_apology))).

End Slack.

(* ================================================================== *)
(** * app.ts: the service built from the environment                   *)
(* ================================================================== *)

Module Env.
Import Js Prompts Vectara.

(** [SYSTEM_PROMPT] of config/prompts.ts. *)
Definition SYSTEM_PROMPT : js_string :=
  lit "You are a research assistant. CRITICAL INSTRUCTION: Your task is to create a 3-4 paragraph summary using relevant information found in the search results."
  ++ [LF] ++ [LF]
  ++ lit "Rules for content use:" ++ [LF]
  ++ lit "1. Maximum four paragraphs" ++ [LF]
  ++ lit "2. Combine multiple sources if needed" ++ [LF]
  ++ lit "3. Use clear, direct language" ++ [LF]
  ++ lit "4. Reference experts" ++ [LF]
  ++ [LF].

(** [QUERY_TEMPLATE] of config/prompts.ts. *)
Definition QUERY_TEMPLATE : js_string :=
  [LF]
  ++ lit "#foreach( $doc in $vectaraQueryResults )" ++ [LF]
  ++ lit "Title: $doc.document_metadata.title  " ++ [LF]
  ++ lit "URL: $doc.document_metadata.url  " ++ [LF]
  ++ lit "$doc.text" ++ [LF]
  ++ [LF]
  ++ lit "#end" ++ [LF]
  ++ [LF]
  ++ lit "Based on the provided OODAloop.com content, provide a 3-4 paragraph summary answering "
  ++ [34%N] ++ lit "{question}" ++ [34%N] ++ lit ". Reference experts.".

(** [process.env]: a variable is a string or is not set. *)
Definition process_env : Type := js_string -> option js_string.

(** [a || b] for a variable of the environment: [b] when the variable is
    not set or is the empty string. *)
Definition or_else (a : option js_string) (b : js_string) : js_string :=
  match a with
  | Some (c :: s) => c :: s
  | Some [] | None => b
  end.

Section Service.

(** [parseInt(s, 10)], [parseFloat(s)] and [String(n)]. *)
Variable parseInt10 : js_string -> number.
Variable parseFloat : js_string -> number.
Variable String_of : number -> js_string.

(** The argument of [new VectaraService({...})]. *)
Definition service_config (env : process_env) : VectaraConfig := {|
  customerId := or_else (env (lit "VECTARA_CUSTOMER_ID")) [];
  apiKey := or_else (env (lit "VECTARA_API_KEY")) [];
  corpusKey := or_else (env (lit "VECTARA_CORPUS_KEY")) [];
  prePrompt := SYSTEM_PROMPT;
  promptTemplate := QUERY_TEMPLATE;
  searchDepth :=
    Some (parseInt10 (or_else (env (lit "VECTARA_SEARCH_DEPTH"))
                        (String_of (d_searchDepth VectaraQueryDefaults))));
  maxResults :=
    Some (parseInt10 (or_else (env (lit "VECTARA_MAX_RESULTS"))
                        (String_of (d_maxResults VectaraQueryDefaults))));
  maxTokens :=
    Some (parseInt10 (or_else (env (lit "VECTARA_MAX_TOKENS"))
                        (String_of (d_maxTokens VectaraQueryDefaults))));
  temperature :=
    Some (parseFloat (or_else (env (lit "VECTARA_TEMPERATURE"))
                        (String_of (d_temperature VectaraQueryDefaults))));
  frequencyPenalty :=
    Some (parseFloat (or_else (env (lit "VECTARA_FREQUENCY_PENALTY"))
                        (String_of (d_frequencyPenalty VectaraQueryDefaults))));
  presencePenalty :=
    Some (parseFloat (or_else (env (lit "VECTARA_PRESENCE_PENALTY"))
                        (String_of (d_presencePenalty VectaraQueryDefaults))));
  diversityBias :=
    Some (parseFloat (or_else (env (lit "VECTARA_DIVERSITY_BIAS"))
                        (String_of (d_diversityBias VectaraQueryDefaults))));
  relevanceThreshold :=
    Some (parseFloat (or_else (env (lit "VECTARA_RELEVANCE_THRESHOLD"))
                        (String_of (d_relevanceThreshold VectaraQueryDefaults))));
  maxResponseChars := None
|}.

(** [const vectara = new VectaraService({...})]. *)
Definition vectara (env : process_env) : VectaraService :=
  constructor (service_config env).

End Service.

End Env.

(* ================================================================== *)
(** * Notions and concrete inputs for the handlers                     *)
(* ================================================================== *)

Module Scene.
Import Js Prompts Vectara.

(** [c] with other values for the two settings [query] never reads. *)
Definition with_unused (id template : js_string) (c : VectaraConfig)
    : VectaraConfig := {|
  customerId := id;
  apiKey := apiKey c;
  corpusKey := corpusKey c;
  prePrompt := prePrompt c;
  promptTemplate := template;
  searchDepth := searchDepth c;
  maxResults := maxResults c;
  maxTokens := maxTokens c;
  temperature := temperature c;
  frequencyPenalty := frequencyPenalty c;
  presencePenalty := presencePenalty c;
  diversityBias := diversityBias c;
  relevanceThreshold := relevanceThreshold c;
  maxResponseChars := maxResponseChars c
|}.

(** The variable is not set, or set to the empty string. *)
Definition unset (env : Env.process_env) (name : js_string) : Prop :=
  env name = None \/ env name = Some [].

(** The message passes the checks of the message handler and carries the
    text [text]. *)
Definition direct_message (toLowerCase : js_string -> js_string)
    (m : Slack.Message) (text : js_string) : Prop :=
  Slack.m_text m = Some text
  /\ text <> []
  /\ Slack.m_channel_type m = Some (lit "im")
  /\ Slack.m_subtype m <> Some (lit "bot_message")
  /\ Slack.includes (lit "hello") (toLowerCase text) = false.

(** What a handler ends with after a last call that resolved to [r]. *)
Definition finish {R : Type} (r : completion thrown R) : completion thrown unit :=
  match r with Return _ => Return tt | Throw e => Throw e end.

(** The history of an [/ask] command up to its query. *)
Definition ask_opening (channel query : js_string) : list Slack.action :=
  [Slack.AAck; Slack.APostMessage (Slack.ask_loading channel query);
   Slack.ARespond Slack.ask_processing].

(** The command carries the question [query] and the channel [channel];
    it was acknowledged, the loading message was posted and got the
    timestamp [ts], and the note that the query is being processed went
    through. *)
Definition ask_opened (env : Slack.environment) (command : Slack.Command)
    (channel query ts : js_string) : Prop :=
  trim (Slack.c_text command) = query
  /\ query <> []
  /\ Slack.c_channel_id command = Some channel
  /\ channel <> []
  /\ ts <> []
  /\ env unit [] Slack.Ack = Return tt
  /\ env Slack.PostMessageResult [Slack.AAck]
       (Slack.PostMessage (Slack.ask_loading channel query))
     = Return {| Slack.pr_ts := Some ts |}
  /\ env unit
       [Slack.AAck; Slack.APostMessage (Slack.ask_loading channel query)]
       (Slack.Respond Slack.ask_processing)
     = Return tt.

(** The call that deletes the loading message. *)
Definition ask_delete (channel ts : js_string) : Slack.DeleteArguments :=
  {| Slack.da_channel := channel; Slack.da_ts := ts |}.

(** A timestamp as Slack gives them. *)
Definition stamp : js_string := lit "1700000000.000100".

(** A Slack that accepts every call, with a query that ends as [q]. *)
Definition cooperative (q : completion thrown QueryResult) : Slack.environment :=
  fun R h c =>
    match c in Slack.call R return completion thrown R with
    | Slack.Ack => Return tt
    | Slack.Say _ => Return tt
    | Slack.Respond _ => Return tt
    | Slack.PostMessage _ => Return {| Slack.pr_ts := Some stamp |}
    | Slack.Delete _ => Return tt
    | Slack.Query _ => q
    end.

(** A Slack that accepts every call, with the query of the handlers wired
    to the service [service] over the transport [post]. *)
Definition wired (stringify : json -> js_string)
    (post : js_string -> VectaraRequestPayload -> RequestHeaders ->
            completion thrown AxiosResponse)
    (service : VectaraService) : Slack.environment :=
  fun R h c =>
    match c in Slack.call R return completion thrown R with
    | Slack.Ack => Return tt
    | Slack.Say _ => Return tt
    | Slack.Respond _ => Return tt
    | Slack.PostMessage _ => Return {| Slack.pr_ts := Some stamp |}
    | Slack.Delete _ => Return tt
    | Slack.Query q => query stringify post service q
    end.

(** A Slack that refuses to delete and to post a result with markup. *)
Definition reluctant (q : completion thrown QueryResult) : Slack.environment :=
  fun R h c =>
    match c in Slack.call R return completion thrown R with
    | Slack.Ack => Return tt
    | Slack.Say _ => Return tt
    | Slack.Respond _ => Return tt
    | Slack.PostMessage a =>
        match Slack.pm_mrkdwn a with
        | Some true => Throw (ThrownError (lit "msg_too_long"))
        | _ => Return {| Slack.pr_ts := Some stamp |}
        end
    | Slack.Delete _ => Throw (ThrownError (lit "message_not_found"))
    | Slack.Query _ => q
    end.

Definition ascii_lower (c : code_unit) : code_unit :=
  if (N.leb 65 c && N.leb c 90)%N then (c + 32)%N else c.

(** Lower case on the letters A to Z, to run the examples. *)
Definition lower (s : js_string) : js_string := map ascii_lower s.

Definition im (text : string) : Slack.Message := {|
  Slack.m_text := Some (lit text);
  Slack.m_channel_type := Some (lit "im");
  Slack.m_subtype := None;
  Slack.m_ts := Some stamp
|}.

Definition ask (text : string) : Slack.Command := {|
  Slack.c_command := lit "/ask";
  Slack.c_text := lit text;
  Slack.c_channel_id := Some (lit "C012345")
|}.

Definition result : QueryResult := {|
  qr_summary := lit "An **important** answer.";
  qr_sources := [Examples.source "A" "https://a.example/"]
|}.

(** Tables for the defaults, to run the examples: the strings of the
    default numbers, and their values back. *)
Definition string_of (n : number) : js_string :=
  match n with
  | Fin q =>
      if Qeq_bool q 100 then lit "100"
      else if Qeq_bool q 20 then lit "20"
      else if Qeq_bool q 300 then lit "300"
      else if Qeq_bool q (5 # 10) then lit "0.5"
      else if Qeq_bool q (3 # 10) then lit "0.3"
      else if Qeq_bool q (25 # 100) then lit "0.25"
      else if Qeq_bool q (2 # 10) then lit "0.2"
      else lit "0"
  | _ => lit "NaN"
  end.

Definition parse (s : js_string) : number :=
  if str_eqb s (lit "100") then of_Z 100
  else if str_eqb s (lit "20") then of_Z 20
  else if str_eqb s (lit "300") then of_Z 300
  else if str_eqb s (lit "0.5") then decimal 5 10
  else if str_eqb s (lit "0.3") then decimal 3 10
  else if str_eqb s (lit "0.25") then decimal 25 100
  else if str_eqb s (lit "0.2") then decimal 2 10
  else NaN.

(** An environment with the three credentials only. *)
Definition credentials_only : Env.process_env :=
  fun name =>
    if str_eqb name (lit "VECTARA_API_KEY") then Some (lit "key")
    else if str_eqb name (lit "VECTARA_CORPUS_KEY") then Some (lit "corpus")
    else if str_eqb name (lit "VECTARA_CUSTOMER_ID") then Some (lit "customer")
    else None.

End Scene.

(* ================================================================== *)
(** * The order of the derived sources                                 *)
(* ================================================================== *)

Module Order.
Import Js Prompts Vectara Props.

(** The passage at position [i] of [results] survives, and no surviving
    passage before it carries its url. *)
Definition first_surviving_at (cfg : RequiredConfig)
    (results : list VectaraSearchResult) (i : nat) : Prop :=
  exists r,
    nth_error results i = Some r
    /\ survives cfg r = true
    /\ forall j r', j < i -> nth_error results j = Some r' ->
         survives cfg r' = true -> url (to_source r') <> url (to_source r).

(** [s] is the source of the passage at position [i] of [results]. *)
Definition source_at (results : list VectaraSearchResult) (i : nat)
    (s : VectaraSource) : Prop :=
  exists r, nth_error results i = Some r /\ s = to_source r.

(** [sources] lists, by increasing position, the sources of the passages
    of [results] that are the first surviving ones for their url: one
    entry for each such position, and no other entry. *)
Definition first_survivors_in_order (cfg : RequiredConfig)
    (results : list VectaraSearchResult) (sources : list VectaraSource) : Prop :=
  exists positions,
    StronglySorted lt positions
    /\ (forall i, In i positions <-> first_surviving_at cfg results i)
    /\ Forall2 (source_at results) positions sources.

(** The positions, from left to right, of the passages that survive and
    whose url is neither in [seen] nor carried by an earlier survivor. *)
Fixpoint first_positions (cfg : RequiredConfig) (seen : list js_string)
    (l : list VectaraSearchResult) : list nat :=
  match l with
  | [] => []
  | r :: l' =>
      if survives cfg r then
        if existsb (str_eqb (url (to_source r))) seen
        then map S (first_positions cfg seen l')
        else 0 :: map S (first_positions cfg (url (to_source r) :: seen) l')
      else map S (first_positions cfg seen l')
  end.

(** The title the mapping gives to the source of [r]. *)
Definition title_of (r : VectaraSearchResult) : js_string :=
  match metadata_title r with
  | Some t => t
  | None =>
      match text r with
      | Some x => firstn 100 x
      | None => lit "Untitled"
      end
  end.

(** [r] with the [excerpt] of its metadata set to [ex]. *)
Definition with_excerpt (ex : option js_string) (r : VectaraSearchResult)
    : VectaraSearchResult :=
  {| text := text r; score := score r;
     document_metadata :=
       option_map
         (fun md => {| md_title := md_title md; md_url := md_url md;
                       md_type := md_type md; md_excerpt := ex |})
         (document_metadata r) |}.

(** A passage above the cutoff with a url and an excerpt in its metadata,
    and neither a title nor a text. *)
Definition excerpt_only : VectaraSearchResult := {|
  text := None;
  score := Some (decimal 9 10);
  document_metadata :=
    Some {| md_title := None; md_url := Some (lit "https://a.example/");
            md_type := None;
            md_excerpt := Some (lit "An excerpt of the document.") |}
|}.

(** The same with a text. *)
Definition text_and_excerpt : VectaraSearchResult := {|
  text := Some (lit "The text of the passage.");
  score := Some (decimal 9 10);
  document_metadata :=
    Some {| md_title := None; md_url := Some (lit "https://a.example/");
            md_type := None;
            md_excerpt := Some (lit "An excerpt of the document.") |}
|}.

(** Three passages above the cutoff; the third repeats the first. *)
Definition repeated_results : list VectaraSearchResult :=
  [Examples.passage "A" "https://a.example/" (Some (decimal 9 10));
   Examples.passage "B" "https://b.example/" (Some (decimal 9 10));
   Examples.passage "A" "https://a.example/" (Some (decimal 9 10))].

End Order.

(* ================================================================== *)
(** * Notions used to state what [cleanupMarkdown] removes             *)
(* ================================================================== *)

Module Markup.
Import Js Aux.

(** No code unit of the text is [d]. *)
Definition free_of (d : code_unit) (s : js_string) : Prop :=
  Forall (fun c => c <> d) s.

(** No code unit of the text is a line terminator. *)
Definition one_line (s : js_string) : Prop :=
  Forall (fun c => is_line_terminator c = false) s.

(** Every code unit of the text is white space or a line terminator. *)
Definition blank (s : js_string) : Prop :=
  Forall (fun c => is_space c = true) s.

(** The text neither starts nor ends with white space. *)
Definition clean_ends (s : js_string) : Prop :=
  starts_clean s /\ starts_clean (rev s).
End Markup.

(* ================================================================== *)
(** * utils/logger.ts, and the service with its log                    *)
(* ================================================================== *)

Module Logged.
Import Js Prompts Vectara.

(** What the call sites hand to [logToFile] as [data]: the object, array
    or string built there, kept by its members. *)
Inductive log_data : Type :=
| DConfiguration (maxResults maxTokens temperature frequencyPenalty
                  presencePenalty relevanceThreshold diversityBias : number)
| DPromptArray (promptArray : json)
| DRequest (url : js_string) (headers : RequestHeaders)
           (payload : VectaraRequestPayload)
| DResponse (status : Z) (statusText : js_string) (data : option VectaraResponse)
| DResponseData (summary : option js_string)
                (search_results : field (list (option VectaraSearchResult)))
                (factual_consistency_score : option number)
| DSearchResults (search_results : option (list (option VectaraSearchResult)))
| DSources (sources : list VectaraSource)
| DOutput (summary : js_string) (sources : list VectaraSource)
| DApiError (status : option Z) (statusText : option js_string)
            (data : option json) (message : js_string)
| DText (text : js_string).

(** One call [logToFile(message, data)]. *)
Record log_call : Type := {
  lc_message : js_string;
  lc_data : log_data
}.

(** [logToFile] as the service meets it: given the calls made so far,
    whether one more call returns or throws. *)
Definition logger : Type := list log_call -> log_call -> completion thrown unit.

(** [data ? .. : ..]: objects and arrays are truthy, [null] and the empty
    string are not. *)
Definition truthy_data (d : log_data) : bool :=
  match d with
  | DSearchResults None => false
  | DText s => truthy_string s
  | _ => true
  end.

Section LogToFile.

(** The clock ([new Date().toISOString()] at the n-th call),
    [JSON.stringify(data, null, 2)] and [fs.appendFileSync(logFile, ..)]
    (the outcome of the n-th append) are the environment of the logger. *)
Variable toISOString : nat -> js_string.
Variable JSON_stringify_indented : log_data -> js_string.
Variable appendFileSync : nat -> js_string -> completion thrown unit.

(** The template literal of [logToFile]. *)
Definition logEntry (timestamp : js_string) (c : log_call) : js_string :=
  lit "[" ++ timestamp ++ lit "] " ++ lc_message c ++ [LF] ++
  (if truthy_data (lc_data c)
   then JSON_stringify_indented (lc_data c) ++ [LF]
   else []).

(** [logToFile(message, data)]: it fails when the append does. *)
Definition logToFile : logger :=
  fun before c =>
    let timestamp := toISOString (length before) in
    appendFileSync (length before) (logEntry timestamp c).

End LogToFile.

Section Service.

(** The logger, [JSON.stringify], the transport, the message the engine
    gives to the [TypeError] for a read of [member] from [null], and
    [String(error)] for a thrown value that is no [Error]. *)
Variable write_log : logger.
Variable JSON_stringify : json -> js_string.
Variable axios_post :
  js_string -> VectaraRequestPayload -> RequestHeaders ->
  completion thrown AxiosResponse.
Variable TypeError_message : js_string -> js_string.
Variable String_of : json -> js_string.

(** A computation that logs: from the calls of [logToFile] made so far to
    those made at its end, with its completion. *)
Definition logged (A : Type) : Type :=
  list log_call -> list log_call * completion thrown A.

Definition ret {A : Type} (a : A) : logged A := fun h => (h, Return a).

Definition raise {A : Type} (e : thrown) : logged A := fun h => (h, Throw e).

Definition lift {A : Type} (c : completion thrown A) : logged A := fun h => (h, c).

Definition and_then {A B : Type} (m : logged A) (f : A -> logged B) : logged B :=
  fun h =>
    match m h with
    | (h', Return a) => f a h'
    | (h', Throw e) => (h', Throw e)
    end.

(** [try { m } catch (error) { handler error }]. *)
Definition catch {A : Type} (m : logged A) (handler : thrown -> logged A)
    : logged A :=
  fun h =>
    match m h with
    | (h', Return a) => (h', Return a)
    | (h', Throw e) => handler e h'
    end.

(** A call of [logToFile]: it is made, and returns or throws as the
    logger has it. *)
Definition log_record (c : log_call) : logged unit :=
  fun h => (h ++ [c], write_log h c).

Definition log (message : js_string) (data : log_data) : logged unit :=
  log_record {| lc_message := message; lc_data := data |}.

Notation "x <- m ;; k" := (and_then m (fun x => k))
  (at level 61, m at next level, right associativity).
Notation "m ;; k" := (and_then m (fun _ => k))
  (at level 61, right associativity).

(** [constructor(config: VectaraConfig)], with the call of [logToFile]
    that ends it. *)
Definition constructor (c : VectaraConfig) : logged VectaraService :=
  let self := Vectara.constructor c in
  let cfg := config self in
  log (lit "Vectara Configuration")
      (DConfiguration (r_maxResults cfg) (r_maxTokens cfg) (r_temperature cfg)
         (r_frequencyPenalty cfg) (r_presencePenalty cfg)
         (r_relevanceThreshold cfg) (r_diversityBias cfg)) ;;
  ret self.

Definition redacted : js_string := lit "***redacted***".

(** [{ ...headers, 'x-api-key': '***redacted***' }]. *)
Definition redact_headers (headers : RequestHeaders) : RequestHeaders :=
  {| x_api_key := redacted; content_type := content_type headers |}.

(** [{ ...payload, generation: { ...payload.generation,
       prompt_template: '***redacted***' } }]. *)
Definition redact_payload (payload : VectaraRequestPayload)
    (generation : VectaraGeneration) : VectaraRequestPayload :=
  {| p_query := p_query payload;
     p_search := p_search payload;
     p_generation :=
       Some {| generation_preset_name := generation_preset_name generation;
               prompt_template := redacted;
               max_used_search_results := max_used_search_results generation;
               max_response_characters := max_response_characters generation;
               response_language := response_language generation;
               model_parameters := model_parameters generation;
               citations := citations generation |} |}.

(** The call of [logToFile] the [catch] block of [query] makes for what it
    caught. *)
Definition error_record (error : thrown) : log_call :=
  match error with
  | ThrownAxiosError e =>
      {| lc_message := lit "Vectara API Error";
         lc_data :=
           DApiError (option_map e_status (ae_response e))
                     (option_map e_statusText (ae_response e))
                     (option_map e_data (ae_response e))
                     (ae_message e) |}
  | ThrownError message =>
      {| lc_message := lit "Vectara Error"; lc_data := DText message |}
  | ThrownTypeError member =>
      {| lc_message := lit "Vectara Error";
         lc_data := DText (TypeError_message member) |}
  | ThrownValue v =>
      {| lc_message := lit "Unknown Vectara Error";
         lc_data := DText (String_of v) |}
  end.

(** The body of the [try] block after the [await]. *)
Definition after_response (cfg : RequiredConfig) (response : AxiosResponse)
    : logged QueryResult :=
  log (lit "Vectara Response")
      (DResponse (status response) (statusText response) (data response)) ;;
  match data response with
  | None => raise (ThrownTypeError (lit "field_errors"))
  | Some d =>
      if truthy_array (field_errors d) || truthy_array (messages d) then
        raise (ThrownError
                 (lit "Invalid response from Vectara: " ++
                  JSON_stringify (errors_or_messages d)))
      else
        log (lit "Vectara Response Data")
            (DResponseData (summary d) (search_results d)
               (factual_consistency_score d)) ;;
        match summary d with
        | Some (c :: s) =>
            let results := destructured (search_results d) [] in
            log (lit "Search Results") (DSearchResults results) ;;
            sources <- lift (sources_of cfg results) ;;
            log (lit "Processed Sources") (DSources sources) ;;
            log (lit "Output") (DOutput (c :: s) sources) ;;
            ret {| qr_summary := c :: s; qr_sources := sources |}
        | Some [] | None =>
            raise (ThrownError (lit "No summary in Vectara response"))
        end
  end.

(** [async query(question)], with its calls of [logToFile].  A call that
    throws inside the [try] block is caught like any other failure; one
    that throws inside the [catch] block ends [query] in place of
    [throw error].  The request interceptor registered on [axios] runs
    inside [axios.post]: its two log calls are part of the transport
    here, which fails with what they throw. *)
Definition query (self : VectaraService) (question : js_string)
    : logged QueryResult :=
  let cfg := config self in
  catch
    (log (lit "Prompt Array") (DPromptArray (promptArray cfg question)) ;;
     let generation := build_generation JSON_stringify cfg question in
     let headers := build_headers cfg in
     let payload := build_payload JSON_stringify cfg question in
     log (lit "Vectara Request")
         (DRequest (apiUrl self) (redact_headers headers)
            (redact_payload payload generation)) ;;
     response <- lift (axios_post (apiUrl self) payload headers) ;;
     after_response cfg response)
    (fun error =>
       log_record (error_record error) ;;
       raise error).

End Service.

(** A logger whose every call succeeds, and one whose calls with the
    message [message] fail with [e]. *)
Definition writable : logger := fun _ _ => Return tt.

Definition failing_on (message : js_string) (e : thrown) : logger :=
  fun _ c => if str_eqb (lc_message c) message then Throw e else Return tt.

End Logged.

Import Js Prompts Vectara App Props Aux Order Markup.

(* ================================================================== *)
(** * Strings and numbers                                              *)
(* ================================================================== *)

Lemma str_eqb_refl (a : js_string) : str_eqb a a = true.
Proof.
  induction a as [|x a IH]; simpl; [reflexivity|].
  now rewrite N.eqb_refl, IH.
Qed.

Lemma str_eqb_eq (a b : js_string) : str_eqb a b = true <-> a = b.
Proof.
  split.
  - revert b; induction a as [|x a IH]; intros [|y b] H; simpl in H;
      try discriminate; [reflexivity|].
    apply andb_true_iff in H as [Hx Hab].
    apply N.eqb_eq in Hx. f_equal; [exact Hx | now apply IH].
  - intros ->. apply str_eqb_refl.
Qed.

Lemma str_eqb_neq (a b : js_string) : str_eqb a b = false <-> a <> b.
Proof.
  rewrite <- str_eqb_eq. destruct (str_eqb a b); split; congruence.
Qed.

Lemma str_eqb_sym (a b : js_string) : str_eqb a b = str_eqb b a.
Proof.
  destruct (str_eqb a b) eqn:E.
  - apply str_eqb_eq in E. subst. symmetry. apply str_eqb_refl.
  - symmetry. apply str_eqb_neq. apply str_eqb_neq in E. congruence.
Qed.

Lemma truthy_string_false (s : js_string) : truthy_string s = false <-> s = [].
Proof. destruct s; simpl; split; congruence. Qed.

(** A number below the cutoff fails the test [>=]. *)
Lemma below_not_geb (a b : number) : below a b -> geb a b = false.
Proof.
  destruct a as [| |x|], b as [| |y|]; simpl; try tauto; try reflexivity.
  intros H. destruct (Qle_bool y x) eqn:E; [|reflexivity].
  apply Qle_bool_iff in E. exfalso. exact (Qlt_not_le _ _ H E).
Qed.

(** The cutoff [query] compares with is the one of the configuration: the
    fallback [?? 0.2] never applies. *)
Lemma passes_cutoff_eq (cfg : RequiredConfig) (r : VectaraSearchResult) :
  passes_cutoff cfg r =
  geb (match score r with Some x => x | None => of_Z 0 end) (r_relevanceThreshold cfg).
Proof. reflexivity. Qed.

(* ================================================================== *)
(** * Subsequences                                                     *)
(* ================================================================== *)

Lemma Subsequence_refl {A : Type} (l : list A) : Subsequence l l.
Proof.
  induction l; [apply Subsequence_nil | apply Subsequence_keep; assumption].
Qed.

Lemma Subsequence_filter {A : Type} (f : A -> bool) (l : list A) :
  Subsequence (filter f l) l.
Proof.
  induction l as [|x l IH]; simpl; [constructor|].
  destruct (f x); [apply Subsequence_keep | apply Subsequence_skip]; exact IH.
Qed.

Lemma Subsequence_In {A : Type} (l1 l2 : list A) :
  Subsequence l1 l2 -> forall x, In x l1 -> In x l2.
Proof.
  induction 1 as [|x l1 l2 _ IH|x l1 l2 _ IH]; intros y Hy.
  - exact Hy.
  - right. now apply IH.
  - destruct Hy as [->|Hy]; [now left | right; now apply IH].
Qed.

Lemma Subsequence_trans {A : Type} (l1 l2 l3 : list A) :
  Subsequence l1 l2 -> Subsequence l2 l3 -> Subsequence l1 l3.
Proof.
  intros H12 H23. revert l1 H12.
  induction H23 as [|x l2 l3 _ IH|x l2 l3 _ IH]; intros l1 H12.
  - exact H12.
  - constructor. now apply IH.
  - inversion H12; subst.
    + apply Subsequence_skip. now apply IH.
    + apply Subsequence_keep. now apply IH.
Qed.

(** A subsequence of an image is the image of a subsequence. *)
Lemma Subsequence_map_inv {A B : Type} (f : A -> B) (l : list A) (m : list B) :
  Subsequence m (map f l) -> exists l', Subsequence l' l /\ m = map f l'.
Proof.
  revert m. induction l as [|x l IH]; intros m H; simpl in H.
  - inversion H; subst. exists []. split; constructor.
  - inversion H; subst.
    + destruct (IH _ H2) as (l' & Hl' & ->).
      exists l'. split; [now apply Subsequence_skip | reflexivity].
    + destruct (IH _ H2) as (l' & Hl' & ->).
      exists (x :: l'). split; [now apply Subsequence_keep | reflexivity].
Qed.

(* ================================================================== *)
(** * The derivation of sources                                        *)
(* ================================================================== *)

(** The two filters and the map of [derive_sources] yield the sources of
    the surviving passages. *)
Lemma filter_map_filter_candidates cfg results :
  filter (fun s => truthy_string (url s))
    (map to_source (filter (passes_cutoff cfg) results))
  = candidates cfg results.
Proof.
  unfold candidates, survives.
  induction results as [|r l IH]; [reflexivity|].
  cbn [filter]. destruct (passes_cutoff cfg r); cbn [andb map filter]; [|exact IH].
  destruct (truthy_string (url (to_source r))); cbn [map]; now rewrite IH.
Qed.

Lemma existsb_seen (u : js_string) (acc : list VectaraSource) :
  existsb (fun s => str_eqb (url s) u) acc = existsb (str_eqb u) (map url acc).
Proof.
  induction acc as [|a acc IH]; simpl; [reflexivity|].
  now rewrite IH, (str_eqb_sym (url a) u).
Qed.

Lemma existsb_seen_In (u : js_string) (seen : list js_string) :
  existsb (str_eqb u) seen = true <-> In u seen.
Proof.
  rewrite existsb_exists. split.
  - intros (v & Hv & E). apply str_eqb_eq in E. now subst.
  - intros H. exists u. split; [exact H | apply str_eqb_refl].
Qed.

(** [dedup_by_url] looks at [seen] only through membership. *)
Lemma dedup_by_url_ext (l : list VectaraSource) :
  forall seen seen',
    (forall u, In u seen <-> In u seen') ->
    dedup_by_url seen l = dedup_by_url seen' l.
Proof.
  induction l as [|s l IH]; intros seen seen' H; simpl; [reflexivity|].
  assert (E : existsb (str_eqb (url s)) seen = existsb (str_eqb (url s)) seen').
  { destruct (existsb (str_eqb (url s)) seen) eqn:E1;
      destruct (existsb (str_eqb (url s)) seen') eqn:E2; try reflexivity.
    - apply existsb_seen_In, H, existsb_seen_In in E1. congruence.
    - apply existsb_seen_In, H, existsb_seen_In in E2. congruence. }
  rewrite <- E. destruct (existsb (str_eqb (url s)) seen).
  - now apply IH.
  - f_equal. apply IH. intros u. simpl. now rewrite H.
Qed.

(** The [reduce] of the source computes [dedup_by_url]. *)
Lemma fold_dedup_step (l : list VectaraSource) :
  forall acc,
    fold_left dedup_step l acc = acc ++ dedup_by_url (map url acc) l.
Proof.
  induction l as [|s l IH]; intros acc; simpl.
  - now rewrite app_nil_r.
  - rewrite IH. unfold dedup_step. rewrite existsb_seen.
    destruct (existsb (str_eqb (url s)) (map url acc)); simpl.
    + reflexivity.
    + rewrite <- app_assoc. simpl. do 2 f_equal.
      apply dedup_by_url_ext. intros u.
      rewrite map_app, in_app_iff. simpl. tauto.
Qed.

Lemma derive_sources_dedup cfg results :
  derive_sources cfg results = dedup_by_url [] (candidates cfg results).
Proof.
  unfold derive_sources.
  now rewrite filter_map_filter_candidates, fold_dedup_step.
Qed.

Lemma dedup_by_url_In (l : list VectaraSource) :
  forall seen s, In s (dedup_by_url seen l) -> In s l /\ ~ In (url s) seen.
Proof.
  induction l as [|a l IH]; intros seen s H; simpl in H; [contradiction|].
  destruct (existsb (str_eqb (url a)) seen) eqn:E.
  - destruct (IH _ _ H). split; [now right | assumption].
  - destruct H as [->|H].
    + split; [now left|]. intros Hin.
      apply existsb_seen_In in Hin. congruence.
    + destruct (IH _ _ H) as [Hl Hs]. split; [now right|].
      intros Hin. apply Hs. now right.
Qed.

Lemma dedup_by_url_NoDup (l : list VectaraSource) :
  forall seen, NoDup (map url (dedup_by_url seen l)).
Proof.
  induction l as [|a l IH]; intros seen; simpl; [constructor|].
  destruct (existsb (str_eqb (url a)) seen); [apply IH|].
  simpl. constructor; [|apply IH].
  intros Hin. apply in_map_iff in Hin as (t & Ht & Hin).
  apply dedup_by_url_In in Hin as [_ Hn]. apply Hn. left. now symmetry.
Qed.

Lemma dedup_by_url_Subsequence (l : list VectaraSource) :
  forall seen, Subsequence (dedup_by_url seen l) l.
Proof.
  induction l as [|a l IH]; intros seen; simpl; [constructor|].
  destruct (existsb (str_eqb (url a)) seen);
    [apply Subsequence_skip | apply Subsequence_keep]; apply IH.
Qed.

Lemma with_url_none (u : js_string) (l : list VectaraSource) :
  (forall s, In s l -> url s <> u) -> with_url u l = [].
Proof.
  unfold with_url. induction l as [|a l IH]; intros H; simpl; [reflexivity|].
  destruct (str_eqb (url a) u) eqn:E.
  - apply str_eqb_eq in E. exfalso. apply (H a); [now left | exact E].
  - apply IH. intros s Hs. apply H. now right.
Qed.

(** The first entry of [l] with a url not yet seen is the one entry of the
    result with that url. *)
Lemma dedup_by_url_first (l1 : list VectaraSource) :
  forall seen s l2,
    ~ In (url s) (map url l1) -> ~ In (url s) seen ->
    with_url (url s) (dedup_by_url seen (l1 ++ s :: l2)) = [s].
Proof.
  induction l1 as [|a l1 IH]; intros seen s l2 Hl1 Hseen; simpl.
  - destruct (existsb (str_eqb (url s)) seen) eqn:E.
    + apply existsb_seen_In in E. contradiction.
    + unfold with_url. simpl. rewrite str_eqb_refl. f_equal.
      apply with_url_none. intros t Ht.
      apply dedup_by_url_In in Ht as [_ Hn]. intros Eu. apply Hn. now left.
  - simpl in Hl1.
    destruct (existsb (str_eqb (url a)) seen).
    + apply IH; tauto.
    + unfold with_url. simpl.
      destruct (str_eqb (url a) (url s)) eqn:E.
      * apply str_eqb_eq in E. tauto.
      * apply IH; [tauto|]. simpl. intros [H|H]; [|contradiction].
        apply Hl1. now left.
Qed.

(** Every url among the candidates is among the result. *)
Lemma dedup_by_url_complete (l : list VectaraSource) :
  forall seen s, In s l -> ~ In (url s) seen ->
    In (url s) (map url (dedup_by_url seen l)).
Proof.
  induction l as [|a l IH]; intros seen s Hin Hseen; [contradiction|].
  simpl. destruct (existsb (str_eqb (url a)) seen) eqn:E.
  - destruct Hin as [->|Hin]; [|now apply IH].
    apply existsb_seen_In in E. contradiction.
  - simpl. destruct Hin as [->|Hin]; [now left|].
    destruct (str_eqb (url a) (url s)) eqn:Eu.
    + apply str_eqb_eq in Eu. now left.
    + right. apply IH; [exact Hin|].
      intros [H|H]; [|contradiction].
      apply str_eqb_neq in Eu. contradiction.
Qed.

Lemma candidates_In cfg results s :
  In s (candidates cfg results) <->
  exists r, In r results /\ survives cfg r = true /\ s = to_source r.
Proof.
  unfold candidates. rewrite in_map_iff. split.
  - intros (r & <- & Hr). apply filter_In in Hr as [Hr Hs]. eauto.
  - intros (r & Hr & Hs & ->). exists r. split; [reflexivity|].
    apply filter_In. now split.
Qed.

Lemma candidates_app cfg l1 l2 :
  candidates cfg (l1 ++ l2) = candidates cfg l1 ++ candidates cfg l2.
Proof. unfold candidates. now rewrite filter_app, map_app. Qed.

(** The positions of the first survivors: the sources read at them are the
    deduplicated candidates, they increase, and they are the positions of
    the passages that survive with a url not met before. *)
Lemma source_at_shift r l idx out :
  Forall2 (source_at l) idx out ->
  Forall2 (source_at (r :: l)) (map S idx) out.
Proof.
  induction 1 as [|i s idx out (x & Hx & ->) _ IH]; simpl; constructor.
  - exists x. split; [exact Hx|reflexivity].
  - exact IH.
Qed.

Lemma first_positions_sources cfg l :
  forall seen,
    Forall2 (source_at l) (first_positions cfg seen l)
      (dedup_by_url seen (candidates cfg l)).
Proof.
  induction l as [|r l IH]; intros seen; [constructor|].
  unfold candidates. cbn [filter first_positions].
  destruct (survives cfg r); [|apply source_at_shift, IH].
  cbn [map dedup_by_url].
  destruct (existsb (str_eqb (url (to_source r))) seen);
    [apply source_at_shift, IH|].
  constructor; [|apply source_at_shift, IH].
  exists r. split; reflexivity.
Qed.

Lemma first_positions_sorted cfg l :
  forall seen, StronglySorted lt (first_positions cfg seen l).
Proof.
  assert (Hs : forall idx, StronglySorted lt idx -> StronglySorted lt (map S idx)).
  { induction 1 as [|i idx _ IH Hall]; simpl; constructor; [exact IH|].
    apply Forall_map. eapply Forall_impl; [|exact Hall]. intros; lia. }
  induction l as [|r l IH]; intros seen; cbn [first_positions]; [constructor|].
  destruct (survives cfg r); [|apply Hs, IH].
  destruct (existsb (str_eqb (url (to_source r))) seen); [apply Hs, IH|].
  constructor; [apply Hs, IH|].
  apply Forall_map, Forall_forall. intros; lia.
Qed.

Lemma first_positions_In cfg l :
  forall seen i,
    In i (first_positions cfg seen l) <->
    exists r,
      nth_error l i = Some r
      /\ survives cfg r = true
      /\ ~ In (url (to_source r)) seen
      /\ forall j r', j < i -> nth_error l j = Some r' ->
           survives cfg r' = true -> url (to_source r') <> url (to_source r).
Proof.
  assert (HS : forall idx i, In i (map S idx) <-> exists i', i = S i' /\ In i' idx).
  { intros idx i. rewrite in_map_iff. split; intros (x & H1 & H2); eauto. }
  induction l as [|r0 l IH]; intros seen i.
  { simpl. split; [contradiction|]. intros (r & H & _). destruct i; discriminate. }
  cbn [first_positions].
  destruct (survives cfg r0) eqn:Hs0.
  - destruct (existsb (str_eqb (url (to_source r0))) seen) eqn:Hseen.
    + apply existsb_seen_In in Hseen. rewrite HS. split.
      * intros (i' & -> & Hin). apply IH in Hin as (r & Hn & Hs & Hns & Hfirst).
        exists r. repeat split; try assumption.
        intros [|j] r' Hj Hn' Hs'.
        { injection Hn' as <-. intros E. apply Hns. now rewrite <- E. }
        apply (Hfirst j r'); [lia|exact Hn'|exact Hs'].
      * intros (r & Hn & Hs & Hns & Hfirst). destruct i as [|i'].
        { injection Hn as <-. contradiction. }
        exists i'. split; [reflexivity|]. apply IH.
        exists r. repeat split; try assumption.
        intros j r' Hj Hn'. apply (Hfirst (S j) r'); [lia|exact Hn'].
    + assert (Hns0 : ~ In (url (to_source r0)) seen).
      { intros H. apply existsb_seen_In in H. congruence. }
      cbn [In]. rewrite HS. split.
      * intros [<-|(i' & -> & Hin)].
        { exists r0. repeat split; try assumption. intros j r' Hj. lia. }
        apply IH in Hin as (r & Hn & Hs & Hns & Hfirst).
        exists r. repeat split; try assumption.
        { intros H. apply Hns. now right. }
        intros [|j] r' Hj Hn' Hs'.
        { injection Hn' as <-. intros E. apply Hns. now left. }
        apply (Hfirst j r'); [lia|exact Hn'|exact Hs'].
      * intros (r & Hn & Hs & Hns & Hfirst). destruct i as [|i']; [now left|].
        right. exists i'. split; [reflexivity|]. apply IH.
        exists r. repeat split; try assumption.
        { intros [E|H]; [|contradiction].
          apply (Hfirst 0 r0); [lia|reflexivity|exact Hs0|exact E]. }
        intros j r' Hj Hn'. apply (Hfirst (S j) r'); [lia|exact Hn'].
  - rewrite HS. split.
    + intros (i' & -> & Hin). apply IH in Hin as (r & Hn & Hs & Hns & Hfirst).
      exists r. repeat split; try assumption.
      intros [|j] r' Hj Hn' Hs'.
      { injection Hn' as <-. congruence. }
      apply (Hfirst j r'); [lia|exact Hn'|exact Hs'].
    + intros (r & Hn & Hs & Hns & Hfirst). destruct i as [|i'].
      { injection Hn as <-. congruence. }
      exists i'. split; [reflexivity|]. apply IH.
      exists r. repeat split; try assumption.
      intros j r' Hj Hn'. apply (Hfirst (S j) r'); [lia|exact Hn'].
Qed.

(** The derived sources list the first survivors in order. *)
Lemma derive_sources_in_order cfg results :
  first_survivors_in_order cfg results (derive_sources cfg results).
Proof.
  exists (first_positions cfg [] results). split; [|split].
  - apply first_positions_sorted.
  - intros i. rewrite first_positions_In. unfold first_surviving_at.
    split.
    + intros (r & Hn & Hs & _ & Hf). exists r. auto.
    + intros (r & Hn & Hs & Hf). exists r.
      split; [exact Hn|]. split; [exact Hs|]. split; [intros []|exact Hf].
  - rewrite derive_sources_dedup. apply first_positions_sources.
Qed.

(** Two increasing lists with the same members are the same list. *)
Lemma sorted_same_members (a : list nat) :
  forall b,
    StronglySorted lt a -> StronglySorted lt b ->
    (forall i, In i a <-> In i b) -> a = b.
Proof.
  induction a as [|x a IH]; intros b Ha Hb Hab.
  - destruct b as [|y b]; [reflexivity|].
    exfalso. apply (Hab y). now left.
  - destruct b as [|y b]; [exfalso; apply (Hab x); now left|].
    apply StronglySorted_inv in Ha as [Ha Hxa].
    apply StronglySorted_inv in Hb as [Hb Hyb].
    rewrite Forall_forall in Hxa, Hyb.
    assert (x = y).
    { destruct (proj1 (Hab x) (or_introl eq_refl)) as [E|Hx]; [now symmetry|].
      destruct (proj2 (Hab y) (or_introl eq_refl)) as [E|Hy]; [exact E|].
      specialize (Hxa _ Hy). specialize (Hyb _ Hx). lia. }
    subst y. f_equal. apply IH; try assumption.
    intros i. split; intros Hi.
    + destruct (proj1 (Hab i) (or_intror Hi)) as [E|H]; [|exact H].
      specialize (Hxa _ Hi). lia.
    + destruct (proj2 (Hab i) (or_intror Hi)) as [E|H]; [|exact H].
      specialize (Hyb _ Hi). lia.
Qed.

Lemma source_at_functional results positions :
  forall a b,
    Forall2 (source_at results) positions a ->
    Forall2 (source_at results) positions b -> a = b.
Proof.
  induction positions as [|i positions IH]; intros a b Ha Hb;
    inversion Ha; inversion Hb; subst; [reflexivity|].
  f_equal; [|now apply IH].
  match goal with
  | H1 : source_at _ _ _, H2 : source_at _ _ _ |- _ =>
      destruct H1 as (r1 & E1 & ->); destruct H2 as (r2 & E2 & ->)
  end.
  congruence.
Qed.

Lemma first_survivors_unique cfg results a b :
  first_survivors_in_order cfg results a ->
  first_survivors_in_order cfg results b -> a = b.
Proof.
  intros (pa & Sa & Ma & Fa) (pb & Sb & Mb & Fb).
  assert (pa = pb).
  { apply sorted_same_members; try assumption.
    intros i. now rewrite Ma, Mb. }
  subst pb. eapply source_at_functional; eassumption.
Qed.

Lemma Forall2_In_left {A B : Type} (P : A -> B -> Prop) (a : list A) (b : list B) :
  Forall2 P a b -> forall x, In x a -> exists y, In y b /\ P x y.
Proof.
  induction 1 as [|x0 y0 a b H0 _ IH]; intros x Hx; [contradiction|].
  destruct Hx as [<-|Hx].
  - exists y0. split; [now left|exact H0].
  - destruct (IH x Hx) as (y & Hy & Hp). exists y. split; [now right|exact Hp].
Qed.

(** The passage that is the first survivor for its url has its source
    among the derived ones. *)
Lemma first_survivor_In cfg results i r :
  nth_error results i = Some r ->
  first_surviving_at cfg results i ->
  In (to_source r) (derive_sources cfg results).
Proof.
  intros Hn Hfirst.
  destruct (derive_sources_in_order cfg results) as (positions & _ & Hm & Hf).
  apply Hm in Hfirst.
  destruct (Forall2_In_left _ _ _ Hf i Hfirst) as (s & Hs & r' & Hn' & ->).
  congruence.
Qed.

Lemma title_of_to_source r : title (to_source r) = title_of r.
Proof.
  unfold to_source, title_of, metadata_title. cbn [title].
  destruct (match document_metadata r with Some md => md_title md | None => None end);
    [reflexivity|].
  destruct (text r); reflexivity.
Qed.

(** C2, as stated, fails: with the default cutoff 0.25, the first passage
    for [https://a.example/] (title A, score 0.1) is filtered out before
    the deduplication, so the entry for that url carries the title C of a
    later passage, and it comes after the entry for [https://b.example/],
    which occurs later in the remote list. *)
Lemma first_occurrence_counterexample :
  derive_sources (config Examples.service) Examples.shadowed_results
    = [Examples.source "B" "https://b.example/";
       Examples.source "C" "https://a.example/"]
  /\ with_url (lit "https://a.example/")
       (derive_sources (config Examples.service) Examples.shadowed_results)
     <> [to_source (Examples.passage "A" "https://a.example/" (Some (decimal 1 10)))].
Proof.
  split; [reflexivity|].
  vm_compute. discriminate.
Qed.

(** C2, amended: the derived sources are the sources of the passages that
    are the first surviving ones for their url (score at or above the
    cutoff, non-empty url, no surviving passage with that url before), one
    entry for each, by increasing position in the remote result list, and
    this fixes the list; no url occurs twice and every surviving url is
    present; the one entry for a url is the source of the first surviving
    passage that carries it, so it has that passage's title. *)
Theorem derive_sources_first_surviving
    (cfg : RequiredConfig) (results : list VectaraSearchResult) :
  let out := derive_sources cfg results in
  first_survivors_in_order cfg results out
  /\ (forall sources, first_survivors_in_order cfg results sources -> sources = out)
  /\ NoDup (map url out)
  /\ (exists kept,
        Subsequence kept results
        /\ Forall (fun r => survives cfg r = true) kept
        /\ out = map to_source kept)
  /\ (forall r, In r results -> survives cfg r = true ->
        In (url (to_source r)) (map url out))
  /\ (forall l1 r l2,
        results = l1 ++ r :: l2 ->
        survives cfg r = true ->
        (forall r', In r' l1 -> survives cfg r' = true ->
                    url (to_source r') <> url (to_source r)) ->
        with_url (url (to_source r)) out = [to_source r]).
Proof.
  cbv zeta.
  split; [apply derive_sources_in_order|].
  split.
  { intros sources H. eapply first_survivors_unique; [exact H|].
    apply derive_sources_in_order. }
  rewrite derive_sources_dedup. repeat split.
  - apply dedup_by_url_NoDup.
  - pose proof (dedup_by_url_Subsequence (candidates cfg results) []) as H.
    unfold candidates in H at 2.
    apply Subsequence_map_inv in H as (kept & Hk & E).
    exists kept. repeat split.
    + eapply Subsequence_trans; [exact Hk | apply Subsequence_filter].
    + apply Forall_forall. intros r Hr.
      apply (Subsequence_In _ _ Hk) in Hr. now apply filter_In in Hr.
    + exact E.
  - intros r Hr Hs. apply dedup_by_url_complete; [|intros []].
    apply candidates_In. eauto.
  - intros l1 r l2 -> Hs Hfirst.
    rewrite candidates_app. unfold candidates at 2. cbn [filter].
    rewrite Hs. cbn [map].
    apply dedup_by_url_first; [|intros []].
    intros Hin. apply in_map_iff in Hin as (t & Et & Ht).
    apply candidates_In in Ht as (r' & Hr' & Hs' & ->).
    exact (Hfirst r' Hr' Hs' Et).
Qed.

(** Two surviving passages share a url: one entry, with the first title. *)
Lemma derive_sources_first_surviving_witness :
  with_url (lit "https://a.example/")
    (derive_sources (config Examples.service) Examples.twin_results)
  = [Examples.source "A" "https://a.example/"].
Proof.
  apply (proj2 (proj2 (proj2 (proj2 (proj2
           (derive_sources_first_surviving (config Examples.service)
              Examples.twin_results)))))
         [] (Examples.passage "A" "https://a.example/" (Some (decimal 9 10)))
         [Examples.passage "B" "https://a.example/" (Some (decimal 8 10))]).
  - reflexivity.
  - reflexivity.
  - intros r' [].
Defined.

(** A passage met again after another one keeps its place: the entries
    come in the order of the first surviving passages. *)
Example derive_sources_repeated :
  derive_sources (config Examples.service) repeated_results
  = [Examples.source "A" "https://a.example/";
     Examples.source "B" "https://b.example/"].
Proof. reflexivity. Qed.

(** The same two entries in the other order are not the first survivors
    in order. *)
Example derive_sources_repeated_order :
  ~ first_survivors_in_order (config Examples.service) repeated_results
      [Examples.source "B" "https://b.example/";
       Examples.source "A" "https://a.example/"].
Proof.
  intros H.
  pose proof (first_survivors_unique _ _ _ _ H
                (derive_sources_in_order (config Examples.service)
                   repeated_results)) as E.
  discriminate E.
Qed.

(** The source of a passage reads its text and the title and url of its
    metadata; the [type] and [excerpt] members of the metadata and the
    score play no part. *)
Lemma to_source_reads (r : VectaraSearchResult) (sc : option number)
    (md : DocumentMetadata) (ty ex : option js_string) :
  document_metadata r = Some md ->
  to_source
    {| text := text r; score := sc;
       document_metadata :=
         Some {| md_title := md_title md; md_url := md_url md;
                 md_type := ty; md_excerpt := ex |} |}
  = to_source r.
Proof. intros H. unfold to_source. cbn. now rewrite H. Qed.

(** C3, as stated, fails: the fallback for a missing title reads the text
    of the passage, not the excerpt of its metadata.  A surviving passage
    with an excerpt and neither title nor text is titled "Untitled", and
    one with a text and an excerpt is titled with the text. *)
Lemma excerpt_counterexample :
  md_excerpt
    {| md_title := None; md_url := Some (lit "https://a.example/");
       md_type := None; md_excerpt := Some (lit "An excerpt of the document.") |}
  = Some (lit "An excerpt of the document.")
  /\ derive_sources (config Examples.service) [excerpt_only]
     = [{| title := lit "Untitled"; url := lit "https://a.example/" |}]
  /\ derive_sources (config Examples.service) [text_and_excerpt]
     = [{| title := lit "The text of the passage.";
           url := lit "https://a.example/" |}].
Proof. repeat split. Qed.

(** C3, amended: every passage that is the first surviving one for its url
    yields a derived source with its url and with, as title, the metadata
    title when there is one, otherwise the first 100 code units of the
    text of the passage, and "Untitled" when both are absent; the excerpt
    of the metadata plays no part.  Every derived source comes from a
    passage that passed the score filter, has the title so chosen, and
    none has an empty url. *)
Theorem source_title_and_url
    (cfg : RequiredConfig) (results : list VectaraSearchResult) :
  let out := derive_sources cfg results in
  (forall i r, nth_error results i = Some r -> first_surviving_at cfg results i ->
     In {| title :=
             match metadata_title r with
             | Some t => t
             | None =>
                 match text r with
                 | Some x => firstn 100 x
                 | None => lit "Untitled"
                 end
             end;
           url := url (to_source r) |} out)
  /\ (forall r, In r results -> survives cfg r = true ->
        exists s, In s out /\ url s = url (to_source r))
  /\ (forall s, In s out ->
        url s <> []
        /\ exists r, In r results /\ passes_cutoff cfg r = true
                     /\ url s = url (to_source r) /\ title s = title_of r)
  /\ (forall r, In r results -> url (to_source r) = [] ->
        ~ In (to_source r) out)
  /\ (forall r t, metadata_title r = Some t -> title (to_source r) = t)
  /\ (forall r x, metadata_title r = None -> text r = Some x ->
        title (to_source r) = firstn 100 x)
  /\ (forall r, metadata_title r = None -> text r = None ->
        title (to_source r) = lit "Untitled")
  /\ (forall r ex, to_source (with_excerpt ex r) = to_source r).
Proof.
  cbv zeta.
  assert (Hsrc : forall s, In s (derive_sources cfg results) ->
            url s <> []
            /\ exists r, In r results /\ passes_cutoff cfg r = true /\ s = to_source r).
  { intros s Hs. rewrite derive_sources_dedup in Hs.
    apply dedup_by_url_In in Hs as [Hs _].
    apply candidates_In in Hs as (r & Hr & Hsv & ->).
    unfold survives in Hsv. apply andb_true_iff in Hsv as [Hp Hu].
    split; [|eauto].
    intros E. apply truthy_string_false in E. congruence. }
  repeat match goal with |- _ /\ _ => split end.
  - intros i r Hn Hfirst.
    pose proof (first_survivor_In cfg results i r Hn Hfirst) as Hin.
    replace (to_source r)
      with {| title := title_of r; url := url (to_source r) |} in Hin
      by (rewrite <- title_of_to_source; now destruct (to_source r)).
    exact Hin.
  - intros r Hr Hs.
    assert (Hu : In (url (to_source r))
                   (map url (dedup_by_url [] (candidates cfg results)))).
    { apply dedup_by_url_complete; [|intros []]. apply candidates_In. eauto. }
    rewrite <- derive_sources_dedup in Hu.
    apply in_map_iff in Hu as (s & Es & Hs'). eauto.
  - intros s Hs. destruct (Hsrc s Hs) as (Hn & r & Hr & Hp & ->).
    split; [exact Hn|]. exists r. repeat split; try assumption.
    apply title_of_to_source.
  - intros r _ E Hin. apply Hsrc in Hin as [Hn _]. contradiction.
  - intros r t H. unfold to_source, metadata_title in *. cbn [title].
    now rewrite H.
  - intros r x H Hx. unfold to_source, metadata_title in *. cbn [title].
    now rewrite H, Hx.
  - intros r H Hx. unfold to_source, metadata_title in *. cbn [title].
    now rewrite H, Hx.
  - intros r ex. unfold to_source, with_excerpt.
    cbn [text document_metadata].
    destruct (document_metadata r); reflexivity.
Qed.

(** The one passage of the list survives and has no title: its source is
    derived, with the text as title. *)
Lemma source_title_and_url_witness :
  In {| title := lit "The text of the passage."; url := lit "https://a.example/" |}
     (derive_sources (config Examples.service) [text_and_excerpt]).
Proof.
  apply (proj1 (source_title_and_url (config Examples.service) [text_and_excerpt])
           0 text_and_excerpt eq_refl).
  exists text_and_excerpt. split; [reflexivity|]. split; [reflexivity|].
  intros j r' Hj. inversion Hj.
Defined.

(** C4: a passage whose score is below the configured cutoff contributes
    nothing to the derived sources (the result is the same without it), a
    passage without a score is excluded whenever 0 is below the cutoff, and
    it is treated exactly like the same passage with score 0. *)
Theorem below_cutoff_excluded
    (cfg : RequiredConfig) (l1 l2 : list VectaraSearchResult)
    (r : VectaraSearchResult) :
  (forall x, score r = Some x -> below x (r_relevanceThreshold cfg) ->
     derive_sources cfg (l1 ++ r :: l2) = derive_sources cfg (l1 ++ l2))
  /\ (score r = None -> below (of_Z 0) (r_relevanceThreshold cfg) ->
     derive_sources cfg (l1 ++ r :: l2) = derive_sources cfg (l1 ++ l2))
  /\ derive_sources cfg (l1 ++ with_score None r :: l2)
     = derive_sources cfg (l1 ++ with_score (Some (of_Z 0)) r :: l2).
Proof.
  assert (Hdrop : passes_cutoff cfg r = false ->
            derive_sources cfg (l1 ++ r :: l2) = derive_sources cfg (l1 ++ l2)).
  { intros H. unfold derive_sources.
    rewrite !filter_app. cbn [filter]. now rewrite H. }
  repeat split.
  - intros x Hx Hb. apply Hdrop. rewrite passes_cutoff_eq, Hx.
    now apply below_not_geb.
  - intros Hx Hb. apply Hdrop. rewrite passes_cutoff_eq, Hx.
    now apply below_not_geb.
  - unfold derive_sources. rewrite !filter_app. cbn [filter].
    change (passes_cutoff cfg (with_score None r))
      with (passes_cutoff cfg (with_score (Some (of_Z 0)) r)).
    destruct (passes_cutoff cfg (with_score (Some (of_Z 0)) r)); [|reflexivity].
    rewrite !map_app. reflexivity.
Qed.

Lemma below_cutoff_excluded_witness :
  derive_sources (config Examples.service)
    ([Examples.passage "B" "https://b.example/" (Some (decimal 9 10))]
     ++ Examples.passage "A" "https://a.example/" (Some (decimal 1 10))
     :: [Examples.passage "C" "https://a.example/" (Some (decimal 9 10))])
  = derive_sources (config Examples.service)
      ([Examples.passage "B" "https://b.example/" (Some (decimal 9 10))]
       ++ [Examples.passage "C" "https://a.example/" (Some (decimal 9 10))]).
Proof.
  apply (proj1 (below_cutoff_excluded (config Examples.service) _ _ _)
           (decimal 1 10)).
  - reflexivity.
  - reflexivity.
Defined.

(* ================================================================== *)
(** * The checks of [query]                                            *)
(* ================================================================== *)

Lemma starts_with_app (p s : js_string) : starts_with p (p ++ s) = true.
Proof.
  induction p as [|x p IH]; simpl; [reflexivity|].
  now rewrite N.eqb_refl, IH.
Qed.

Lemma truthy_array_present {A : Type} (a : option (list A)) :
  truthy_array a = true <-> a <> None.
Proof. destruct a; simpl; split; congruence. Qed.


Lemma all_present_None {A : Type} (l : list (option A)) :
  In None l -> all_present l = None.
Proof.
  induction l as [|[a|] l IH]; simpl; [contradiction| |reflexivity].
  intros [H|H]; [discriminate|]. now rewrite (IH H).
Qed.

Lemma all_present_Some {A : Type} (l : list (option A)) (rs : list A) :
  all_present l = Some rs -> l = map Some rs.
Proof.
  revert rs. induction l as [|[a|] l IH]; simpl; intros rs H.
  - now injection H as <-.
  - destruct (all_present l) as [rs'|]; [|discriminate].
    injection H as <-. simpl. now rewrite (IH rs' eq_refl).
  - discriminate.
Qed.

Section QueryFacts.

Variable JSON_stringify : json -> js_string.
Variable axios_post :
  js_string -> VectaraRequestPayload -> RequestHeaders ->
  completion thrown AxiosResponse.

Local Abbreviation run_query := (query JSON_stringify axios_post).
Local Abbreviation sent self question :=
  (axios_post (apiUrl self)
     (build_payload JSON_stringify (config self) question)
     (build_headers (config self))).
Local Abbreviation rejection := (rejection_error JSON_stringify).

(** Once the transport has answered, [query] is [handle_response]. *)
Lemma query_resolved self question response :
  sent self question = Return response ->
  run_query self question = handle_response JSON_stringify (config self) response.
Proof.
  unfold query. intros ->. simpl.
  destruct (handle_response JSON_stringify (config self) response); reflexivity.
Qed.

(** A reply whose body is [null] ends in the engine's [TypeError]. *)
Lemma handle_response_null cfg response :
  data response = None ->
  handle_response JSON_stringify cfg response
  = Throw (ThrownTypeError (lit "field_errors")).
Proof. intros H. unfold handle_response. now rewrite H. Qed.

(** A reply that carries errors or messages is rejected, whatever else it
    holds. *)
Lemma handle_response_errors cfg response d :
  data response = Some d ->
  carries_errors d ->
  handle_response JSON_stringify cfg response = Throw (rejection d).
Proof.
  intros Hd H. unfold handle_response, rejection_error. rewrite Hd.
  assert (E : truthy_array (field_errors d) || truthy_array (messages d) = true).
  { apply orb_true_iff. destruct H as [H|H]; [left|right];
      now apply truthy_array_present. }
  now rewrite E.
Qed.

Lemma handle_response_clean cfg response d :
  data response = Some d ->
  field_errors d = None ->
  messages d = None ->
  handle_response JSON_stringify cfg response =
  match summary d with
  | Some (c :: s) =>
      bind (sources_of cfg (destructured (search_results d) []))
           (fun sources => Return {| qr_summary := c :: s; qr_sources := sources |})
  | _ => Throw (ThrownError (lit "No summary in Vectara response"))
  end.
Proof.
  intros Hd Hf Hm. unfold handle_response. rewrite Hd, Hf, Hm. simpl.
  destruct (summary d) as [[|c s]|]; reflexivity.
Qed.

Lemma InvalidResponse_rejection d : InvalidResponse (rejection d) = true.
Proof.
  unfold rejection_error, InvalidResponse. now rewrite starts_with_app.
Qed.


(** C10: a reply whose [field_errors] or [messages] is the empty array is
    rejected with the invalid-response error, whatever its summary: the
    check looks at the presence of the member only. *)
Theorem empty_error_array_rejected
    (self : VectaraService) (question : js_string) (response : AxiosResponse)
    (d : VectaraResponse) :
  sent self question = Return response ->
  data response = Some d ->
  field_errors d = Some [] \/ messages d = Some [] ->
  run_query self question = Throw (rejection d)
  /\ InvalidResponse (rejection d) = true
  /\ (field_errors d = Some [] ->
        rejection d =
        ThrownError (lit "Invalid response from Vectara: " ++
                     JSON_stringify (JArray []))).
Proof.
  intros Hsent Hd H. rewrite (query_resolved _ _ _ Hsent).
  split; [|split].
  - apply (handle_response_errors _ _ _ Hd).
    destruct H as [H|H]; [left|right]; rewrite H; discriminate.
  - apply InvalidResponse_rejection.
  - intros Hf. unfold rejection_error, errors_or_messages. now rewrite Hf.
Qed.



(** When the transport fails, [query] ends with the value it threw. *)
Lemma query_rejected self question e :
  sent self question = Throw e ->
  run_query self question = Throw e.
Proof.
  unfold query. intros ->. reflexivity.
Qed.

End QueryFacts.



(** An empty [messages] array next to a non-empty summary is rejected. *)
Lemma empty_error_array_rejected_witness :
  query Examples.stringify
    (Examples.answers
       (Examples.reply (Some (lit "An answer.")) (Some []) None (Some [])))
    Examples.service (lit "why?")
  = Throw (ThrownError (lit "Invalid response from Vectara: []")).
Proof.
  apply (proj1
           (empty_error_array_rejected Examples.stringify
              (Examples.answers
                 (Examples.reply (Some (lit "An answer.")) (Some []) None (Some [])))
              Examples.service (lit "why?") _ _ eq_refl eq_refl
              (or_intror eq_refl))).
Defined.



(** C6, as stated, fails: when the connection is refused, the value
    [query] throws is the transport's own [AxiosError], not an error that
    wraps it. *)
Lemma transport_failure_counterexample :
  query Examples.stringify
    (Examples.fails (ThrownAxiosError Examples.connection_refused))
    Examples.service (lit "why?")
  = Throw (ThrownAxiosError Examples.connection_refused).
Proof. reflexivity. Qed.

(* ================================================================== *)
(** * The configuration                                                *)
(* ================================================================== *)

(** C9, as stated, fails for the response language: no constructor
    argument changes it, every request asks for "eng". *)
Lemma response_language_counterexample :
  ~ exists (stringify : json -> js_string) (c : VectaraConfig) (q : js_string),
      response_language (build_generation stringify (config (constructor c)) q)
      <> lit "eng".
Proof. intros (stringify & c & q & H). apply H. reflexivity. Qed.

(** C9, amended: each of the nine numeric settings takes the value given
    to the constructor, and the default of [VectaraQueryDefaults] when none
    is given, and it is that value which the request and the local filter
    use; the identifiers, the key and the two prompts are required and
    kept as given; the response language is the constant "eng".  No
    absent setting makes the construction fail: it ends with one log
    record of the settings in use, and it returns the service whenever
    that record is written; the only error it can raise is the one of
    that write. *)
Theorem constructor_defaults (c : VectaraConfig) :
  let self := constructor c in
  let cfg := config self in
  let record :=
    {| Logged.lc_message := lit "Vectara Configuration";
       Logged.lc_data :=
         Logged.DConfiguration
           (match maxResults c with Some v => v | None => of_Z 20 end)
           (match maxTokens c with Some v => v | None => of_Z 300 end)
           (match temperature c with Some v => v | None => decimal 5 10 end)
           (match frequencyPenalty c with Some v => v | None => decimal 3 10 end)
           (match presencePenalty c with Some v => v | None => decimal 3 10 end)
           (match relevanceThreshold c with Some v => v | None => decimal 25 100 end)
           (match diversityBias c with Some v => v | None => decimal 2 10 end) |} in
  r_searchDepth cfg
    = match searchDepth c with Some v => v | None => of_Z 100 end
  /\ r_maxResults cfg
    = match maxResults c with Some v => v | None => of_Z 20 end
  /\ r_maxTokens cfg
    = match maxTokens c with Some v => v | None => of_Z 300 end
  /\ r_maxResponseChars cfg
    = match maxResponseChars c with Some v => v | None => of_Z 4000 end
  /\ r_temperature cfg
    = match temperature c with Some v => v | None => decimal 5 10 end
  /\ r_frequencyPenalty cfg
    = match frequencyPenalty c with Some v => v | None => decimal 3 10 end
  /\ r_presencePenalty cfg
    = match presencePenalty c with Some v => v | None => decimal 3 10 end
  /\ r_relevanceThreshold cfg
    = match relevanceThreshold c with Some v => v | None => decimal 25 100 end
  /\ r_diversityBias cfg
    = match diversityBias c with Some v => v | None => decimal 2 10 end
  /\ (r_customerId cfg, r_apiKey cfg, r_corpusKey cfg,
      r_prePrompt cfg, r_promptTemplate cfg)
    = (customerId c, apiKey c, corpusKey c, prePrompt c, promptTemplate c)
  /\ (forall stringify q,
        response_language (build_generation stringify cfg q) = lit "eng")
  /\ (forall stringify q,
        let search := p_search (build_payload stringify cfg q) in
        let generation := build_generation stringify cfg q in
        p_generation (build_payload stringify cfg q) = Some generation
        /\ s_limit search
           = match searchDepth c with Some v => v | None => of_Z 100 end
        /\ rr_limit (reranker search)
           = match maxResults c with Some v => v | None => of_Z 20 end
        /\ rr_cutoff (reranker search)
           = match relevanceThreshold c with Some v => v | None => decimal 25 100 end
        /\ rr_diversity_bias (reranker search)
           = match diversityBias c with Some v => v | None => decimal 2 10 end
        /\ max_used_search_results generation
           = match maxResults c with Some v => v | None => of_Z 20 end
        /\ max_response_characters generation
           = match maxResponseChars c with Some v => v | None => of_Z 4000 end
        /\ mp_max_tokens (model_parameters generation)
           = match maxTokens c with Some v => v | None => of_Z 300 end
        /\ mp_temperature (model_parameters generation)
           = match temperature c with Some v => v | None => decimal 5 10 end
        /\ mp_frequency_penalty (model_parameters generation)
           = match frequencyPenalty c with Some v => v | None => decimal 3 10 end
        /\ mp_presence_penalty (model_parameters generation)
           = match presencePenalty c with Some v => v | None => decimal 3 10 end)
  /\ (forall r,
        passes_cutoff cfg r
        = geb (match score r with Some x => x | None => of_Z 0 end)
              (match relevanceThreshold c with Some v => v | None => decimal 25 100 end))
  /\ (forall write_log h,
        Logged.constructor write_log c h
        = (h ++ [record],
           match write_log h record with
           | Return _ => Return self
           | Throw e => Throw e
           end))
  /\ (forall write_log h,
        write_log h record = Return tt ->
        Logged.constructor write_log c h = (h ++ [record], Return self)).
Proof.
  cbv zeta. unfold constructor. cbn [config].
  repeat match goal with |- _ /\ _ => split end;
    try reflexivity; try (intros; reflexivity).
  - intros stringify q.
    repeat match goal with |- _ /\ _ => split end; reflexivity.
  - intros write_log h. cbv.
    match goal with
    | |- context [write_log h ?x] => destruct (write_log h x) as [[]|e]
    end;
      reflexivity.
  - intros write_log h Hw. cbv in Hw. cbv. rewrite Hw. reflexivity.
Qed.

(** With no override, on a log that can be written, the constructor
    writes the defaults and returns the service. *)
Lemma constructor_defaults_witness :
  Logged.constructor Logged.writable Examples.bare_config []
  = ([{| Logged.lc_message := lit "Vectara Configuration";
         Logged.lc_data :=
           Logged.DConfiguration (of_Z 20) (of_Z 300) (decimal 5 10)
             (decimal 3 10) (decimal 3 10) (decimal 25 100) (decimal 2 10) |}],
     Return Examples.service).
Proof.
  apply (proj2 (proj2 (proj2 (proj2 (proj2 (proj2 (proj2 (proj2 (proj2 (proj2
           (proj2 (proj2 (proj2 (proj2
              (constructor_defaults Examples.bare_config)))))))))))))) Logged.writable []).
  reflexivity.
Defined.

(* ================================================================== *)
(** * The service with its log                                         *)
(* ================================================================== *)

Section LoggedFacts.

Variable write_log : Logged.logger.
Variable JSON_stringify : json -> js_string.
Variable axios_post :
  js_string -> VectaraRequestPayload -> RequestHeaders ->
  completion thrown AxiosResponse.
Variable TypeError_message : js_string -> js_string.
Variable String_of : json -> js_string.

Local Abbreviation logged_query :=
  (Logged.query write_log JSON_stringify axios_post TypeError_message String_of).
Local Abbreviation sent self question :=
  (axios_post (apiUrl self)
     (build_payload JSON_stringify (config self) question)
     (build_headers (config self))).

(** X30: when every append to the log succeeds, [query] with its calls
    of [logToFile] ends as [query] without them: with the same result or
    the same thrown value, whatever the transport does and whatever was
    logged before. *)
Theorem logged_query_writable self question h :
  (forall before c, write_log before c = Return tt) ->
  snd (logged_query self question h)
  = query JSON_stringify axios_post self question.
Proof.
  intros Hw.
  unfold Logged.query, Logged.catch, Logged.and_then, Logged.log, Logged.log_record, Logged.lift,
    Logged.raise, query.
  rewrite !Hw.
  destruct (axios_post _ _ _) as [response|e]; cbn [bind try_catch snd].
  2:{ now rewrite Hw. }
  unfold Logged.after_response, Logged.and_then, Logged.log, Logged.log_record, Logged.lift,
    Logged.raise, Logged.ret, handle_response.
  rewrite !Hw.
  destruct (data response) as [d|]; [|now rewrite Hw].
  destruct (truthy_array (field_errors d) || truthy_array (messages d));
    [now rewrite Hw|].
  rewrite !Hw.
  destruct (summary d) as [[|ch s]|]; try (now rewrite Hw).
  rewrite !Hw.
  destruct (sources_of (config self) (destructured (search_results d) []))
    as [sources|e]; cbn [bind snd].
  - rewrite !Hw. reflexivity.
  - now rewrite Hw.
Qed.

(** C6, amended: when the transport fails, [query] writes one record of
    the failure to the log (for an [AxiosError]: "Vectara API Error" with
    the status, status text and data of the upstream reply when there is
    one, and the message of the error) and then rethrows the very value it
    caught, not wrapped in another error, so the caller receives the
    transport's own error and no result; only when the write of that
    record fails is the error of the write thrown in its place. *)
Theorem transport_failure_rethrown
    (self : VectaraService) (question : js_string) (e : thrown)
    (h : list Logged.log_call) :
  let cfg := config self in
  let prompts :=
    {| Logged.lc_message := lit "Prompt Array";
       Logged.lc_data := Logged.DPromptArray (promptArray cfg question) |} in
  let request :=
    {| Logged.lc_message := lit "Vectara Request";
       Logged.lc_data :=
         Logged.DRequest (apiUrl self)
           {| x_api_key := lit "***redacted***";
              content_type := lit "application/json" |}
           (Logged.redact_payload (build_payload JSON_stringify cfg question)
              (build_generation JSON_stringify cfg question)) |} in
  let failure := Logged.error_record TypeError_message String_of e in
  write_log h prompts = Return tt ->
  write_log (h ++ [prompts]) request = Return tt ->
  sent self question = Throw e ->
  logged_query self question h
  = (h ++ [prompts; request; failure],
     match write_log (h ++ [prompts; request]) failure with
     | Return _ => Throw e
     | Throw e' => Throw e'
     end)
  /\ (forall a, e = ThrownAxiosError a ->
        failure
        = {| Logged.lc_message := lit "Vectara API Error";
             Logged.lc_data :=
               Logged.DApiError
                 (option_map e_status (ae_response a))
                 (option_map e_statusText (ae_response a))
                 (option_map e_data (ae_response a))
                 (ae_message a) |})
  /\ query JSON_stringify axios_post self question = Throw e.
Proof.
  cbv zeta. intros H1 H2 Hsent.
  split; [|split].
  - unfold Logged.query, Logged.catch, Logged.and_then, Logged.log, Logged.log_record, Logged.lift,
      Logged.raise.
    rewrite H1.
    change (Logged.redact_headers (build_headers (config self)))
      with {| x_api_key := lit "***redacted***";
              content_type := lit "application/json" |}.
    rewrite H2, Hsent. rewrite <- !app_assoc. cbn [app].
    match goal with
    | |- context [write_log ?x ?y] => destruct (write_log x y) as [[]|e']
    end; reflexivity.
  - intros a ->. reflexivity.
  - unfold query. now rewrite Hsent.
Qed.

End LoggedFacts.

Lemma logged_query_writable_witness :
  snd (Logged.query Logged.writable Examples.stringify
         (Examples.answers
            (Examples.reply (Some (lit "An answer."))
               (Some Examples.twin_results) None None))
         OodaCases.null_read OodaCases.to_string
         Examples.service (lit "why?") [])
  = query Examples.stringify
      (Examples.answers
         (Examples.reply (Some (lit "An answer."))
            (Some Examples.twin_results) None None))
      Examples.service (lit "why?").
Proof.
  apply (logged_query_writable Logged.writable Examples.stringify
           (Examples.answers
              (Examples.reply (Some (lit "An answer."))
                 (Some Examples.twin_results) None None))
           OodaCases.null_read OodaCases.to_string
           Examples.service (lit "why?") []).
  intros before c. reflexivity.
Defined.

(** The text [logToFile] appends: the time between brackets, the message
    and a line feed, then the rendered data and a line feed unless the
    data is falsy (here the empty message of an error). *)
Example logEntry_text (render : Logged.log_data -> js_string) :
  Logged.logEntry render (lit "2025-01-01T00:00:00.000Z")
    {| Logged.lc_message := lit "Vectara Error"; Logged.lc_data := Logged.DText [] |}
  = lit "[2025-01-01T00:00:00.000Z] Vectara Error" ++ [LF]
  /\ Logged.logEntry render (lit "2025-01-01T00:00:00.000Z")
       {| Logged.lc_message := lit "Processed Sources";
          Logged.lc_data := Logged.DSources [] |}
     = lit "[2025-01-01T00:00:00.000Z] Processed Sources" ++ [LF]
       ++ render (Logged.DSources []) ++ [LF].
Proof. split; reflexivity. Qed.

(** A refused connection, with a log that can be written: the record of
    the failure carries the message of the error and no upstream reply,
    and the error thrown is the transport's. *)
Lemma transport_failure_rethrown_witness :
  Logged.query Logged.writable Examples.stringify
    (Examples.fails (ThrownAxiosError Examples.connection_refused))
    OodaCases.null_read OodaCases.to_string
    Examples.service (lit "why?") []
  = ([{| Logged.lc_message := lit "Prompt Array";
         Logged.lc_data :=
           Logged.DPromptArray (promptArray (config Examples.service) (lit "why?")) |};
      {| Logged.lc_message := lit "Vectara Request";
         Logged.lc_data :=
           Logged.DRequest (lit "https://api.vectara.io/v2/query")
             {| x_api_key := lit "***redacted***";
                content_type := lit "application/json" |}
             (Logged.redact_payload
                (build_payload Examples.stringify (config Examples.service)
                   (lit "why?"))
                (build_generation Examples.stringify (config Examples.service)
                   (lit "why?"))) |};
      {| Logged.lc_message := lit "Vectara API Error";
         Logged.lc_data :=
           Logged.DApiError None None None
             (lit "connect ECONNREFUSED 127.0.0.1:443") |}],
     Throw (ThrownAxiosError Examples.connection_refused)).
Proof.
  apply (proj1
           (transport_failure_rethrown Logged.writable Examples.stringify
              (Examples.fails (ThrownAxiosError Examples.connection_refused))
              OodaCases.null_read OodaCases.to_string
              Examples.service (lit "why?")
              (ThrownAxiosError Examples.connection_refused) []
              eq_refl eq_refl eq_refl)).
Defined.

(** The same failure when the record of the failure cannot be written:
    the caller gets the error of the write. *)
Example transport_failure_log_failure :
  snd (Logged.query
         (Logged.failing_on (lit "Vectara API Error")
            (ThrownError (lit "ENOSPC: no space left on device, write")))
         Examples.stringify
         (Examples.fails (ThrownAxiosError Examples.connection_refused))
         OodaCases.null_read OodaCases.to_string
         Examples.service (lit "why?") [])
  = Throw (ThrownError (lit "ENOSPC: no space left on device, write")).
Proof. reflexivity. Qed.

(* ================================================================== *)
(** * The text formatter                                               *)
(* ================================================================== *)

(** The loop of [formatSources] appends the bullets in order. *)
Lemma fold_left_bullets (l : list Source) :
  forall acc,
    fold_left (fun sourcesText source => sourcesText ++ bullet source) l acc
    = acc ++ concat (map bullet l).
Proof.
  induction l as [|s l IH]; intros acc; simpl.
  - now rewrite app_nil_r.
  - now rewrite IH, <- app_assoc.
Qed.

Lemma formatSources_nonempty (s : Source) (l : list Source) :
  formatSources (Some (s :: l))
  = sources_header ++ concat (map bullet (firstn 15 (s :: l))).
Proof. unfold formatSources. apply fold_left_bullets. Qed.

(** The bullet sign occurs once in the bullet of a source whose url and
    title do not contain it. *)
Lemma count_bullet_signs (l : list Source) :
  (forall s, In s l -> ~ In 8226%N (url s) /\ ~ In 8226%N (title s)) ->
  count_occ N.eq_dec (concat (map bullet l)) 8226%N = length l.
Proof.
  induction l as [|s l IH]; intros H; [reflexivity|].
  cbn [map concat length].
  destruct (H s (or_introl eq_refl)) as [Hu Ht].
  apply (count_occ_not_In N.eq_dec) in Hu, Ht.
  specialize (IH (fun s' Hs' => H s' (or_intror Hs'))).
  unfold bullet, js_string, code_unit in *.
  rewrite !count_occ_app, IH, Hu, Ht. reflexivity.
Qed.

(** C7: [formatSources] gives the empty string for an absent or empty
    list; for a list of more than 15 sources it gives the header
    (two line feeds and "*Sources:*") followed by exactly 15 bullets, each a
    line feed, the bullet sign, a space and "<url|title>", those of the
    first 15 sources in their order; the sources after them have no
    effect. *)
Theorem formatSources_cap :
  formatSources None = []
  /\ formatSources (Some []) = []
  /\ forall l : list Source,
       15 < length l ->
       formatSources (Some l)
       = [10%N; 10%N] ++ lit "*Sources:*"
         ++ concat
              (map (fun s => [10%N; 8226%N] ++ lit " <" ++ url s ++ lit "|"
                             ++ title s ++ lit ">")
                   (firstn 15 l))
       /\ length (firstn 15 l) = 15
       /\ (forall i, i < 15 -> nth_error (firstn 15 l) i = nth_error l i)
       /\ ((forall s, In s (firstn 15 l) ->
              ~ In 8226%N (url s) /\ ~ In 8226%N (title s)) ->
           count_occ N.eq_dec (formatSources (Some l)) 8226%N = 15)
       /\ forall rest,
            formatSources (Some (firstn 15 l ++ rest)) = formatSources (Some l).
Proof.
  split; [reflexivity|]. split; [reflexivity|].
  intros l Hlen.
  assert (Hfmt : formatSources (Some l)
                 = sources_header ++ concat (map bullet (firstn 15 l))).
  { destruct l as [|s l]; [simpl in Hlen; lia|]. apply formatSources_nonempty. }
  assert (H15 : length (firstn 15 l) = 15) by (rewrite length_firstn; lia).
  repeat match goal with |- _ /\ _ => split end.
  - rewrite Hfmt. reflexivity.
  - exact H15.
  - intros i Hi. rewrite nth_error_firstn.
    apply Nat.ltb_lt in Hi. now rewrite Hi.
  - intros Hclean. rewrite Hfmt.
    pose proof (count_bullet_signs _ Hclean) as Hc.
    unfold js_string, code_unit in *.
    rewrite count_occ_app, Hc, H15. reflexivity.
  - intros rest.
    assert (E : firstn 15 (firstn 15 l ++ rest) = firstn 15 l).
    { rewrite firstn_app, firstn_firstn, length_firstn, Nat.min_id.
      replace (15 - Nat.min 15 (length l)) with 0 by lia.
      apply app_nil_r. }
    destruct l as [|s l]; [simpl in Hlen; lia|].
    rewrite (formatSources_nonempty s l).
    change (firstn 15 (s :: l) ++ rest) with (s :: (firstn 14 l ++ rest)).
    rewrite (formatSources_nonempty s (firstn 14 l ++ rest)).
    change (s :: (firstn 14 l ++ rest)) with (firstn 15 (s :: l) ++ rest).
    now rewrite E.
Qed.

(** Sixteen sources: fifteen bullets, and the sixteenth source is not
    rendered. *)
Lemma formatSources_cap_witness :
  15 < length Examples.sixteen_sources
  /\ formatSources (Some Examples.sixteen_sources)
     = [10%N; 10%N] ++ lit "*Sources:*"
       ++ [10%N; 8226%N] ++ lit " <u1|t1>" ++ [10%N; 8226%N] ++ lit " <u2|t2>"
       ++ [10%N; 8226%N] ++ lit " <u3|t3>" ++ [10%N; 8226%N] ++ lit " <u4|t4>"
       ++ [10%N; 8226%N] ++ lit " <u5|t5>" ++ [10%N; 8226%N] ++ lit " <u6|t6>"
       ++ [10%N; 8226%N] ++ lit " <u7|t7>" ++ [10%N; 8226%N] ++ lit " <u8|t8>"
       ++ [10%N; 8226%N] ++ lit " <u9|t9>" ++ [10%N; 8226%N] ++ lit " <u10|t10>"
       ++ [10%N; 8226%N] ++ lit " <u11|t11>" ++ [10%N; 8226%N] ++ lit " <u12|t12>"
       ++ [10%N; 8226%N] ++ lit " <u13|t13>" ++ [10%N; 8226%N] ++ lit " <u14|t14>"
       ++ [10%N; 8226%N] ++ lit " <u15|t15>"
  /\ count_occ N.eq_dec (formatSources (Some Examples.sixteen_sources)) 8226%N = 15.
Proof.
  assert (H : 15 < length Examples.sixteen_sources) by (simpl; lia).
  destruct (proj2 (proj2 formatSources_cap) Examples.sixteen_sources H)
    as (Hfmt & _ & _ & Hcount & _).
  split; [exact H|]. split; [exact Hfmt|].
  apply Hcount. intros s Hs. simpl in Hs.
  repeat (destruct Hs as [<-|Hs];
          [split; intros Hin; vm_compute in Hin; intuition discriminate|]).
  destruct Hs.
Defined.

(* ------------------------------------------------------------------ *)
(** ** The regular expressions of [cleanupMarkdown]                    *)
(* ------------------------------------------------------------------ *)

Lemma prev_after_cons p c t : prev_after p (c :: t) = prev_after (Some c) t.
Proof.
  unfold prev_after. simpl. destruct (rev t) as [|x r] eqn:E; simpl; reflexivity.
Qed.

(** A lazy star walks over code units on which its continuation fails. *)
Lemma lazy_star_skip (k : cls) (K : mstate -> option mstate) cs (t rest0 : js_string) :
  forall p,
    Forall (fun c => cls_match k c = true) t ->
    (forall p' c s', In c t -> K (MState p' (c :: s') cs) = None) ->
    lazy_star k K p cs (t ++ rest0) = lazy_star k K (prev_after p t) cs rest0.
Proof.
  induction t as [|c t IH]; intros p Hk HK; [reflexivity|].
  cbn [app lazy_star]. rewrite (HK p c (t ++ rest0) (or_introl eq_refl)).
  inversion Hk; subst. rewrite H1, prev_after_cons.
  apply IH; [assumption|]. intros p' c' s' Hc'. apply HK. now right.
Qed.

(** The scan steps over the text a match consumed. *)
Lemma replace_from_skip r repl (s1 s2 : js_string) :
  forall p,
    replace_from r repl (length s1) p (s1 ++ s2)
    = replace_from r repl 0 (prev_after p s1) s2.
Proof.
  induction s1 as [|c s1 IH]; intros p; [reflexivity|].
  cbn [length app replace_from]. now rewrite IH, prev_after_cons.
Qed.

(** A match that consumed [S n] code units. *)
Lemma replace_from_match r repl p c (s : js_string) st n :
  exec r p (c :: s) = Some st ->
  length (c :: s) - length (rest st) = S n ->
  replace_from r repl 0 p (c :: s)
  = repl (caps st) ++ replace_from r repl n (Some c) s.
Proof.
  intros He Hn. cbn [replace_from]. rewrite He, Hn. reflexivity.
Qed.

(** Where the expression matches nowhere, the text is kept. *)
Lemma replace_from_no_match r repl (s : js_string) :
  forall p,
    (forall p' s1 s2, s = s1 ++ s2 -> exec r p' s2 = None) ->
    replace_from r repl 0 p s = s.
Proof.
  induction s as [|c s IH]; intros p H; simpl.
  - now rewrite (H p [] [] eq_refl).
  - rewrite (H p [] (c :: s) eq_refl). f_equal. apply IH.
    intros p' s1 s2 ->. apply (H p' (c :: s1) s2). reflexivity.
Qed.

Lemma re_italic_paired : re_italic = paired 42%N.
Proof. reflexivity. Qed.

Lemma re_code_paired : re_code = paired 96%N.
Proof. reflexivity. Qed.

Lemma exec_paired d p (t : js_string) :
  Forall (fun c => c <> d /\ is_line_terminator c = false) t ->
  exec (paired d) p (d :: t ++ [d]) = Some (MState (Some d) [] [(1, t)]).
Proof.
  intros Ht. unfold exec, paired. cbn [run rest caps prev cls_match].
  rewrite N.eqb_refl. cbn [run rest caps prev].
  rewrite lazy_star_skip.
  - cbn [lazy_star rest caps prev cls_match]. rewrite N.eqb_refl.
    rewrite length_app. cbn [length].
    replace (length t + 1 - 1) with (length t) by lia.
    now rewrite firstn_app, firstn_all, Nat.sub_diag, app_nil_r.
  - eapply Forall_impl; [|exact Ht]. intros c [_ H]. simpl. now rewrite H.
  - intros p' c s' Hc. cbn [rest caps prev cls_match].
    rewrite Forall_forall in Ht. destruct (Ht c Hc) as [Hd _].
    apply N.eqb_neq in Hd. now rewrite Hd.
Qed.

Lemma exec_paired_other d p (s : js_string) :
  match s with [] => True | c :: _ => c <> d end ->
  exec (paired d) p s = None.
Proof.
  destruct s as [|c s]; intros H; [reflexivity|].
  unfold exec, paired. cbn [run rest cls_match].
  apply N.eqb_neq in H. now rewrite H.
Qed.

(** A pair of delimiters around a text without delimiter or line break is
    removed. *)
Lemma replace_paired (d : code_unit) (t : js_string) :
  Forall (fun c => c <> d /\ is_line_terminator c = false) t ->
  replace_all (paired d) dollar1 (d :: t ++ [d]) = t.
Proof.
  intros Ht. unfold replace_all.
  rewrite (replace_from_match _ _ _ _ _ _ (length (t ++ [d]))
             (exec_paired d None t Ht)); [|cbn [rest length]; unfold js_string, code_unit; lia].
  rewrite <- (app_nil_r (t ++ [d])) at 2. rewrite replace_from_skip.
  unfold dollar1. simpl. apply app_nil_r.
Qed.

(** A text without the delimiter is left as it is. *)
Lemma replace_paired_unmarked (d : code_unit) (s : js_string) :
  Forall (fun c => c <> d) s ->
  replace_all (paired d) dollar1 s = s.
Proof.
  intros Hs. apply replace_from_no_match.
  intros p' s1 s2 ->. apply exec_paired_other.
  destruct s2 as [|c s2]; [exact I|].
  apply Forall_app in Hs as [_ Hs]. now inversion Hs.
Qed.

Lemma exec_bold p (t : js_string) :
  Forall (fun c => c <> 42%N /\ is_line_terminator c = false) t ->
  exec re_bold p (42%N :: 42%N :: t ++ [42%N; 42%N])
  = Some (MState (Some 42%N) [] [(1, t)]).
Proof.
  intros Ht. unfold exec, re_bold, star. cbn [run rest caps prev cls_match].
  change (N.eqb 42 42) with true. cbn iota.
  rewrite lazy_star_skip.
  - cbn [lazy_star rest caps prev]. change (N.eqb 42 42) with true. cbn iota.
    rewrite length_app. cbn [length].
    replace (length t + 2 - 2) with (length t) by lia.
    now rewrite firstn_app, firstn_all, Nat.sub_diag, app_nil_r.
  - eapply Forall_impl; [|exact Ht]. intros c [_ H]. simpl. now rewrite H.
  - intros p' c s' Hc. cbn [rest].
    rewrite Forall_forall in Ht. destruct (Ht c Hc) as [Hd _].
    apply N.eqb_neq in Hd. now rewrite Hd.
Qed.

(** [**t**] becomes [t]. *)
Lemma replace_bold (t : js_string) :
  Forall (fun c => c <> 42%N /\ is_line_terminator c = false) t ->
  replace_all re_bold dollar1 (lit "**" ++ t ++ lit "**") = t.
Proof.
  intros Ht. unfold replace_all.
  change (lit "**" ++ t ++ lit "**") with (42%N :: 42%N :: t ++ [42%N; 42%N]).
  rewrite (replace_from_match _ _ _ _ _ _ (length (42%N :: t ++ [42%N; 42%N]))
             (exec_bold None t Ht)); [|cbn [rest length]; unfold js_string, code_unit; lia].
  rewrite <- (app_nil_r (42%N :: t ++ [42%N; 42%N])) at 2.
  rewrite replace_from_skip.
  unfold dollar1. simpl. apply app_nil_r.
Qed.

(** Inside a line the heading expression matches nowhere. *)
Lemma replace_heading_inside (t : js_string) :
  forall c,
    is_line_terminator c = false ->
    Forall (fun x => is_line_terminator x = false) t ->
    replace_from re_heading empty_repl 0 (Some c) t = t.
Proof.
  induction t as [|x t IH]; intros c Hc Ht; cbn [replace_from].
  - unfold exec, re_heading. cbn [run prev at_line_start]. now rewrite Hc.
  - unfold exec, re_heading. cbn [run prev at_line_start]. rewrite Hc.
    inversion Ht; subst. f_equal. now apply IH.
Qed.

Lemma exec_heading (k : nat) (t : js_string) :
  1 <= k <= 6 ->
  exec re_heading None (repeat 35%N k ++ 32%N :: t) = Some (MState (Some 32%N) t []).
Proof.
  intros Hk.
  destruct k as [|[|[|[|[|[|[|k]]]]]]]; try lia; reflexivity.
Qed.

(** One to six marks and a space at the start of a line are removed. *)
Lemma replace_heading (k : nat) (t : js_string) :
  1 <= k <= 6 ->
  Forall (fun x => is_line_terminator x = false) t ->
  replace_all re_heading empty_repl (repeat 35%N k ++ 32%N :: t) = t.
Proof.
  intros Hk Ht. unfold replace_all.
  destruct k as [|k]; [lia|].
  change (repeat 35%N (S k) ++ 32%N :: t)
    with (35%N :: (repeat 35%N k ++ 32%N :: t)).
  rewrite (replace_from_match _ _ None 35%N (repeat 35%N k ++ 32%N :: t) _
             (length (repeat 35%N k ++ [32%N]))
             (exec_heading (S k) t Hk)).
  - replace (repeat 35%N k ++ 32%N :: t) with ((repeat 35%N k ++ [32%N]) ++ t)
      by now rewrite <- app_assoc.
    rewrite replace_from_skip. cbn [empty_repl app].
    unfold prev_after. rewrite rev_app_distr. cbn [rev app].
    now apply replace_heading_inside.
  - cbn [rest length]. rewrite !length_app. cbn [length].
    unfold js_string, code_unit. lia.
Qed.

Lemma exec_underscores p (t : js_string) :
  Forall (fun c => c <> 95%N /\ is_line_terminator c = false) t ->
  exec re_underscores p (95%N :: 95%N :: t ++ [95%N; 95%N])
  = Some (MState (Some 95%N) [] [(1, t)]).
Proof.
  intros Ht. unfold exec, re_underscores, underscore.
  cbn [run rest caps prev repeat_greedy cls_match Nat.eqb Nat.pred].
  change (N.eqb 95 95) with true. cbn iota.
  rewrite lazy_star_skip.
  - cbn [lazy_star rest caps prev repeat_greedy cls_match Nat.eqb Nat.pred].
    change (N.eqb 95 95) with true. cbn iota.
    rewrite length_app. cbn [length].
    replace (length t + 2 - 2) with (length t) by lia.
    now rewrite firstn_app, firstn_all, Nat.sub_diag, app_nil_r.
  - eapply Forall_impl; [|exact Ht]. intros c [_ H]. simpl. now rewrite H.
  - intros p' c s' Hc.
    cbn [rest caps prev repeat_greedy cls_match Nat.eqb Nat.pred].
    rewrite Forall_forall in Ht. destruct (Ht c Hc) as [Hd _].
    apply N.eqb_neq in Hd. now rewrite Hd.
Qed.

(** [__t__] becomes [t]. *)
Lemma replace_underscores (t : js_string) :
  Forall (fun c => c <> 95%N /\ is_line_terminator c = false) t ->
  replace_all re_underscores dollar1 (lit "__" ++ t ++ lit "__") = t.
Proof.
  intros Ht. unfold replace_all.
  change (lit "__" ++ t ++ lit "__") with (95%N :: 95%N :: t ++ [95%N; 95%N]).
  rewrite (replace_from_match _ _ _ _ _ _ (length (95%N :: t ++ [95%N; 95%N]))
             (exec_underscores None t Ht));
    [|cbn [rest length]; unfold js_string, code_unit; lia].
  rewrite <- (app_nil_r (95%N :: t ++ [95%N; 95%N])) at 2.
  rewrite replace_from_skip.
  unfold dollar1. simpl. apply app_nil_r.
Qed.

(** The order of the passes shows: with the bold pass first, the outer
    pair of [***a**] is taken as bold and the third star stays in front;
    an italic pass running first would leave the star behind instead. *)
Example cleanupMarkdown_bold_first :
  cleanupMarkdown (lit "***a**") = lit "*a"
  /\ replace_all re_bold dollar1 (replace_all re_italic dollar1 (lit "***a**"))
     = lit "a*".
Proof. split; vm_compute; reflexivity. Qed.

(** A heading marker is removed at the start of every line, and only
    there; at most six marks are taken. *)
Example cleanupMarkdown_headings :
  cleanupMarkdown (lit "## a" ++ [LF] ++ lit "b # c" ++ [LF] ++ lit "####### d")
  = lit "a" ++ [LF] ++ lit "b # c" ++ [LF] ++ lit "####### d".
Proof. vm_compute. reflexivity. Qed.

(* ================================================================== *)
(** * Further properties of the derivation of sources                  *)
(* ================================================================== *)

Lemma geb_at_least (a b : number) : geb a b = true <-> at_least a b.
Proof.
  destruct a as [| |x|], b as [| |y|]; simpl;
    try (split; [discriminate | contradiction]);
    try (split; [intros _; exact I | reflexivity]).
  apply Qle_bool_iff.
Qed.

Lemma passes_cutoff_at_least cfg r :
  passes_cutoff cfg r = true <->
  at_least (score_or_zero r) (r_relevanceThreshold cfg).
Proof. rewrite passes_cutoff_eq. apply geb_at_least. Qed.

Lemma dedup_by_url_app (a b : list VectaraSource) :
  forall seen,
    dedup_by_url seen (a ++ b)
    = dedup_by_url seen a
      ++ dedup_by_url (map url (dedup_by_url seen a) ++ seen) b.
Proof.
  induction a as [|s a IH]; intros seen; simpl; [reflexivity|].
  destruct (existsb (str_eqb (url s)) seen); [apply IH|].
  simpl. f_equal. rewrite IH. f_equal.
  apply dedup_by_url_ext. intros u.
  rewrite !in_app_iff. simpl. rewrite in_app_iff. tauto.
Qed.

(** Urls seen beforehand only remove entries from the result. *)
Lemma dedup_by_url_seen (l : list VectaraSource) :
  forall seen1 seen2,
    dedup_by_url (seen1 ++ seen2) l
    = filter (fun s => negb (url_among seen1 s)) (dedup_by_url seen2 l).
Proof.
  unfold url_among.
  induction l as [|s l IH]; intros seen1 seen2; simpl; [reflexivity|].
  rewrite existsb_app.
  destruct (existsb (str_eqb (url s)) seen2) eqn:E2.
  - rewrite orb_true_r. apply IH.
  - rewrite orb_false_r. simpl.
    destruct (existsb (str_eqb (url s)) seen1) eqn:E1; simpl.
    + rewrite <- IH. apply dedup_by_url_ext. intros u.
      rewrite !in_app_iff. simpl. apply existsb_seen_In in E1.
      split; [tauto|]. intros [H|[<-|H]]; tauto.
    + f_equal. rewrite <- IH. apply dedup_by_url_ext. intros u.
      simpl. rewrite !in_app_iff. simpl. tauto.
Qed.

(** X1: the sources of a list of results followed by more results are the
    sources of the first list, unchanged and in place, followed by those
    sources of the added results whose url the first list did not already
    yield. *)
Theorem derive_sources_app
    (cfg : RequiredConfig) (l1 l2 : list VectaraSearchResult) :
  derive_sources cfg (l1 ++ l2)
  = derive_sources cfg l1
    ++ filter (fun s => negb (url_among (map url (derive_sources cfg l1)) s))
         (derive_sources cfg l2).
Proof.
  rewrite !derive_sources_dedup, candidates_app, dedup_by_url_app.
  f_equal. rewrite <- dedup_by_url_seen. now rewrite app_nil_r.
Qed.

(** X2: the urls of the derived sources are exactly the non-empty urls
    carried by some passage whose score (0 when missing) is at least the
    cutoff, the cutoff itself included. *)
Theorem derive_sources_urls
    (cfg : RequiredConfig) (results : list VectaraSearchResult) (u : js_string) :
  In u (map url (derive_sources cfg results)) <->
  u <> [] /\
  exists r, In r results
            /\ url (to_source r) = u
            /\ at_least (score_or_zero r) (r_relevanceThreshold cfg).
Proof.
  rewrite derive_sources_dedup. split.
  - intros H. apply in_map_iff in H as (s & <- & Hs).
    apply dedup_by_url_In in Hs as [Hs _].
    apply candidates_In in Hs as (r & Hr & Hsv & ->).
    unfold survives in Hsv. apply andb_true_iff in Hsv as [Hp Hu].
    split.
    + intros E. apply truthy_string_false in E. congruence.
    + exists r. split; [exact Hr|]. split; [reflexivity|].
      now apply passes_cutoff_at_least.
  - intros [Hu (r & Hr & <- & Hp)].
    apply dedup_by_url_complete; [|intros []].
    apply candidates_In. exists r. split; [exact Hr|]. split; [|reflexivity].
    unfold survives. apply andb_true_iff. split.
    + now apply passes_cutoff_at_least.
    + destruct (url (to_source r)); [contradiction | reflexivity].
Qed.

(** X3: a configured cutoff that is NaN (the constructor keeps it: [??]
    replaces only an absent value) lets no passage through, so no source is
    ever derived. *)
Theorem nan_cutoff_no_sources
    (c : VectaraConfig) (results : list VectaraSearchResult) :
  relevanceThreshold c = Some NaN ->
  r_relevanceThreshold (config (constructor c)) = NaN
  /\ derive_sources (config (constructor c)) results = [].
Proof.
  intros H.
  assert (E : r_relevanceThreshold (config (constructor c)) = NaN).
  { unfold constructor. cbn [config r_relevanceThreshold]. now rewrite H. }
  split; [exact E|].
  rewrite derive_sources_dedup.
  replace (candidates (config (constructor c)) results) with (@nil VectaraSource);
    [reflexivity|].
  unfold candidates. symmetry.
  induction results as [|r l IH]; [reflexivity|].
  cbn [filter]. unfold survives at 1. rewrite passes_cutoff_eq, E.
  replace (geb (match score r with Some x => x | None => of_Z 0 end) NaN)
    with false by (destruct (score r) as [[]|]; reflexivity).
  exact IH.
Qed.

Lemma nan_cutoff_no_sources_witness :
  derive_sources (config (constructor Cases.nan_config)) Examples.twin_results
  = [].
Proof.
  apply (proj2 (nan_cutoff_no_sources Cases.nan_config Examples.twin_results
                  eq_refl)).
Defined.

Lemma dedup_by_url_length (l : list VectaraSource) :
  forall seen, length (dedup_by_url seen l) <= length l.
Proof.
  induction l as [|s l IH]; intros seen; simpl; [lia|].
  destruct (existsb (str_eqb (url s)) seen); simpl.
  - specialize (IH seen). lia.
  - specialize (IH (url s :: seen)). lia.
Qed.

Lemma derive_sources_length cfg results :
  length (derive_sources cfg results) <= length results.
Proof.
  rewrite derive_sources_dedup.
  etransitivity; [apply dedup_by_url_length|].
  unfold candidates. rewrite length_map. apply filter_length_le.
Qed.

(* ================================================================== *)
(** * Further properties of [query]                                    *)
(* ================================================================== *)

Section MoreQueryFacts.

Variable JSON_stringify : json -> js_string.
Variable axios_post :
  js_string -> VectaraRequestPayload -> RequestHeaders ->
  completion thrown AxiosResponse.

Local Abbreviation run_query := (query JSON_stringify axios_post).
Local Abbreviation sent self question :=
  (axios_post (apiUrl self)
     (build_payload JSON_stringify (config self) question)
     (build_headers (config self))).

(** X4: when [query] returns, the transport had answered with a reply
    whose body carries neither field errors nor messages; the summary
    returned is the summary of that reply, unchanged and not empty; the
    sources are those derived from its results (none when
    [search_results] is missing, and [search_results] is neither [null]
    nor holds a [null] entry), and there are at most as many sources as
    results. *)
Theorem query_return_inversion
    (self : VectaraService) (question : js_string) (res : QueryResult) :
  run_query self question = Return res ->
  exists response d results,
    sent self question = Return response
    /\ data response = Some d
    /\ field_errors d = None
    /\ messages d = None
    /\ summary d = Some (qr_summary res)
    /\ qr_summary res <> []
    /\ destructured (search_results d) [] = Some (map Some results)
    /\ qr_sources res = derive_sources (config self) results
    /\ length (qr_sources res) <= length results.
Proof.
  intros H. destruct (sent self question) as [response|e] eqn:Hsent.
  - rewrite (query_resolved _ _ _ _ _ Hsent) in H.
    destruct (data response) as [d|] eqn:Hd;
      [|rewrite (handle_response_null _ _ _ Hd) in H; discriminate].
    destruct (field_errors d) as [fe|] eqn:Hf.
    { rewrite (handle_response_errors _ _ _ d Hd) in H; [discriminate|].
      left. rewrite Hf. discriminate. }
    destruct (messages d) as [ms|] eqn:Hm.
    { rewrite (handle_response_errors _ _ _ d Hd) in H; [discriminate|].
      right. rewrite Hm. discriminate. }
    rewrite (handle_response_clean _ _ _ _ Hd Hf Hm) in H.
    destruct (summary d) as [[|ch s]|] eqn:Hs; try discriminate.
    unfold sources_of in H.
    destruct (destructured (search_results d) []) as [entries|] eqn:Hr;
      [|discriminate].
    destruct (all_present entries) as [results|] eqn:Ha; [|discriminate].
    simpl in H. injection H as <-. cbn [qr_summary qr_sources].
    exists response, d, results.
    rewrite (all_present_Some _ _ Ha) in Hr.
    repeat match goal with |- _ /\ _ => split end;
      try reflexivity; try assumption; try discriminate.
    apply derive_sources_length.
  - unfold query in H. rewrite Hsent in H. discriminate.
Qed.

(** X5: when [field_errors] is present, even as an empty array, the error
    text reports [field_errors] and nothing of [messages]; the messages are
    reported only when [field_errors] is absent. *)
Theorem field_errors_hide_messages
    (self : VectaraService) (question : js_string) (response : AxiosResponse)
    (d : VectaraResponse) :
  sent self question = Return response ->
  data response = Some d ->
  (forall fe, field_errors d = Some fe ->
     run_query self question
     = Throw (ThrownError (lit "Invalid response from Vectara: " ++
                           JSON_stringify (JArray fe))))
  /\ (forall ms, field_errors d = None ->
        messages d = Some ms ->
        run_query self question
        = Throw (ThrownError (lit "Invalid response from Vectara: " ++
                              JSON_stringify (JArray (map JString ms))))).
Proof.
  intros Hsent Hd. rewrite (query_resolved _ _ _ _ _ Hsent). split.
  - intros fe Hf. rewrite (handle_response_errors _ _ _ d Hd).
    + unfold rejection_error, errors_or_messages. now rewrite Hf.
    + left. rewrite Hf. discriminate.
  - intros ms Hf Hm. rewrite (handle_response_errors _ _ _ d Hd).
    + unfold rejection_error, errors_or_messages. now rewrite Hf, Hm.
    + right. rewrite Hm. discriminate.
Qed.

End MoreQueryFacts.

(** An empty [field_errors] hides the message that came with it. *)
Lemma field_errors_hide_messages_witness :
  query Examples.stringify
    (Examples.answers
       (Examples.reply (Some (lit "An answer.")) (Some [])
          (Some []) (Some [lit "quota exceeded"])))
    Examples.service (lit "why?")
  = Throw (ThrownError (lit "Invalid response from Vectara: []")).
Proof.
  apply (proj1
           (field_errors_hide_messages Examples.stringify
              (Examples.answers
                 (Examples.reply (Some (lit "An answer.")) (Some [])
                    (Some []) (Some [lit "quota exceeded"])))
              Examples.service (lit "why?") _ _ eq_refl eq_refl) [] eq_refl).
Defined.

Lemma query_return_inversion_witness :
  exists response d results,
    Examples.answers
      (Examples.reply (Some (lit "An answer.")) (Some Examples.twin_results)
         None None)
      (apiUrl Examples.service)
      (build_payload Examples.stringify (config Examples.service) (lit "why?"))
      (build_headers (config Examples.service))
    = Return response
    /\ data response = Some d
    /\ field_errors d = None
    /\ messages d = None
    /\ summary d = Some (lit "An answer.")
    /\ lit "An answer." <> []
    /\ destructured (search_results d) [] = Some (map Some results)
    /\ [Examples.source "A" "https://a.example/"]
       = derive_sources (config Examples.service) results
    /\ 1 <= length results.
Proof.
  apply (query_return_inversion Examples.stringify
           (Examples.answers
              (Examples.reply (Some (lit "An answer."))
                 (Some Examples.twin_results) None None))
           Examples.service (lit "why?")
           {| qr_summary := lit "An answer.";
              qr_sources := [Examples.source "A" "https://a.example/"] |}).
  reflexivity.
Defined.

(** A service built by the constructor makes its request to the fixed
    address with the configured key in the [x-api-key] header and the
    question as the query; the outcome of [query] depends on the transport
    through the answer to that one request only.  The cutoff sent to the
    reranker is the cutoff of the local filter, and the limit of the
    reranker is the number of results the generation may use. *)
Theorem query_request
    (stringify : json -> js_string) (c : VectaraConfig) (question : js_string) :
  let self := constructor c in
  let payload := build_payload stringify (config self) question in
  let headers := build_headers (config self) in
  (forall post1 post2,
     post1 (lit "https://api.vectara.io/v2/query") payload headers
     = post2 (lit "https://api.vectara.io/v2/query") payload headers ->
     query stringify post1 self question = query stringify post2 self question)
  /\ x_api_key headers = apiKey c
  /\ p_query payload = question
  /\ corpora (p_search payload) = [ {| corpus_key := corpusKey c |} ]
  /\ (forall r, passes_cutoff (config self) r
                = geb (score_or_zero r) (rr_cutoff (reranker (p_search payload))))
  /\ (forall g, p_generation payload = Some g ->
        max_used_search_results g = rr_limit (reranker (p_search payload))).
Proof.
  cbv zeta. repeat match goal with |- _ /\ _ => split end; try reflexivity.
  - intros post1 post2 H. unfold query. cbn [apiUrl constructor].
    now rewrite H.
  - intros g [= <-]. reflexivity.
Qed.

Lemma query_request_witness :
  query Examples.stringify
    (Examples.answers (Examples.reply (Some (lit "An answer.")) None None None))
    (constructor Examples.bare_config) (lit "why?")
  = query Examples.stringify
      (fun u _ _ =>
         if str_eqb u (lit "https://api.vectara.io/v2/query")
         then Return (Examples.reply (Some (lit "An answer.")) None None None)
         else Throw (ThrownAxiosError Examples.connection_refused))
      (constructor Examples.bare_config) (lit "why?").
Proof.
  apply (proj1 (query_request Examples.stringify Examples.bare_config (lit "why?"))).
  reflexivity.
Defined.

(* ================================================================== *)
(** * Further properties of the text formatter                         *)
(* ================================================================== *)

(** X6: [formatSources] gives the empty string only for an absent or empty
    list; a list of one to fifteen sources is rendered whole, the header
    (two line feeds and "*Sources:*") first and then, for each source in
    the order given, a line feed, the bullet sign, a space and
    "<url|title>", so with as many bullet signs as sources when no url or
    title contains one. *)
Theorem formatSources_small (l : list Source) :
  (formatSources (Some l) = [] <-> l = [])
  /\ (l <> [] -> length l <= 15 ->
      formatSources (Some l)
      = [10%N; 10%N] ++ lit "*Sources:*"
        ++ concat
             (map (fun s => [10%N; 8226%N] ++ lit " <" ++ url s ++ lit "|"
                            ++ title s ++ lit ">")
                  l)
      /\ ((forall s, In s l -> ~ In 8226%N (url s) /\ ~ In 8226%N (title s)) ->
          count_occ N.eq_dec (formatSources (Some l)) 8226%N = length l)).
Proof.
  destruct l as [|s l].
  - split; [tauto|]. intros H. contradiction.
  - split.
    + rewrite formatSources_nonempty. split; discriminate.
    + intros _ Hlen. rewrite formatSources_nonempty, firstn_all2 by exact Hlen.
      split; [reflexivity|].
      intros Hclean. pose proof (count_bullet_signs _ Hclean) as Hc.
      unfold js_string, code_unit in *.
      rewrite count_occ_app, Hc. reflexivity.
Qed.

Lemma formatSources_small_witness :
  formatSources (Some [Examples.source "t1" "u1"; Examples.source "t2" "u2"])
  = [10%N; 10%N] ++ lit "*Sources:*"
    ++ [10%N; 8226%N] ++ lit " <u1|t1>" ++ [10%N; 8226%N] ++ lit " <u2|t2>"
  /\ count_occ N.eq_dec
       (formatSources (Some [Examples.source "t1" "u1"; Examples.source "t2" "u2"]))
       8226%N
     = 2.
Proof.
  destruct (proj2 (formatSources_small
                     [Examples.source "t1" "u1"; Examples.source "t2" "u2"]))
    as (Hfmt & Hcount).
  - discriminate.
  - simpl. lia.
  - split; [exact Hfmt|]. apply Hcount. intros s Hs. simpl in Hs.
    repeat (destruct Hs as [<-|Hs];
            [split; intros Hin; vm_compute in Hin; intuition discriminate|]).
    destruct Hs.
Defined.

(* ------------------------------------------------------------------ *)
(** ** What a match consumes                                           *)
(* ------------------------------------------------------------------ *)

Lemma caps_within_le n m cs : n <= m -> caps_within n cs -> caps_within m cs.
Proof.
  intros Hnm H. unfold caps_within in *. eapply Forall_impl; [|exact H].
  simpl. intros it Hit. lia.
Qed.

Lemma lazy_star_sound k cont (s : js_string) :
  forall p cs st',
    lazy_star k cont p cs s = Some st' ->
    exists consumed s1 p1,
      s = consumed ++ s1 /\ cont (MState p1 s1 cs) = Some st'.
Proof.
  induction s as [|c s IH]; intros p cs st' H; cbn [lazy_star] in H.
  - destruct (cont (MState p [] cs)) eqn:E; [|discriminate].
    injection H as <-. exists [], [], p. split; [reflexivity | exact E].
  - destruct (cont (MState p (c :: s) cs)) eqn:E.
    + injection H as <-. exists [], (c :: s), p. split; [reflexivity | exact E].
    + destruct (cls_match k c); [|discriminate].
      apply IH in H as (consumed & s1 & p1 & -> & H).
      exists (c :: consumed), s1, p1. split; [reflexivity | exact H].
Qed.

Lemma repeat_greedy_sound k cont (hi : nat) :
  forall lo p cs (s : js_string) st',
    repeat_greedy k lo hi cont p cs s = Some st' ->
    exists consumed s1 p1,
      s = consumed ++ s1 /\ cont (MState p1 s1 cs) = Some st'.
Proof.
  induction hi as [|hi IH]; intros lo p cs s st' H; cbn [repeat_greedy] in H.
  - destruct (Nat.eqb lo 0); [|discriminate].
    exists [], s, p. split; [reflexivity | exact H].
  - assert (Hstop : (if Nat.eqb lo 0 then cont (MState p s cs) else None) = Some st' ->
                    exists consumed s1 p1,
                      s = consumed ++ s1 /\ cont (MState p1 s1 cs) = Some st').
    { intros Hs. destruct (Nat.eqb lo 0); [|discriminate].
      exists [], s, p. split; [reflexivity | exact Hs]. }
    destruct s as [|c s]; [now apply Hstop|].
    destruct (cls_match k c); [|now apply Hstop].
    destruct (repeat_greedy k (Nat.pred lo) hi cont (Some c) cs s) eqn:E;
      [|now apply Hstop].
    injection H as <-.
    apply IH in E as (consumed & s1 & p1 & -> & E).
    exists (c :: consumed), s1, p1. split; [reflexivity | exact E].
Qed.

(** A successful run hands its continuation a state reached by consuming a
    prefix of the input, with captures no longer than that prefix. *)
Lemma run_sound (r : regex) :
  forall cont st st',
    run r cont st = Some st' ->
    exists st1 consumed new,
      rest st = consumed ++ rest st1
      /\ caps st1 = new ++ caps st
      /\ caps_within (length consumed) new
      /\ cont st1 = Some st'.
Proof.
  induction r as [k| |k|k lo hi|i r IH|r1 IH1 r2 IH2];
    intros cont st st' H; cbn [run] in H.
  - destruct (rest st) as [|c s'] eqn:Hr; [discriminate|].
    destruct (cls_match k c); [|discriminate].
    exists (MState (Some c) s' (caps st)), [c], [].
    repeat split; try assumption; constructor.
  - destruct (at_line_start (prev st)); [|discriminate].
    exists st, [], []. repeat split; try assumption; constructor.
  - apply lazy_star_sound in H as (consumed & s1 & p1 & Hs & H).
    exists (MState p1 s1 (caps st)), consumed, [].
    repeat split; try assumption; constructor.
  - apply repeat_greedy_sound in H as (consumed & s1 & p1 & Hs & H).
    exists (MState p1 s1 (caps st)), consumed, [].
    repeat split; try assumption; constructor.
  - apply IH in H as (st1 & consumed & new & Hs & Hc & Hw & H).
    exists (MState (prev st1) (rest st1)
              ((i, firstn (length (rest st) - length (rest st1)) (rest st))
               :: caps st1)),
      consumed, ((i, consumed) :: new).
    cbn [rest caps]. split; [exact Hs|]. split; [|split].
    + rewrite Hc. cbn [app]. do 2 f_equal.
      rewrite Hs, length_app, Nat.add_sub, firstn_app, firstn_all, Nat.sub_diag.
      apply app_nil_r.
    + constructor; [simpl; lia | exact Hw].
    + exact H.
  - apply IH1 in H as (st1 & c1 & new1 & Hs1 & Hc1 & Hw1 & H).
    apply IH2 in H as (st2 & c2 & new2 & Hs2 & Hc2 & Hw2 & H).
    exists st2, (c1 ++ c2), (new2 ++ new1).
    split; [now rewrite Hs1, Hs2, app_assoc|].
    split; [now rewrite Hc2, Hc1, app_assoc|].
    split; [|exact H].
    rewrite length_app. apply Forall_app. split.
    + eapply caps_within_le; [|exact Hw2]. lia.
    + eapply caps_within_le; [|exact Hw1]. lia.
Qed.

Lemma exec_sound r p (s : js_string) st :
  exec r p s = Some st ->
  length (rest st) <= length s
  /\ caps_within (length s - length (rest st)) (caps st).
Proof.
  intros H. apply run_sound in H as (st1 & consumed & new & Hs & Hc & Hw & H).
  injection H as <-. cbn [rest caps] in *. subst s.
  rewrite Hc, app_nil_r, length_app. split; [lia|].
  now rewrite Nat.add_sub.
Qed.

Lemma capture_within i n cs : caps_within n cs -> length (capture i cs) <= n.
Proof.
  induction 1 as [|[j t] cs Ht _ IH]; simpl; [lia|].
  destruct (Nat.eqb i j); [exact Ht | exact IH].
Qed.

(** A replacement that is no longer than the matched text never makes the
    string longer. *)
Lemma replace_from_length r repl :
  (forall n cs, caps_within n cs -> length (repl cs) <= n) ->
  forall (s : js_string) skip p,
    length (replace_from r repl skip p s) <= length s - skip.
Proof.
  intros Hrepl. induction s as [|c s IH]; intros skip p.
  - destruct skip as [|k]; cbn [replace_from]; [|simpl; lia].
    destruct (exec r p []) as [st|] eqn:E; [|simpl; lia].
    apply exec_sound in E as [_ Hw]. rewrite app_nil_r.
    apply Hrepl. exact Hw.
  - destruct skip as [|k]; cbn [replace_from].
    + destruct (exec r p (c :: s)) as [st|] eqn:E.
      * apply exec_sound in E as [Hle Hw].
        apply Hrepl in Hw.
        specialize (IH (Nat.pred (length (c :: s) - length (rest st))) (Some c)).
        rewrite !length_app.
        destruct (Nat.eqb (length (c :: s) - length (rest st)) 0) eqn:Hz.
        -- apply Nat.eqb_eq in Hz. rewrite Hz in *. cbn [length] in *. lia.
        -- apply Nat.eqb_neq in Hz. cbn [length] in *. lia.
      * specialize (IH 0 (Some c)). cbn [length] in *. lia.
    + specialize (IH k (Some c)). cbn [length] in *. lia.
Qed.

Lemma replace_all_dollar1_length r (s : js_string) :
  length (replace_all r dollar1 s) <= length s.
Proof.
  unfold replace_all.
  etransitivity; [apply replace_from_length|lia].
  intros n cs H. now apply capture_within.
Qed.

Lemma replace_all_empty_length r (s : js_string) :
  length (replace_all r empty_repl s) <= length s.
Proof.
  unfold replace_all.
  etransitivity; [apply replace_from_length|lia].
  intros n cs H. simpl. lia.
Qed.

(* ------------------------------------------------------------------ *)
(** ** Trimming                                                        *)
(* ------------------------------------------------------------------ *)

Lemma trim_start_split (s : js_string) :
  exists ws, s = ws ++ trim_start s /\ Forall (fun c => is_space c = true) ws.
Proof.
  induction s as [|c s (ws & E & Hws)]; simpl.
  - exists []. split; [reflexivity | constructor].
  - destruct (is_space c) eqn:Hc.
    + exists (c :: ws). split; [simpl; now f_equal | now constructor].
    + exists []. split; [reflexivity | constructor].
Qed.

Lemma trim_start_clean (s : js_string) : starts_clean (trim_start s).
Proof.
  induction s as [|c s IH]; simpl; [exact I|].
  destruct (is_space c) eqn:Hc; [exact IH | exact Hc].
Qed.

Lemma trim_start_length (s : js_string) : length (trim_start s) <= length s.
Proof.
  destruct (trim_start_split s) as (ws & E & _).
  rewrite E at 2. rewrite length_app. lia.
Qed.

Lemma trim_start_id (s : js_string) : starts_clean s -> trim_start s = s.
Proof. destruct s as [|c s]; simpl; [reflexivity|]. now intros ->. Qed.

Lemma trim_start_spaces (s : js_string) :
  Forall (fun c => is_space c = true) s -> trim_start s = [].
Proof. induction 1 as [|c s Hc _ IH]; simpl; [reflexivity|]. now rewrite Hc. Qed.

Lemma trim_length (s : js_string) : length (trim s) <= length s.
Proof.
  unfold trim, trim_end. rewrite length_rev.
  etransitivity; [apply trim_start_length|].
  rewrite length_rev. apply trim_start_length.
Qed.

Lemma trim_clean (s : js_string) :
  starts_clean (trim s) /\ starts_clean (rev (trim s)).
Proof.
  unfold trim, trim_end. rewrite rev_involutive. split; [|apply trim_start_clean].
  pose proof (trim_start_clean s) as Hu.
  destruct (trim_start_split (rev (trim_start s))) as (ws & E & _).
  apply (f_equal (@rev code_unit)) in E.
  rewrite rev_involutive, rev_app_distr in E.
  destruct (rev (trim_start (rev (trim_start s)))) as [|c v]; [exact I|].
  rewrite E in Hu. exact Hu.
Qed.

(** X7: [cleanupMarkdown] never makes the text longer. *)
Theorem cleanupMarkdown_never_longer (text : js_string) :
  length (cleanupMarkdown text) <= length text.
Proof.
  unfold cleanupMarkdown.
  etransitivity; [apply trim_length|].
  etransitivity; [apply replace_all_empty_length|].
  do 4 (etransitivity; [apply replace_all_dollar1_length|]).
  lia.
Qed.

(** X8: the result of [cleanupMarkdown] neither starts nor ends with white
    space or a line break. *)
Theorem cleanupMarkdown_trimmed (text : js_string) :
  starts_clean (cleanupMarkdown text)
  /\ starts_clean (rev (cleanupMarkdown text)).
Proof. unfold cleanupMarkdown. apply trim_clean. Qed.

(* ------------------------------------------------------------------ *)
(** ** Text without markup                                             *)
(* ------------------------------------------------------------------ *)

(** An expression that cannot start on any code unit of the text, nor
    match the empty rest, leaves the text as it is. *)
Lemma replace_all_unmarked r repl (ok : code_unit -> Prop) (s : js_string) :
  (forall p, exec r p [] = None) ->
  (forall p c s', ok c -> exec r p (c :: s') = None) ->
  Forall ok s ->
  replace_all r repl s = s.
Proof.
  intros Hnil Hcons Hs. apply replace_from_no_match.
  intros p' s1 s2 ->. destruct s2 as [|c s2]; [apply Hnil|].
  apply Hcons. apply Forall_app in Hs as [_ Hs]. now inversion Hs.
Qed.

Lemma exec_bold_other p c (s : js_string) :
  c <> 42%N -> exec re_bold p (c :: s) = None.
Proof.
  intros H. unfold exec, re_bold, star. cbn [run rest cls_match].
  apply N.eqb_neq in H. now rewrite H.
Qed.

Lemma exec_underscores_other p c (s : js_string) :
  c <> 95%N -> exec re_underscores p (c :: s) = None.
Proof.
  intros H. unfold exec, re_underscores, underscore.
  cbn [run rest caps prev repeat_greedy cls_match Nat.eqb].
  apply N.eqb_neq in H. now rewrite H.
Qed.

Lemma exec_heading_other p c (s : js_string) :
  c <> 35%N -> exec re_heading p (c :: s) = None.
Proof.
  intros H. unfold exec, re_heading, hash. cbn [run prev].
  destruct (at_line_start p); [|reflexivity].
  cbn [run rest caps prev repeat_greedy cls_match Nat.eqb].
  apply N.eqb_neq in H. now rewrite H.
Qed.

Lemma exec_heading_nil p : exec re_heading p [] = None.
Proof.
  unfold exec, re_heading. cbn [run prev].
  destruct (at_line_start p); reflexivity.
Qed.

Lemma cleanupMarkdown_unmarked (text : js_string) :
  markup_free text -> cleanupMarkdown text = trim text.
Proof.
  intros Hfree. unfold markup_free in Hfree. unfold cleanupMarkdown.
  rewrite (replace_all_unmarked re_bold dollar1 (fun c => c <> 42%N));
    [|reflexivity | intros; now apply exec_bold_other
     |eapply Forall_impl; [|exact Hfree]; simpl; tauto].
  rewrite re_italic_paired, replace_paired_unmarked;
    [|eapply Forall_impl; [|exact Hfree]; simpl; tauto].
  rewrite re_code_paired, replace_paired_unmarked;
    [|eapply Forall_impl; [|exact Hfree]; simpl; tauto].
  rewrite (replace_all_unmarked re_underscores dollar1 (fun c => c <> 95%N));
    [|reflexivity | intros; now apply exec_underscores_other
     |eapply Forall_impl; [|exact Hfree]; simpl; tauto].
  rewrite (replace_all_unmarked re_heading empty_repl (fun c => c <> 35%N));
    [|apply exec_heading_nil | intros; now apply exec_heading_other
     |eapply Forall_impl; [|exact Hfree]; simpl; tauto].
  reflexivity.
Qed.

(** X9: on a text without star, backtick, underscore and hash,
    [cleanupMarkdown] only trims; in particular such a text that neither
    starts nor ends with white space comes back unchanged. *)
Theorem cleanupMarkdown_plain (text : js_string) :
  markup_free text ->
  cleanupMarkdown text = trim text
  /\ (starts_clean text -> starts_clean (rev text) -> cleanupMarkdown text = text).
Proof.
  intros Hfree. rewrite (cleanupMarkdown_unmarked text Hfree).
  split; [reflexivity|].
  intros Hs He. unfold trim, trim_end.
  rewrite (trim_start_id text Hs), (trim_start_id (rev text) He).
  apply rev_involutive.
Qed.

Lemma cleanupMarkdown_plain_witness :
  cleanupMarkdown (lit "  plain text. ") = trim (lit "  plain text. ").
Proof.
  assert (H : markup_free (lit "  plain text. "))
    by (unfold markup_free; repeat constructor; discriminate).
  apply (proj1 (cleanupMarkdown_plain (lit "  plain text. ") H)).
Defined.

(* ------------------------------------------------------------------ *)
(** ** The reply built from a query result                             *)
(* ------------------------------------------------------------------ *)

Lemma space_not_markup (c : code_unit) :
  is_space c = true -> c <> 42%N /\ c <> 96%N /\ c <> 95%N /\ c <> 35%N.
Proof.
  intros H. repeat split; intros ->; vm_compute in H; discriminate.
Qed.


(* ------------------------------------------------------------------ *)
(** ** What each pass of [cleanupMarkdown] removes                     *)
(* ------------------------------------------------------------------ *)

(** The scan copies a prefix on which the expression cannot start. *)
Lemma replace_from_prefix r repl (pre x : js_string) :
  forall p,
    (forall p' c s', In c pre -> exec r p' (c :: s') = None) ->
    replace_from r repl 0 p (pre ++ x)
    = pre ++ replace_from r repl 0 (prev_after p pre) x.
Proof.
  induction pre as [|c pre IH]; intros p H; [reflexivity|].
  cbn [app replace_from]. rewrite (H p c (pre ++ x) (or_introl eq_refl)).
  rewrite prev_after_cons. f_equal. apply IH.
  intros p' c' s' Hc'. apply H. now right.
Qed.

(** One match [m], with capture [t], between a prefix and a rest on which
    the expression cannot start: the match is replaced by the capture. *)
Lemma replace_one_match r (d : code_unit) (pre m t post : js_string) q :
  (forall p, exec r p [] = None) ->
  (forall p c s, c <> d -> exec r p (c :: s) = None) ->
  m <> [] ->
  (forall p, exec r p (m ++ post) = Some (MState q post [(1, t)])) ->
  free_of d pre -> free_of d post ->
  replace_all r dollar1 (pre ++ m ++ post) = pre ++ t ++ post.
Proof.
  intros Hnil Hother Hm Hmatch Hpre Hpost. unfold replace_all.
  rewrite replace_from_prefix.
  2:{ intros p' c s' Hc. apply Hother.
      unfold free_of in Hpre. rewrite Forall_forall in Hpre. now apply Hpre. }
  f_equal.
  destruct m as [|c m]; [contradiction|].
  cbn [app].
  rewrite (replace_from_match r dollar1 _ c (m ++ post) _ (length m)
             (Hmatch _)).
  2:{ cbn [rest length]. rewrite length_app. unfold js_string, code_unit. lia. }
  rewrite replace_from_skip. unfold dollar1. cbn [caps capture Nat.eqb].
  f_equal. apply replace_from_no_match.
  intros p' s1 s2 ->. destruct s2 as [|c2 s2]; [apply Hnil|].
  apply Hother.
  unfold free_of in Hpost. apply Forall_app in Hpost as [_ Hpost].
  now inversion Hpost.
Qed.

Lemma exec_paired_ctx d p (t post : js_string) :
  Forall (fun c => c <> d /\ is_line_terminator c = false) t ->
  exec (paired d) p ((d :: t ++ [d]) ++ post)
  = Some (MState (Some d) post [(1, t)]).
Proof.
  intros Ht. unfold exec, paired. cbn [app run rest caps prev cls_match].
  rewrite N.eqb_refl. cbn [run rest caps prev].
  rewrite <- app_assoc. rewrite lazy_star_skip.
  - cbn [app lazy_star rest caps prev cls_match]. rewrite N.eqb_refl.
    rewrite !length_app. cbn [length].
    replace (length t + S (length post) - S (length post)) with (length t) by lia.
    now rewrite firstn_app, firstn_all, Nat.sub_diag, app_nil_r.
  - eapply Forall_impl; [|exact Ht]. intros c [_ H]. simpl. now rewrite H.
  - intros p' c s' Hc. cbn [rest caps prev cls_match].
    rewrite Forall_forall in Ht. destruct (Ht c Hc) as [Hd _].
    apply N.eqb_neq in Hd. now rewrite Hd.
Qed.

Lemma exec_paired_nil d p : exec (paired d) p [] = None.
Proof. reflexivity. Qed.

Lemma exec_paired_char d p c (s : js_string) :
  c <> d -> exec (paired d) p (c :: s) = None.
Proof. intros H. now apply (exec_paired_other d p (c :: s)). Qed.

(** A pair of delimiters around a text without delimiter or line break is
    removed, wherever it stands in a text that has no other delimiter. *)
Lemma replace_paired_ctx (d : code_unit) (pre t post : js_string) :
  free_of d pre -> free_of d t -> one_line t -> free_of d post ->
  replace_all (paired d) dollar1 (pre ++ [d] ++ t ++ [d] ++ post)
  = pre ++ t ++ post.
Proof.
  intros Hpre Ht Hl Hpost.
  assert (Ht' : Forall (fun c => c <> d /\ is_line_terminator c = false) t).
  { unfold free_of, one_line in *. rewrite Forall_forall in *. intros c Hc.
    split; [now apply Ht | now apply Hl]. }
  replace (pre ++ [d] ++ t ++ [d] ++ post)
    with (pre ++ (d :: t ++ [d]) ++ post)
    by (cbn [app]; now rewrite <- app_assoc).
  apply (replace_one_match _ d _ _ _ _ (Some d)); try assumption.
  - apply exec_paired_nil.
  - intros; now apply exec_paired_char.
  - discriminate.
  - intros p. now apply exec_paired_ctx.
Qed.

Lemma exec_bold_ctx p (t post : js_string) :
  Forall (fun c => c <> 42%N /\ is_line_terminator c = false) t ->
  exec re_bold p ((42%N :: 42%N :: t ++ [42%N; 42%N]) ++ post)
  = Some (MState (Some 42%N) post [(1, t)]).
Proof.
  intros Ht. unfold exec, re_bold, star. cbn [app run rest caps prev cls_match].
  change (N.eqb 42 42) with true. cbn iota.
  rewrite <- app_assoc. rewrite lazy_star_skip.
  - cbn [app lazy_star rest caps prev]. change (N.eqb 42 42) with true. cbn iota.
    rewrite !length_app. cbn [length].
    replace (length t + S (S (length post)) - S (S (length post)))
      with (length t) by lia.
    now rewrite firstn_app, firstn_all, Nat.sub_diag, app_nil_r.
  - eapply Forall_impl; [|exact Ht]. intros c [_ H]. simpl. now rewrite H.
  - intros p' c s' Hc. cbn [rest].
    rewrite Forall_forall in Ht. destruct (Ht c Hc) as [Hd _].
    apply N.eqb_neq in Hd. now rewrite Hd.
Qed.

(** [**t**] becomes [t], wherever it stands in a text without other
    star. *)
Lemma replace_bold_ctx (pre t post : js_string) :
  free_of 42%N pre -> free_of 42%N t -> one_line t -> free_of 42%N post ->
  replace_all re_bold dollar1 (pre ++ lit "**" ++ t ++ lit "**" ++ post)
  = pre ++ t ++ post.
Proof.
  intros Hpre Ht Hl Hpost.
  assert (Ht' : Forall (fun c => c <> 42%N /\ is_line_terminator c = false) t).
  { unfold free_of, one_line in *. rewrite Forall_forall in *. intros c Hc.
    split; [now apply Ht | now apply Hl]. }
  replace (pre ++ lit "**" ++ t ++ lit "**" ++ post)
    with (pre ++ (42%N :: 42%N :: t ++ [42%N; 42%N]) ++ post)
    by (cbn [app lit]; now rewrite <- app_assoc).
  apply (replace_one_match _ 42%N _ _ _ _ (Some 42%N)); try assumption.
  - reflexivity.
  - intros; now apply exec_bold_other.
  - discriminate.
  - intros p. now apply exec_bold_ctx.
Qed.

Lemma exec_underscores_ctx p (t post : js_string) :
  Forall (fun c => c <> 95%N /\ is_line_terminator c = false) t ->
  exec re_underscores p ((95%N :: 95%N :: t ++ [95%N; 95%N]) ++ post)
  = Some (MState (Some 95%N) post [(1, t)]).
Proof.
  intros Ht. unfold exec, re_underscores, underscore.
  cbn [app run rest caps prev repeat_greedy cls_match Nat.eqb Nat.pred].
  change (N.eqb 95 95) with true. cbn iota.
  rewrite <- app_assoc. rewrite lazy_star_skip.
  - cbn [app lazy_star rest caps prev repeat_greedy cls_match Nat.eqb Nat.pred].
    change (N.eqb 95 95) with true. cbn iota.
    rewrite !length_app. cbn [length].
    replace (length t + S (S (length post)) - S (S (length post)))
      with (length t) by lia.
    now rewrite firstn_app, firstn_all, Nat.sub_diag, app_nil_r.
  - eapply Forall_impl; [|exact Ht]. intros c [_ H]. simpl. now rewrite H.
  - intros p' c s' Hc.
    cbn [rest caps prev repeat_greedy cls_match Nat.eqb Nat.pred].
    rewrite Forall_forall in Ht. destruct (Ht c Hc) as [Hd _].
    apply N.eqb_neq in Hd. now rewrite Hd.
Qed.

(** [__t__] becomes [t], wherever it stands in a text without other
    underscore. *)
Lemma replace_underscores_ctx (pre t post : js_string) :
  free_of 95%N pre -> free_of 95%N t -> one_line t -> free_of 95%N post ->
  replace_all re_underscores dollar1 (pre ++ lit "__" ++ t ++ lit "__" ++ post)
  = pre ++ t ++ post.
Proof.
  intros Hpre Ht Hl Hpost.
  assert (Ht' : Forall (fun c => c <> 95%N /\ is_line_terminator c = false) t).
  { unfold free_of, one_line in *. rewrite Forall_forall in *. intros c Hc.
    split; [now apply Ht | now apply Hl]. }
  replace (pre ++ lit "__" ++ t ++ lit "__" ++ post)
    with (pre ++ (95%N :: 95%N :: t ++ [95%N; 95%N]) ++ post)
    by (cbn [app lit]; now rewrite <- app_assoc).
  apply (replace_one_match _ 95%N _ _ _ _ (Some 95%N)); try assumption.
  - reflexivity.
  - intros; now apply exec_underscores_other.
  - discriminate.
  - intros p. now apply exec_underscores_ctx.
Qed.

Lemma exec_heading_ctx (k : nat) p (t : js_string) :
  1 <= k <= 6 ->
  at_line_start p = true ->
  exec re_heading p (repeat 35%N k ++ 32%N :: t) = Some (MState (Some 32%N) t []).
Proof.
  intros Hk Hp. unfold exec, re_heading. cbn [run prev]. rewrite Hp.
  destruct k as [|[|[|[|[|[|[|k]]]]]]]; try lia; reflexivity.
Qed.

(** One to six marks and a space at the start of a line are removed,
    whatever comes before the line, when no mark does. *)
Lemma replace_heading_ctx (pre : js_string) (k : nat) (t : js_string) :
  free_of 35%N pre ->
  at_line_start (prev_after None pre) = true ->
  1 <= k <= 6 ->
  one_line t ->
  replace_all re_heading empty_repl (pre ++ repeat 35%N k ++ 32%N :: t)
  = pre ++ t.
Proof.
  intros Hpre Hstart Hk Ht. unfold replace_all.
  rewrite replace_from_prefix.
  2:{ intros p' c s' Hc. apply exec_heading_other.
      unfold free_of in Hpre. rewrite Forall_forall in Hpre. now apply Hpre. }
  f_equal.
  destruct k as [|k]; [lia|].
  change (repeat 35%N (S k) ++ 32%N :: t)
    with (35%N :: (repeat 35%N k ++ 32%N :: t)).
  rewrite (replace_from_match _ _ _ 35%N (repeat 35%N k ++ 32%N :: t) _
             (length (repeat 35%N k ++ [32%N]))
             (exec_heading_ctx (S k) _ t Hk Hstart)).
  - replace (repeat 35%N k ++ 32%N :: t) with ((repeat 35%N k ++ [32%N]) ++ t)
      by now rewrite <- app_assoc.
    rewrite replace_from_skip. cbn [empty_repl app].
    unfold prev_after. rewrite rev_app_distr. cbn [rev app].
    now apply replace_heading_inside.
  - cbn [rest length]. rewrite !length_app. cbn [length].
    unfold js_string, code_unit. lia.
Qed.

Lemma prev_after_line_feed p (a : js_string) :
  at_line_start (prev_after p (a ++ [LF])) = true.
Proof. unfold prev_after. rewrite rev_app_distr. reflexivity. Qed.

(** The passes leave a text without their delimiter as it is. *)
Lemma bold_unmarked (s : js_string) :
  free_of 42%N s -> replace_all re_bold dollar1 s = s.
Proof.
  intros H. apply (replace_all_unmarked _ _ (fun c => c <> 42%N));
    [reflexivity | intros; now apply exec_bold_other | exact H].
Qed.

Lemma italic_unmarked (s : js_string) :
  free_of 42%N s -> replace_all re_italic dollar1 s = s.
Proof. intros H. rewrite re_italic_paired. now apply replace_paired_unmarked. Qed.

Lemma code_unmarked (s : js_string) :
  free_of 96%N s -> replace_all re_code dollar1 s = s.
Proof. intros H. rewrite re_code_paired. now apply replace_paired_unmarked. Qed.

Lemma underscores_unmarked (s : js_string) :
  free_of 95%N s -> replace_all re_underscores dollar1 s = s.
Proof.
  intros H. apply (replace_all_unmarked _ _ (fun c => c <> 95%N));
    [reflexivity | intros; now apply exec_underscores_other | exact H].
Qed.

Lemma heading_unmarked (s : js_string) :
  free_of 35%N s -> replace_all re_heading empty_repl s = s.
Proof.
  intros H. apply (replace_all_unmarked _ _ (fun c => c <> 35%N));
    [apply exec_heading_nil | intros; now apply exec_heading_other | exact H].
Qed.

(** A single star is no start of a bold pair. *)
Lemma exec_bold_single p (s : js_string) :
  match s with [] => True | c :: _ => c <> 42%N end ->
  exec re_bold p (42%N :: s) = None.
Proof.
  intros H. unfold exec, re_bold, star. cbn [run rest caps prev cls_match].
  change (N.eqb 42 42) with true. cbn iota.
  destruct s as [|c s]; [reflexivity|].
  cbn [run rest caps prev cls_match]. apply N.eqb_neq in H. now rewrite H.
Qed.

(** The bold pass leaves a pair of single stars alone. *)
Lemma bold_keeps_single_stars (pre t post : js_string) :
  free_of 42%N pre -> free_of 42%N t -> t <> [] -> free_of 42%N post ->
  replace_all re_bold dollar1 (pre ++ [42%N] ++ t ++ [42%N] ++ post)
  = pre ++ [42%N] ++ t ++ [42%N] ++ post.
Proof.
  intros Hpre Ht Hne Hpost. unfold replace_all.
  assert (Hskip : forall s : js_string, free_of 42%N s ->
            forall p' c s', In c s -> exec re_bold p' (c :: s') = None).
  { intros s Hs p' c s' Hc. apply exec_bold_other.
    unfold free_of in Hs. rewrite Forall_forall in Hs. now apply Hs. }
  rewrite replace_from_prefix by now apply Hskip.
  f_equal. cbn [app replace_from].
  rewrite exec_bold_single.
  2:{ destruct t as [|c t]; [contradiction|]. cbn [app]. now inversion Ht. }
  f_equal. rewrite replace_from_prefix by now apply Hskip.
  f_equal. cbn [replace_from].
  rewrite exec_bold_single.
  2:{ destruct post as [|c post]; [exact I|]. now inversion Hpost. }
  f_equal. apply replace_from_no_match.
  intros p' s1 s2 ->. destruct s2 as [|c2 s2]; [reflexivity|].
  apply exec_bold_other. apply Forall_app in Hpost as [_ Hpost].
  now inversion Hpost.
Qed.

(** Trimming a text between white space gives the text. *)
Lemma trim_start_blank (ws s : js_string) :
  blank ws -> trim_start (ws ++ s) = trim_start s.
Proof.
  induction 1 as [|c ws Hc _ IH]; [reflexivity|]. cbn [app trim_start].
  now rewrite Hc.
Qed.

Lemma trim_padded (ws1 t ws2 : js_string) :
  blank ws1 -> blank ws2 -> clean_ends t ->
  trim (ws1 ++ t ++ ws2) = t.
Proof.
  intros H1 H2 [Hs He]. unfold trim, trim_end.
  rewrite (trim_start_blank ws1 _ H1).
  destruct t as [|c t].
  - cbn [app]. rewrite (trim_start_spaces ws2 H2). reflexivity.
  - assert (E : trim_start ((c :: t) ++ ws2) = (c :: t) ++ ws2).
    { apply trim_start_id. exact Hs. }
    rewrite E, rev_app_distr, trim_start_blank.
    + rewrite (trim_start_id _ He). apply rev_involutive.
    + unfold blank in *. now apply Forall_rev.
Qed.

Lemma blank_free (d : code_unit) (ws : js_string) :
  d = 42%N \/ d = 96%N \/ d = 95%N \/ d = 35%N ->
  blank ws -> free_of d ws.
Proof.
  intros Hd H. unfold blank, free_of in *. eapply Forall_impl; [|exact H].
  intros c Hc. apply space_not_markup in Hc.
  destruct Hd as [-> | [-> | [-> | ->]]]; tauto.
Qed.

Lemma markup_free_free (d : code_unit) (t : js_string) :
  d = 42%N \/ d = 96%N \/ d = 95%N \/ d = 35%N ->
  markup_free t -> free_of d t.
Proof.
  intros Hd H. unfold markup_free, free_of in *. eapply Forall_impl; [|exact H].
  cbv beta. intros c Hc. destruct Hd as [-> | [-> | [-> | ->]]]; tauto.
Qed.

Lemma free_of_app d (a b : js_string) :
  free_of d a -> free_of d b -> free_of d (a ++ b).
Proof. intros Ha Hb. apply Forall_app. now split. Qed.

Lemma free_of_padded d (ws1 t ws2 : js_string) :
  d = 42%N \/ d = 96%N \/ d = 95%N \/ d = 35%N ->
  blank ws1 -> markup_free t -> blank ws2 -> free_of d (ws1 ++ t ++ ws2).
Proof.
  intros Hd H1 Ht H2. repeat apply free_of_app;
    [now apply blank_free | now apply markup_free_free | now apply blank_free].
Qed.

Ltac kind := solve [ now left | right; now left | right; right; now left
                   | right; right; now right ].

(** What [cleanupMarkdown] does to one marked stretch of text [t] (no
    markup sign and no line break inside, no white space at its ends)
    between white space. *)
Lemma cleanupMarkdown_bold (ws1 t ws2 : js_string) :
  blank ws1 -> blank ws2 -> markup_free t -> one_line t -> clean_ends t ->
  cleanupMarkdown (ws1 ++ lit "**" ++ t ++ lit "**" ++ ws2) = t.
Proof.
  intros H1 H2 Hf Hl Hc. unfold cleanupMarkdown.
  rewrite replace_bold_ctx;
    [|apply blank_free; [kind|assumption]
     |apply markup_free_free; [kind|assumption]
     |assumption
     |apply blank_free; [kind|assumption]].
  rewrite italic_unmarked by (apply free_of_padded; [kind|assumption..]).
  rewrite code_unmarked by (apply free_of_padded; [kind|assumption..]).
  rewrite underscores_unmarked by (apply free_of_padded; [kind|assumption..]).
  rewrite heading_unmarked by (apply free_of_padded; [kind|assumption..]).
  now apply trim_padded.
Qed.

Lemma cleanupMarkdown_italic (ws1 t ws2 : js_string) :
  blank ws1 -> blank ws2 -> markup_free t -> one_line t -> clean_ends t ->
  t <> [] ->
  cleanupMarkdown (ws1 ++ lit "*" ++ t ++ lit "*" ++ ws2) = t.
Proof.
  intros H1 H2 Hf Hl Hc Hne. unfold cleanupMarkdown.
  change (lit "*") with [42%N].
  rewrite bold_keeps_single_stars;
    [|apply blank_free; [kind|assumption]
     |apply markup_free_free; [kind|assumption]
     |assumption
     |apply blank_free; [kind|assumption]].
  rewrite re_italic_paired, replace_paired_ctx;
    [|apply blank_free; [kind|assumption]
     |apply markup_free_free; [kind|assumption]
     |assumption
     |apply blank_free; [kind|assumption]].
  rewrite code_unmarked by (apply free_of_padded; [kind|assumption..]).
  rewrite underscores_unmarked by (apply free_of_padded; [kind|assumption..]).
  rewrite heading_unmarked by (apply free_of_padded; [kind|assumption..]).
  now apply trim_padded.
Qed.

Lemma free_of_marked (d : code_unit) (ws1 o t c ws2 : js_string) :
  d = 42%N \/ d = 96%N \/ d = 95%N \/ d = 35%N ->
  blank ws1 -> markup_free t -> blank ws2 ->
  free_of d o -> free_of d c ->
  free_of d (ws1 ++ o ++ t ++ c ++ ws2).
Proof.
  intros Hd H1 Ht H2 Ho Hc. repeat apply free_of_app; try assumption;
    [now apply blank_free | now apply markup_free_free | now apply blank_free].
Qed.

Lemma cleanupMarkdown_code (ws1 t ws2 : js_string) :
  blank ws1 -> blank ws2 -> markup_free t -> one_line t -> clean_ends t ->
  cleanupMarkdown (ws1 ++ lit "`" ++ t ++ lit "`" ++ ws2) = t.
Proof.
  intros H1 H2 Hf Hl Hc. unfold cleanupMarkdown.
  assert (Hstar : free_of 42%N (ws1 ++ lit "`" ++ t ++ lit "`" ++ ws2)).
  { apply (free_of_marked 42%N); try assumption; [kind|..];
      repeat constructor; discriminate. }
  rewrite bold_unmarked, italic_unmarked by exact Hstar.
  change (lit "`") with [96%N].
  rewrite re_code_paired, replace_paired_ctx;
    [|apply blank_free; [kind|assumption]
     |apply markup_free_free; [kind|assumption]
     |assumption
     |apply blank_free; [kind|assumption]].
  rewrite underscores_unmarked by (apply free_of_padded; [kind|assumption..]).
  rewrite heading_unmarked by (apply free_of_padded; [kind|assumption..]).
  now apply trim_padded.
Qed.

Lemma cleanupMarkdown_underscores (ws1 t ws2 : js_string) :
  blank ws1 -> blank ws2 -> markup_free t -> one_line t -> clean_ends t ->
  cleanupMarkdown (ws1 ++ lit "__" ++ t ++ lit "__" ++ ws2) = t.
Proof.
  intros H1 H2 Hf Hl Hc. unfold cleanupMarkdown.
  assert (Hstar : free_of 42%N (ws1 ++ lit "__" ++ t ++ lit "__" ++ ws2)).
  { apply (free_of_marked 42%N); try assumption; [kind|..];
      repeat constructor; discriminate. }
  assert (Htick : free_of 96%N (ws1 ++ lit "__" ++ t ++ lit "__" ++ ws2)).
  { apply (free_of_marked 96%N); try assumption; [kind|..];
      repeat constructor; discriminate. }
  rewrite bold_unmarked, italic_unmarked by exact Hstar.
  rewrite code_unmarked by exact Htick.
  rewrite replace_underscores_ctx;
    [|apply blank_free; [kind|assumption]
     |apply markup_free_free; [kind|assumption]
     |assumption
     |apply blank_free; [kind|assumption]].
  rewrite heading_unmarked by (apply free_of_padded; [kind|assumption..]).
  now apply trim_padded.
Qed.

Lemma free_of_repeat (d e : code_unit) (k : nat) :
  e <> d -> free_of d (repeat e k).
Proof. intros H. induction k; simpl; constructor; assumption. Qed.

(** A heading line: one to six marks and a space before a text without
    star, backtick, underscore and line break (it may hold marks). *)
Lemma cleanupMarkdown_heading (k : nat) (t : js_string) :
  1 <= k <= 6 ->
  free_of 42%N t -> free_of 96%N t -> free_of 95%N t ->
  one_line t -> clean_ends t ->
  cleanupMarkdown (repeat 35%N k ++ lit " " ++ t) = t.
Proof.
  intros Hk Hs Hb Hu Hl [Hc1 Hc2]. unfold cleanupMarkdown.
  change (lit " " ++ t) with (32%N :: t).
  assert (Hfree : forall d, d <> 35%N -> d <> 32%N -> free_of d t ->
            free_of d (repeat 35%N k ++ 32%N :: t)).
  { intros d H35 H32 Ht. apply free_of_app; [apply free_of_repeat; congruence|].
    constructor; [congruence | exact Ht]. }
  rewrite bold_unmarked, italic_unmarked by (apply Hfree; [discriminate..|assumption]).
  rewrite code_unmarked by (apply Hfree; [discriminate..|assumption]).
  rewrite underscores_unmarked by (apply Hfree; [discriminate..|assumption]).
  rewrite (replace_heading k t Hk Hl).
  unfold trim, trim_end.
  rewrite (trim_start_id t Hc1), (trim_start_id (rev t) Hc2).
  apply rev_involutive.
Qed.

(** C8: [cleanupMarkdown] runs its passes in the order bold, italic,
    inline code, double underscore, heading marks, and trims the result.
    Each pass removes its pair of delimiters around a stretch of text on
    one line and keeps the stretch, wherever the pair stands; the heading
    pass removes one to six marks and the space after them at the start
    of the text and of any line.  So a stretch marked as bold, italic,
    code or with double underscores, or a heading line, comes back as the
    bare stretch with the white space around it trimmed.  The bold pass
    runs before the italic one, and it maps
    ["**bold** and *em* and `code`"] to ["bold and em and code"], and
    ["# Heading"], newline, ["text"] to ["Heading"], newline, ["text"]. *)
Theorem cleanupMarkdown_order_and_examples :
  (forall text,
     cleanupMarkdown text =
     trim
       (replace_all re_heading empty_repl
          (replace_all re_underscores dollar1
             (replace_all re_code dollar1
                (replace_all re_italic dollar1
                   (replace_all re_bold dollar1 text))))))
  /\ (forall pre t post,
        free_of 42%N pre -> free_of 42%N t -> one_line t -> free_of 42%N post ->
        replace_all re_bold dollar1 (pre ++ lit "**" ++ t ++ lit "**" ++ post)
        = pre ++ t ++ post)
  /\ (forall pre t post,
        free_of 42%N pre -> free_of 42%N t -> one_line t -> free_of 42%N post ->
        replace_all re_italic dollar1 (pre ++ lit "*" ++ t ++ lit "*" ++ post)
        = pre ++ t ++ post)
  /\ (forall pre t post,
        free_of 96%N pre -> free_of 96%N t -> one_line t -> free_of 96%N post ->
        replace_all re_code dollar1 (pre ++ lit "`" ++ t ++ lit "`" ++ post)
        = pre ++ t ++ post)
  /\ (forall pre t post,
        free_of 95%N pre -> free_of 95%N t -> one_line t -> free_of 95%N post ->
        replace_all re_underscores dollar1 (pre ++ lit "__" ++ t ++ lit "__" ++ post)
        = pre ++ t ++ post)
  /\ (forall k t,
        1 <= k <= 6 -> one_line t ->
        replace_all re_heading empty_repl (repeat 35%N k ++ lit " " ++ t) = t)
  /\ (forall a k t,
        free_of 35%N a -> 1 <= k <= 6 -> one_line t ->
        replace_all re_heading empty_repl
          (a ++ [LF] ++ repeat 35%N k ++ lit " " ++ t)
        = a ++ [LF] ++ t)
  /\ (forall ws1 t ws2,
        blank ws1 -> blank ws2 -> markup_free t -> one_line t -> clean_ends t ->
        cleanupMarkdown (ws1 ++ lit "**" ++ t ++ lit "**" ++ ws2) = t
        /\ (t <> [] -> cleanupMarkdown (ws1 ++ lit "*" ++ t ++ lit "*" ++ ws2) = t)
        /\ cleanupMarkdown (ws1 ++ lit "`" ++ t ++ lit "`" ++ ws2) = t
        /\ cleanupMarkdown (ws1 ++ lit "__" ++ t ++ lit "__" ++ ws2) = t
        /\ cleanupMarkdown (ws1 ++ t ++ ws2) = t)
  /\ (forall k t,
        1 <= k <= 6 ->
        free_of 42%N t -> free_of 96%N t -> free_of 95%N t ->
        one_line t -> clean_ends t ->
        cleanupMarkdown (repeat 35%N k ++ lit " " ++ t) = t)
  /\ cleanupMarkdown (lit "***a**") = lit "*a"
  /\ replace_all re_bold dollar1 (replace_all re_italic dollar1 (lit "***a**"))
     = lit "a*"
  /\ cleanupMarkdown (lit "**bold** and *em* and `code`")
     = lit "bold and em and code"
  /\ cleanupMarkdown (lit "# Heading" ++ [LF] ++ lit "text")
     = lit "Heading" ++ [LF] ++ lit "text"
  /\ cleanupMarkdown
       (lit "## a" ++ [LF] ++ lit "b # c" ++ [LF] ++ lit "####### d")
     = lit "a" ++ [LF] ++ lit "b # c" ++ [LF] ++ lit "####### d".
Proof.
  split; [reflexivity|].
  split; [exact replace_bold_ctx|].
  split.
  { intros pre t post Hpre Ht Hl Hpost. rewrite re_italic_paired.
    now apply replace_paired_ctx. }
  split.
  { intros pre t post Hpre Ht Hl Hpost. rewrite re_code_paired.
    now apply replace_paired_ctx. }
  split; [exact replace_underscores_ctx|].
  split; [intros k t Hk Hl; now apply replace_heading|].
  split.
  { intros a k t Ha Hk Hl.
    change (lit " " ++ t) with (32%N :: t).
    rewrite !app_assoc, <- (app_assoc _ (repeat 35%N k)).
    apply replace_heading_ctx; try assumption.
    - apply free_of_app; [exact Ha|]. repeat constructor. discriminate.
    - apply prev_after_line_feed. }
  split.
  { intros ws1 t ws2 H1 H2 Hf Hl Hc.
    split; [now apply cleanupMarkdown_bold|].
    split; [intros Hne; now apply cleanupMarkdown_italic|].
    split; [now apply cleanupMarkdown_code|].
    split; [now apply cleanupMarkdown_underscores|].
    rewrite cleanupMarkdown_unmarked.
    - now apply trim_padded.
    - unfold markup_free. apply Forall_app; split;
        [eapply Forall_impl; [|exact H1]; apply space_not_markup|].
      apply Forall_app; split;
        [exact Hf | eapply Forall_impl; [|exact H2]; apply space_not_markup]. }
  split; [exact cleanupMarkdown_heading|].
  repeat match goal with |- _ /\ _ => split end; vm_compute; reflexivity.
Qed.

(** A stretch with double underscores between white space and a line
    break: the marks and the white space go. *)
Lemma cleanupMarkdown_order_and_examples_witness :
  cleanupMarkdown (lit "  " ++ lit "__" ++ lit "x y" ++ lit "__" ++ lit " " ++ [LF])
  = lit "x y"
  /\ cleanupMarkdown (repeat 35%N 3 ++ lit " " ++ lit "Title # 1") = lit "Title # 1".
Proof.
  split.
  - refine (proj1 (proj2 (proj2 (proj2
              (proj1 (proj2 (proj2 (proj2 (proj2 (proj2 (proj2 (proj2
                 cleanupMarkdown_order_and_examples)))))))
                 (lit "  ") (lit "x y") (lit " " ++ [LF]) _ _ _ _ _))))).
    + repeat constructor.
    + repeat constructor.
    + unfold markup_free. repeat constructor; discriminate.
    + repeat constructor.
    + split; reflexivity.
  - refine (proj1 (proj2 (proj2 (proj2 (proj2 (proj2 (proj2 (proj2 (proj2
              cleanupMarkdown_order_and_examples))))))))
              3 (lit "Title # 1") _ _ _ _ _ _).
    + lia.
    + unfold free_of. repeat constructor; discriminate.
    + unfold free_of. repeat constructor; discriminate.
    + unfold free_of. repeat constructor; discriminate.
    + repeat constructor.
    + split; reflexivity.
Defined.

Section ReplyFacts.

Variable JSON_stringify : json -> js_string.
Variable axios_post :
  js_string -> VectaraRequestPayload -> RequestHeaders ->
  completion thrown AxiosResponse.

Local Abbreviation run_query := (query JSON_stringify axios_post).
Local Abbreviation sent self question :=
  (axios_post (apiUrl self)
     (build_payload JSON_stringify (config self) question)
     (build_headers (config self))).


End ReplyFacts.


(* ================================================================== *)
(** * The OODA AI service                                              *)
(* ================================================================== *)

Section OodaFacts.

Variable ToString : json -> js_string.
Variable null_read_message : js_string -> js_string.
Variable axios_post :
  js_string -> Ooda.RequestBody -> Ooda.Headers ->
  completion thrown Ooda.Response.

Local Abbreviation ooda_query := (Ooda.query ToString null_read_message axios_post).
Local Abbreviation ooda_sent self q :=
  (axios_post (Ooda.baseURL self ++ lit "/query")
     {| Ooda.question := q |} (Ooda.build_headers self)).

(** X12: when the transport fails with an [AxiosError], the OODA service
    throws a new error whose message is "OODA AI API error: " followed by
    the message of the upstream reply when that is a non-empty string, and
    by the error's own message when there was no reply, when the reply's
    data is not an object, or when it has no such member or an empty
    one. *)
Theorem ooda_query_wraps_axios_error
    (self : Ooda.OODAAIService) (q : js_string) (e : AxiosError) :
  ooda_sent self q = Throw (ThrownAxiosError e) ->
  (forall r l m,
     ae_response e = Some r -> e_data r = JObject l ->
     Ooda.member (lit "message") l = Some (JString m) -> m <> [] ->
     ooda_query self q = Throw (ThrownError (lit "OODA AI API error: " ++ m)))
  /\ (ae_response e = None ->
      ooda_query self q
      = Throw (ThrownError (lit "OODA AI API error: " ++ ae_message e)))
  /\ (forall r,
        ae_response e = Some r ->
        match e_data r with
        | JObject l =>
            Ooda.member (lit "message") l = None
            \/ Ooda.member (lit "message") l = Some (JString [])
        | _ => True
        end ->
        ooda_query self q
        = Throw (ThrownError (lit "OODA AI API error: " ++ ae_message e))).
Proof.
  intros Hsent. unfold Ooda.query. rewrite Hsent. cbn [bind try_catch].
  unfold Ooda.error_detail, Ooda.upstream_message.
  split; [|split].
  - intros r l m Hr Hd Hm Hne. rewrite Hr, Hd. cbn [Ooda.read]. rewrite Hm.
    destruct m as [|c m]; [contradiction|]. reflexivity.
  - intros Hr. now rewrite Hr.
  - intros r Hr Hd. rewrite Hr.
    destruct (e_data r) as [|b|n|t|a|l]; try reflexivity.
    cbn [Ooda.read]. destruct Hd as [Hm|Hm]; now rewrite Hm.
Qed.

(** X13: what the transport throws that is not an [AxiosError] is thrown
    on by the OODA service as it is. *)
Theorem ooda_query_rethrows_other
    (self : Ooda.OODAAIService) (q : js_string) (e : thrown) :
  ooda_sent self q = Throw e ->
  (forall a, e <> ThrownAxiosError a) ->
  ooda_query self q = Throw e.
Proof.
  intros Hsent Hno. unfold Ooda.query. rewrite Hsent. cbn [bind try_catch].
  destruct e as [a| | |]; [|reflexivity..].
  exfalso. now apply (Hno a).
Qed.

(** X14: the OODA service does not check the reply: for every reply whose
    data is not [null] it returns, with the [answer] and [sources] members
    of the data, absent when the data has none; only for [null] data it
    throws, the [TypeError] of the member read and not a wrapped error. *)
Theorem ooda_query_unchecked
    (self : Ooda.OODAAIService) (q : js_string) (response : Ooda.Response) :
  ooda_sent self q = Return response ->
  (Ooda.data response <> JNull ->
   ooda_query self q
   = Return {| Ooda.answer := Ooda.read (Ooda.data response) (lit "answer");
               Ooda.sources := Ooda.read (Ooda.data response) (lit "sources") |})
  /\ (Ooda.data response = JNull ->
      ooda_query self q
      = Throw (ThrownError (null_read_message (lit "answer")))).
Proof.
  intros Hsent. unfold Ooda.query. rewrite Hsent. cbn [bind try_catch]. split.
  - intros Hd. unfold Ooda.read_data.
    destruct (Ooda.data response); try reflexivity. contradiction.
  - intros ->. reflexivity.
Qed.

End OodaFacts.

Lemma ooda_query_wraps_axios_error_witness :
  Ooda.query OodaCases.to_string OodaCases.null_read
    (OodaCases.ooda_fails (ThrownAxiosError OodaCases.unauthorized))
    OodaCases.ooda_service (lit "why?")
  = Throw (ThrownError (lit "OODA AI API error: Invalid API key")).
Proof.
  apply (proj1
           (ooda_query_wraps_axios_error OodaCases.to_string OodaCases.null_read
              (OodaCases.ooda_fails (ThrownAxiosError OodaCases.unauthorized))
              OodaCases.ooda_service (lit "why?") OodaCases.unauthorized eq_refl)
           _ _ (lit "Invalid API key") eq_refl eq_refl eq_refl).
  discriminate.
Defined.

Lemma ooda_query_rethrows_other_witness :
  Ooda.query OodaCases.to_string OodaCases.null_read
    (OodaCases.ooda_fails (ThrownError (lit "write EPIPE")))
    OodaCases.ooda_service (lit "why?")
  = Throw (ThrownError (lit "write EPIPE")).
Proof.
  apply (ooda_query_rethrows_other OodaCases.to_string OodaCases.null_read
           (OodaCases.ooda_fails (ThrownError (lit "write EPIPE")))
           OodaCases.ooda_service (lit "why?") _ eq_refl).
  discriminate.
Defined.

Lemma ooda_query_unchecked_witness :
  Ooda.query OodaCases.to_string OodaCases.null_read
    (OodaCases.ooda_answers
       {| Ooda.status := 200%Z; Ooda.statusText := lit "OK";
          Ooda.data := JObject [(lit "error", JString (lit "no answer"))] |})
    OodaCases.ooda_service (lit "why?")
  = Return {| Ooda.answer := None; Ooda.sources := None |}.
Proof.
  apply (proj1
           (ooda_query_unchecked OodaCases.to_string OodaCases.null_read
              (OodaCases.ooda_answers
                 {| Ooda.status := 200%Z; Ooda.statusText := lit "OK";
                    Ooda.data := JObject [(lit "error", JString (lit "no answer"))] |})
              OodaCases.ooda_service (lit "why?") _ eq_refl)).
  discriminate.
Defined.

(* ================================================================== *)
(** * The configuration read by the service and by the application     *)
(* ================================================================== *)

(** X15: [query] reads neither the customer id nor the prompt template of
    the configuration: with any other values for the two, the same
    transport gets the same request and [query] ends the same way. *)
Theorem query_ignores_unused_settings
    (stringify : json -> js_string)
    (post : js_string -> VectaraRequestPayload -> RequestHeaders ->
            completion thrown AxiosResponse)
    (c : VectaraConfig) (id template question : js_string) :
  build_payload stringify (config (constructor (Scene.with_unused id template c)))
    question
  = build_payload stringify (config (constructor c)) question
  /\ build_headers (config (constructor (Scene.with_unused id template c)))
     = build_headers (config (constructor c))
  /\ query stringify post (constructor (Scene.with_unused id template c)) question
     = query stringify post (constructor c) question.
Proof.
  split; [reflexivity|]. split; [reflexivity|].
  unfold query. cbn [apiUrl constructor config].
  change (build_payload stringify _ question)
    with (build_payload stringify (config (constructor c)) question) at 1.
  destruct (post _ _ _) as [response|e]; [|reflexivity].
  cbn [bind try_catch]. unfold handle_response.
  destruct (data response) as [d|]; [|reflexivity].
  destruct (truthy_array (field_errors d) || truthy_array (messages d));
    [reflexivity|].
  destruct (summary d) as [[|ch s]|]; reflexivity.
Qed.

Section EnvFacts.

Variable parseInt10 : js_string -> number.
Variable parseFloat : js_string -> number.
Variable String_of : number -> js_string.

Local Abbreviation app_service := (Env.vectara parseInt10 parseFloat String_of).

(** X16: when none of the eight numeric variables is set (or each is the
    empty string), and parsing the string of a default gives the default
    back, the service of the application runs with every default of
    [VectaraQueryDefaults]. *)
Theorem unset_environment_gives_defaults (env : Env.process_env) :
  (forall x, In x [of_Z 100; of_Z 20; of_Z 300] ->
     parseInt10 (String_of x) = x) ->
  (forall x, In x [decimal 5 10; decimal 3 10; decimal 25 100; decimal 2 10] ->
     parseFloat (String_of x) = x) ->
  Forall (Scene.unset env)
    [lit "VECTARA_SEARCH_DEPTH"; lit "VECTARA_MAX_RESULTS";
     lit "VECTARA_MAX_TOKENS"; lit "VECTARA_TEMPERATURE";
     lit "VECTARA_FREQUENCY_PENALTY"; lit "VECTARA_PRESENCE_PENALTY";
     lit "VECTARA_RELEVANCE_THRESHOLD"; lit "VECTARA_DIVERSITY_BIAS"] ->
  let cfg := config (app_service env) in
  r_searchDepth cfg = of_Z 100
  /\ r_maxResults cfg = of_Z 20
  /\ r_maxTokens cfg = of_Z 300
  /\ r_maxResponseChars cfg = of_Z 4000
  /\ r_temperature cfg = decimal 5 10
  /\ r_frequencyPenalty cfg = decimal 3 10
  /\ r_presencePenalty cfg = decimal 3 10
  /\ r_relevanceThreshold cfg = decimal 25 100
  /\ r_diversityBias cfg = decimal 2 10.
Proof.
  intros Hint Hfloat Hunset.
  assert (Hor : forall name dflt, Scene.unset env name ->
                  Env.or_else (env name) dflt = dflt).
  { intros name dflt [H|H]; unfold Env.or_else; now rewrite H. }
  repeat match goal with
         | H : Forall _ (_ :: _) |- _ => inversion H; clear H; subst
         end.
  cbv zeta. unfold Env.vectara, constructor, Env.service_config.
  cbn [config r_searchDepth r_maxResults r_maxTokens r_maxResponseChars
       r_temperature r_frequencyPenalty r_presencePenalty
       r_relevanceThreshold r_diversityBias
       searchDepth maxResults maxTokens maxResponseChars temperature
       frequencyPenalty presencePenalty relevanceThreshold diversityBias
       nullish].
  rewrite !Hor by assumption.
  repeat match goal with |- _ /\ _ => split end.
  - apply Hint. simpl. tauto.
  - apply Hint. simpl. tauto.
  - apply Hint. simpl. tauto.
  - reflexivity.
  - apply Hfloat. simpl. tauto.
  - apply Hfloat. simpl. tauto.
  - apply Hfloat. simpl. tauto.
  - apply Hfloat. simpl. tauto.
  - apply Hfloat. simpl. tauto.
Qed.

(** X17: whatever the environment holds, the service of the application
    has the response length 4000 and the system prompt of
    config/prompts.ts, and a credential that is not set is the empty
    string: there is no variable for the first two, and no failure for a
    missing credential. *)
Theorem environment_cannot_change (env : Env.process_env) :
  let cfg := config (app_service env) in
  r_maxResponseChars cfg = of_Z 4000
  /\ r_prePrompt cfg = Env.SYSTEM_PROMPT
  /\ (Scene.unset env (lit "VECTARA_API_KEY") -> r_apiKey cfg = [])
  /\ (Scene.unset env (lit "VECTARA_CORPUS_KEY") -> r_corpusKey cfg = [])
  /\ (forall k, k <> [] -> env (lit "VECTARA_API_KEY") = Some k -> r_apiKey cfg = k).
Proof.
  cbv zeta. unfold Env.vectara, constructor, Env.service_config.
  cbn [config r_maxResponseChars r_prePrompt r_apiKey r_corpusKey
       maxResponseChars prePrompt apiKey corpusKey nullish].
  split; [reflexivity|]. split; [reflexivity|].
  split; [|split].
  - intros [H|H]; now rewrite H.
  - intros [H|H]; now rewrite H.
  - intros k Hk H. rewrite H. destruct k; [contradiction | reflexivity].
Qed.

End EnvFacts.

Lemma unset_environment_gives_defaults_witness :
  r_relevanceThreshold
    (config (Env.vectara Scene.parse Scene.parse Scene.string_of
               Scene.credentials_only))
  = decimal 25 100.
Proof.
  assert (H1 : forall x, In x [of_Z 100; of_Z 20; of_Z 300] ->
                 Scene.parse (Scene.string_of x) = x).
  { intros x [<-|[<-|[<-|[]]]]; reflexivity. }
  assert (H2 : forall x,
                 In x [decimal 5 10; decimal 3 10; decimal 25 100; decimal 2 10] ->
                 Scene.parse (Scene.string_of x) = x).
  { intros x [<-|[<-|[<-|[<-|[]]]]]; reflexivity. }
  assert (H3 : Forall (Scene.unset Scene.credentials_only)
                 [lit "VECTARA_SEARCH_DEPTH"; lit "VECTARA_MAX_RESULTS";
                  lit "VECTARA_MAX_TOKENS"; lit "VECTARA_TEMPERATURE";
                  lit "VECTARA_FREQUENCY_PENALTY"; lit "VECTARA_PRESENCE_PENALTY";
                  lit "VECTARA_RELEVANCE_THRESHOLD"; lit "VECTARA_DIVERSITY_BIAS"]).
  { repeat constructor. }
  apply (unset_environment_gives_defaults Scene.parse Scene.parse
           Scene.string_of Scene.credentials_only H1 H2 H3).
Defined.

Lemma environment_cannot_change_witness :
  r_apiKey (config (Env.vectara Scene.parse Scene.parse Scene.string_of
                      Scene.credentials_only))
  = lit "key".
Proof.
  apply (proj2 (proj2 (proj2 (proj2
           (environment_cannot_change Scene.parse Scene.parse Scene.string_of
              Scene.credentials_only)))) (lit "key")).
  - discriminate.
  - reflexivity.
Defined.

(* ================================================================== *)
(** * The handlers                                                     *)
(* ================================================================== *)

Lemma is_string_true (a : option js_string) (s : js_string) :
  Slack.is_string a s = true <-> a = Some s.
Proof.
  destruct a as [v|]; simpl; [|split; discriminate].
  rewrite str_eqb_eq. split; congruence.
Qed.

Lemma is_string_false (a : option js_string) (s : js_string) :
  Slack.is_string a s = false <-> a <> Some s.
Proof.
  rewrite <- is_string_true. destruct (Slack.is_string a s); split; congruence.
Qed.

(** One step of a run: unfold up to the next call. *)
Ltac step :=
  cbn [Slack.run Slack.ptry Slack.pbind Slack.await Slack.action_of app
       Slack.delete_loading].

(** Split on what the last call of a run settles to. *)
Ltac last_call :=
  match goal with
  | |- context [Slack.run _ _ (match ?x with Return _ => _ | Throw _ => _ end)] =>
      destruct x as [[]|?]; reflexivity
  end.

Section HandlerFacts.

Variable toLowerCase : js_string -> js_string.
Variable env : Slack.environment.

Local Abbreviation on_message := (Slack.message_handler toLowerCase).

(** X18: the message handler makes no call at all, and so no query, for
    an event without a message or without text, for a message outside a
    direct conversation, for a message of a bot, and for a text that
    holds "hello" in any case. *)
Theorem message_handler_ignores (message : option Slack.Message) :
  (message = None
   \/ exists m,
        message = Some m
        /\ (Slack.m_text m = None
            \/ Slack.m_text m = Some []
            \/ Slack.m_channel_type m <> Some (lit "im")
            \/ Slack.m_subtype m = Some (lit "bot_message")
            \/ exists text,
                 Slack.m_text m = Some text
                 /\ Slack.includes (lit "hello") (toLowerCase text) = true)) ->
  Slack.run env [] (on_message message) = ([], Return tt).
Proof.
  intros [->|(m & -> & H)]; [reflexivity|].
  unfold Slack.message_handler.
  destruct (Slack.m_text m) as [[|c t]|] eqn:Ht; try reflexivity.
  destruct H as [H|[H|[H|[H|(text & [= <-] & H)]]]]; try discriminate.
  - apply is_string_false in H. now rewrite H.
  - apply is_string_true in H. rewrite H, orb_true_r. reflexivity.
  - rewrite H. destruct (_ || _); reflexivity.
Qed.

Lemma message_handler_passes (m : Slack.Message) (text : js_string) :
  Scene.direct_message toLowerCase m text ->
  on_message (Some m)
  = Slack.ptry
      (Slack.pbind (Slack.await (Slack.Say (Slack.SayString (Slack.dm_notice text))))
         (fun _ =>
            Slack.pbind (Slack.await (Slack.Query text))
              (fun response =>
                 Slack.await (Slack.Say (Slack.SayObject (Slack.reply_say response))))))
      (fun error => Slack.await (Slack.Say (Slack.SayString Slack.dm_apology))).
Proof.
  intros (Ht & Hne & Hc & Hs & Hh). unfold Slack.message_handler.
  rewrite Ht. destruct text as [|c t]; [contradiction|].
  apply is_string_true in Hc. apply is_string_false in Hs.
  now rewrite Hc, Hs, Hh.
Qed.

(** X19: for a direct message that passes the checks, the handler says
    the notice with the text, queries with the text as it is, and says the
    reply built from the result, with markup on. *)
Theorem message_handler_answers
    (m : Slack.Message) (text : js_string) (res : QueryResult) :
  Scene.direct_message toLowerCase m text ->
  env unit [] (Slack.Say (Slack.SayString (Slack.dm_notice text))) = Return tt ->
  env QueryResult [Slack.ASay (Slack.SayString (Slack.dm_notice text))]
    (Slack.Query text) = Return res ->
  env unit [Slack.ASay (Slack.SayString (Slack.dm_notice text)); Slack.AQuery text]
    (Slack.Say (Slack.SayObject (Slack.reply_say res))) = Return tt ->
  Slack.run env [] (on_message (Some m))
  = ([Slack.ASay (Slack.SayString (Slack.dm_notice text));
      Slack.AQuery text;
      Slack.ASay (Slack.SayObject
        {| Slack.sa_text := replyText res;
           Slack.sa_mrkdwn := Some true;
           Slack.sa_unfurl_links := None;
           Slack.sa_unfurl_media := None;
           Slack.sa_thread_ts := None |})],
     Return tt).
Proof.
  intros Hm H1 H2 H3. rewrite (message_handler_passes m text Hm).
  step. rewrite H1. step. rewrite H2. step. rewrite H3. reflexivity.
Qed.

(** X20: when the notice, the query or the reply fails in the message
    handler, the next and last thing it does is to say the fixed apology;
    what was thrown plays no part in it. *)
Theorem message_handler_apologises
    (m : Slack.Message) (text : js_string) (e : thrown) :
  Scene.direct_message toLowerCase m text ->
  let notice := Slack.ASay (Slack.SayString (Slack.dm_notice text)) in
  let sorry := Slack.Say (Slack.SayString Slack.dm_apology) in
  (env unit [] (Slack.Say (Slack.SayString (Slack.dm_notice text))) = Throw e ->
   Slack.run env [] (on_message (Some m))
   = ([notice; Slack.action_of sorry], env unit [notice] sorry))
  /\ (env unit [] (Slack.Say (Slack.SayString (Slack.dm_notice text))) = Return tt ->
      env QueryResult [notice] (Slack.Query text) = Throw e ->
      Slack.run env [] (on_message (Some m))
      = ([notice; Slack.AQuery text; Slack.action_of sorry],
         env unit [notice; Slack.AQuery text] sorry))
  /\ (forall res,
        env unit [] (Slack.Say (Slack.SayString (Slack.dm_notice text))) = Return tt ->
        env QueryResult [notice] (Slack.Query text) = Return res ->
        env unit [notice; Slack.AQuery text]
          (Slack.Say (Slack.SayObject (Slack.reply_say res))) = Throw e ->
        Slack.run env [] (on_message (Some m))
        = ([notice; Slack.AQuery text;
            Slack.ASay (Slack.SayObject (Slack.reply_say res));
            Slack.action_of sorry],
           env unit
             [notice; Slack.AQuery text;
              Slack.ASay (Slack.SayObject (Slack.reply_say res))] sorry)).
Proof.
  intros Hm notice sorry. rewrite (message_handler_passes m text Hm).
  subst notice sorry. split; [|split].
  - intros H1.
    step.
    rewrite H1.
    step. last_call.
  - intros H1 H2.
    step.
    rewrite H1.
    step.
    rewrite H2.
    step. last_call.
  - intros res H1 H2 H3.
    step.
    rewrite H1.
    step.
    rewrite H2.
    step.
    rewrite H3.
    step. last_call.
Qed.

End HandlerFacts.

Section AskFacts.

Variable env : Slack.environment.

(** X21: a command without a question (its text is empty or white space)
    is acknowledged and answered with the usage note, if the
    acknowledgement went through, and nothing else happens: no message is
    posted and no query is made. *)
Theorem ask_command_blank (command : Slack.Command) :
  trim (Slack.c_text command) = [] ->
  Slack.run env [] (Slack.ask_command command)
  = match env unit [] Slack.Ack with
    | Return _ =>
        ([Slack.AAck; Slack.ARespond Slack.ask_usage],
         env unit [Slack.AAck] (Slack.Respond Slack.ask_usage))
    | Throw e => ([Slack.AAck], Throw e)
    end.
Proof.
  intros Hq. unfold Slack.ask_command. step.
  destruct (env unit [] Slack.Ack) as [[]|e]; [|reflexivity].
  step. rewrite Hq. step.
  destruct (env unit _ _) as [[]|e]; reflexivity.
Qed.

(** X22: a command with a question but without a channel id fails with
    "No channel ID provided" right after the acknowledgement, and a
    loading message that comes back without a timestamp fails with
    "Failed to get message timestamp from Slack"; in both cases no query
    is made. *)
Theorem ask_command_preconditions
    (command : Slack.Command) (c : code_unit) (q : js_string) :
  trim (Slack.c_text command) = c :: q ->
  env unit [] Slack.Ack = Return tt ->
  (Slack.c_channel_id command = None \/ Slack.c_channel_id command = Some [] ->
   Slack.run env [] (Slack.ask_command command)
   = ([Slack.AAck], Throw (ThrownError (lit "No channel ID provided"))))
  /\ (forall channel r,
        Slack.c_channel_id command = Some channel -> channel <> [] ->
        env Slack.PostMessageResult [Slack.AAck]
          (Slack.PostMessage (Slack.ask_loading channel (c :: q))) = Return r ->
        Slack.pr_ts r = None \/ Slack.pr_ts r = Some [] ->
        Slack.run env [] (Slack.ask_command command)
        = ([Slack.AAck; Slack.APostMessage (Slack.ask_loading channel (c :: q))],
           Throw (ThrownError (lit "Failed to get message timestamp from Slack")))).
Proof.
  intros Hq Hack. unfold Slack.ask_command. split.
  - intros Hc. step. rewrite Hack. step. rewrite Hq.
    destruct Hc as [-> | ->]; reflexivity.
  - intros channel r Hc Hne Hpost Hts. step. rewrite Hack. step. rewrite Hq, Hc.
    destruct channel as [|d channel]; [contradiction|].
    step. rewrite Hpost. step.
    destruct Hts as [-> | ->]; reflexivity.
Qed.

Lemma ask_command_opened command channel query ts :
  Scene.ask_opened env command channel query ts ->
  Slack.run env [] (Slack.ask_command command)
  = Slack.run env (Scene.ask_opening channel query)
      (Slack.ptry
         (Slack.pbind (Slack.await (Slack.Query query))
            (fun response =>
               Slack.pbind (Slack.delete_loading channel (Some ts))
                 (fun _ =>
                    Slack.pbind
                      (Slack.await
                         (Slack.PostMessage
                            (Slack.ask_result channel (replyText response))))
                      (fun _ => Slack.Ret tt))))
         (fun error =>
            Slack.pbind (Slack.delete_loading channel (Some ts))
              (fun _ =>
                 Slack.pbind
                   (Slack.await (Slack.PostMessage (Slack.ask_apology channel)))
                   (fun _ => Slack.Ret tt)))).
Proof.
  intros (Hq & Hqne & Hc & Hcne & Hts & Hack & Hpost & Hresp).
  unfold Slack.ask_command, Scene.ask_opening.
  cbn [Slack.run Slack.pbind Slack.await Slack.action_of app].
  rewrite Hack. cbn [Slack.run Slack.pbind Slack.await Slack.action_of app].
  rewrite Hq, Hc.
  destruct query as [|c q]; [contradiction|].
  destruct channel as [|d channel]; [contradiction|].
  cbn [Slack.run Slack.pbind Slack.await Slack.action_of app].
  rewrite Hpost.
  destruct ts as [|t ts]; [contradiction|].
  cbn [Slack.run Slack.pbind Slack.await Slack.action_of app Slack.pr_ts
       Slack.present truthy_string negb].
  rewrite Hresp. reflexivity.
Qed.

(** X23: once a command is under way and the query returns, the handler
    deletes the loading message, whether or not the deletion goes through,
    and posts the reply built from the result, with markup on and link
    previews off; it ends well when that post does. *)
Theorem ask_command_answers
    (command : Slack.Command) (channel query ts : js_string) (res : QueryResult) :
  Scene.ask_opened env command channel query ts ->
  let h := Scene.ask_opening channel query in
  let post := Slack.PostMessage (Slack.ask_result channel (replyText res)) in
  env QueryResult h (Slack.Query query) = Return res ->
  (forall r,
     env Slack.PostMessageResult
       (h ++ [Slack.AQuery query; Slack.ADelete (Scene.ask_delete channel ts)]) post
     = Return r ->
     Slack.run env [] (Slack.ask_command command)
     = (h ++ [Slack.AQuery query;
              Slack.ADelete (Scene.ask_delete channel ts);
              Slack.APostMessage
                {| Slack.pm_channel := channel;
                   Slack.pm_text := replyText res;
                   Slack.pm_blocks := None;
                   Slack.pm_mrkdwn := Some true;
                   Slack.pm_unfurl_links := Some false;
                   Slack.pm_unfurl_media := Some false |}],
        Return tt)).
Proof.
  intros Hopen h post Hquery r Hpost. subst h post.
  rewrite (ask_command_opened _ _ _ _ Hopen).
  destruct Hopen as (_ & _ & _ & _ & Hts & _).
  destruct ts as [|t ts]; [contradiction|].
  unfold Scene.ask_opening in *. step. rewrite Hquery. step.
  destruct (env unit _ (Slack.Delete _)) as [[]|e]; step;
    unfold Scene.ask_delete in Hpost; cbn [app] in Hpost;
    rewrite Hpost; reflexivity.
Qed.

(** X24: once a command is under way and the query throws, the handler
    deletes the loading message, whether or not the deletion goes through,
    and posts the fixed apology, with link previews off; what was thrown
    plays no part in it. *)
Theorem ask_command_apologises
    (command : Slack.Command) (channel query ts : js_string) (e : thrown) :
  Scene.ask_opened env command channel query ts ->
  let h := Scene.ask_opening channel query in
  env QueryResult h (Slack.Query query) = Throw e ->
  Slack.run env [] (Slack.ask_command command)
  = (h ++ [Slack.AQuery query;
           Slack.ADelete (Scene.ask_delete channel ts);
           Slack.APostMessage (Slack.ask_apology channel)],
     Scene.finish
       (env Slack.PostMessageResult
          (h ++ [Slack.AQuery query; Slack.ADelete (Scene.ask_delete channel ts)])
          (Slack.PostMessage (Slack.ask_apology channel)))).
Proof.
  intros Hopen h Hquery. subst h.
  rewrite (ask_command_opened _ _ _ _ Hopen).
  destruct Hopen as (_ & _ & _ & _ & Hts & _).
  destruct ts as [|t ts]; [contradiction|].
  unfold Scene.ask_opening in *. step. rewrite Hquery. step.
  unfold Scene.ask_delete. cbn [app].
  destruct (env unit _ (Slack.Delete _)) as [[]|e1]; step;
    destruct (env Slack.PostMessageResult _
                (Slack.PostMessage (Slack.ask_apology channel))) as [r|e2];
    reflexivity.
Qed.

(** X25: when the post of the reply itself fails, the handler goes
    through its failure path: it asks a second time for the loading
    message to be deleted and posts the apology. *)
Theorem ask_command_post_failure
    (command : Slack.Command) (channel query ts : js_string)
    (res : QueryResult) (e : thrown) :
  Scene.ask_opened env command channel query ts ->
  let h := Scene.ask_opening channel query in
  let delete := Slack.ADelete (Scene.ask_delete channel ts) in
  let post := Slack.PostMessage (Slack.ask_result channel (replyText res)) in
  env QueryResult h (Slack.Query query) = Return res ->
  env Slack.PostMessageResult (h ++ [Slack.AQuery query; delete]) post = Throw e ->
  Slack.run env [] (Slack.ask_command command)
  = (h ++ [Slack.AQuery query; delete; Slack.action_of post; delete;
           Slack.APostMessage (Slack.ask_apology channel)],
     Scene.finish
       (env Slack.PostMessageResult
          (h ++ [Slack.AQuery query; delete; Slack.action_of post; delete])
          (Slack.PostMessage (Slack.ask_apology channel)))).
Proof.
  intros Hopen h delete post Hquery Hpost. subst h delete post.
  rewrite (ask_command_opened _ _ _ _ Hopen).
  destruct Hopen as (_ & _ & _ & _ & Hts & _).
  destruct ts as [|t ts]; [contradiction|].
  unfold Scene.ask_opening, Scene.ask_delete in *. cbn [app] in *.
  step. rewrite Hquery. step.
  destruct (env unit _ (Slack.Delete _)) as [[]|e1]; step;
    rewrite Hpost; step;
    destruct (env unit _ (Slack.Delete _)) as [[]|e2]; step;
    destruct (env Slack.PostMessageResult _
                (Slack.PostMessage (Slack.ask_apology channel))) as [r|e3];
    reflexivity.
Qed.

End AskFacts.

Section OtherHandlerFacts.

Variable env : Slack.environment.

(** X26: the listener for "hello" messages never fails and never queries:
    outside a direct conversation it makes no call, and in one it says its
    greeting once, in the thread of the message, and ends well even when
    that call throws. *)
Theorem hello_message_harmless (message : Slack.Message) :
  let greeting :=
    Slack.ASay (Slack.SayObject
      {| Slack.sa_text := lit "Hello there! I received your DM.";
         Slack.sa_mrkdwn := None;
         Slack.sa_unfurl_links := None;
         Slack.sa_unfurl_media := None;
         Slack.sa_thread_ts := Slack.m_ts message |}) in
  Slack.run env [] (Slack.hello_message message)
  = (if Slack.is_string (Slack.m_channel_type message) (lit "im")
     then [greeting] else [],
     Return tt).
Proof.
  cbv zeta. unfold Slack.hello_message.
  destruct (Slack.is_string (Slack.m_channel_type message) (lit "im"));
    [|reflexivity].
  step. destruct (env unit _ _) as [[]|e]; reflexivity.
Qed.

Lemma until_gt_found (r after : js_string) :
  Forall (fun c => c <> 62%N) r ->
  Slack.until_gt (r ++ 62%N :: after) = Some (r, after).
Proof.
  induction 1 as [|c r Hc _ IH]; simpl; [reflexivity|].
  apply N.eqb_neq in Hc. now rewrite Hc, IH.
Qed.

(** X27: removing the mention leaves a text without [<] as it is, and
    takes the first mention [<@...>] out of a text, keeping what stands
    before and after it, later mentions included. *)
Theorem strip_mention_first (pre name post : js_string) :
  Forall (fun c => c <> 60%N) pre ->
  Forall (fun c => c <> 62%N) name ->
  name <> [] ->
  Slack.strip_mention pre = pre
  /\ Slack.strip_mention (pre ++ lit "<@" ++ name ++ lit ">" ++ post)
     = pre ++ post.
Proof.
  intros Hpre Hname Hne. split.
  - clear Hname Hne. induction Hpre as [|c pre Hc _ IH]; [reflexivity|].
    cbn [Slack.strip_mention]. apply N.eqb_neq in Hc. now rewrite Hc, IH.
  - induction Hpre as [|c pre Hc _ IH].
    + change ([] ++ lit "<@" ++ name ++ lit ">" ++ post)
        with (60%N :: 64%N :: name ++ 62%N :: post).
      cbn [Slack.strip_mention]. change (N.eqb 60 60) with true.
      change (N.eqb 64 64) with true. cbn iota.
      rewrite (until_gt_found name post Hname).
      destruct name; [contradiction | reflexivity].
    + cbn [app Slack.strip_mention]. apply N.eqb_neq in Hc.
      rewrite Hc. f_equal. exact IH.
Qed.

Lemma strip_mention_first_witness :
  Slack.strip_mention (lit "hi " ++ lit "<@" ++ lit "U12345" ++ lit ">" ++ lit " and <@U2>")
  = lit "hi " ++ lit " and <@U2>".
Proof.
  assert (H1 : Forall (fun c => c <> 60%N) (lit "hi "))
    by (repeat constructor; discriminate).
  assert (H2 : Forall (fun c => c <> 62%N) (lit "U12345"))
    by (repeat constructor; discriminate).
  assert (H3 : lit "U12345" <> []) by discriminate.
  apply (proj2 (strip_mention_first (lit "hi ") (lit "U12345") (lit " and <@U2>")
                  H1 H2 H3)).
Defined.

(** X28: a mention with nothing but white space around it gets the
    greeting that names the user, and no query is made; a mention with a
    question is answered after a query for the text without the mention,
    trimmed, with markup on and link previews off; and when that query
    throws, the handler says its fixed apology, whatever was thrown. *)
Theorem mention_handler_paths (event : Slack.MentionEvent) :
  (trim (Slack.strip_mention (Slack.ev_text event)) = [] ->
   env unit [] (Slack.Say (Slack.SayString
                             (Slack.mention_greeting (Slack.ev_user event))))
   = Return tt ->
   Slack.run env [] (Slack.mention_handler event)
   = ([Slack.ASay (Slack.SayString
                     (lit "Hello <@" ++ Slack.ev_user event
                      ++ lit ">! How can I help you?"))],
      Return tt))
  /\ (forall query res,
        trim (Slack.strip_mention (Slack.ev_text event)) = query ->
        query <> [] ->
        let notice := Slack.SayString (Slack.mention_notice query) in
        env unit [] (Slack.Say notice) = Return tt ->
        env QueryResult [Slack.ASay notice] (Slack.Query query) = Return res ->
        env unit [Slack.ASay notice; Slack.AQuery query]
          (Slack.Say (Slack.SayObject (Slack.mention_reply res))) = Return tt ->
        Slack.run env [] (Slack.mention_handler event)
        = ([Slack.ASay notice; Slack.AQuery query;
            Slack.ASay (Slack.SayObject
              {| Slack.sa_text := replyText res;
                 Slack.sa_mrkdwn := Some true;
                 Slack.sa_unfurl_links := Some false;
                 Slack.sa_unfurl_media := Some false;
                 Slack.sa_thread_ts := None |})],
           Return tt))
  /\ (forall query e,
        trim (Slack.strip_mention (Slack.ev_text event)) = query ->
        query <> [] ->
        let notice := Slack.SayString (Slack.mention_notice query) in
        let sorry := Slack.Say (Slack.SayString Slack.mention_apology) in
        env unit [] (Slack.Say notice) = Return tt ->
        env QueryResult [Slack.ASay notice] (Slack.Query query) = Throw e ->
        Slack.run env [] (Slack.mention_handler event)
        = ([Slack.ASay notice; Slack.AQuery query; Slack.action_of sorry],
           env unit [Slack.ASay notice; Slack.AQuery query] sorry)).
Proof.
  unfold Slack.mention_handler. split; [|split].
  - intros Hq Hsay. rewrite Hq. step. rewrite Hsay. reflexivity.
  - intros query res Hq Hne. cbv zeta. intros H1 H2 H3. rewrite Hq.
    destruct query as [|c q]; [contradiction|].
    step. rewrite H1. step. rewrite H2. step. rewrite H3. reflexivity.
  - intros query e Hq Hne. cbv zeta. intros H1 H2. rewrite Hq.
    destruct query as [|c q]; [contradiction|].
    step. rewrite H1. step. rewrite H2. step. last_call.
Qed.

End OtherHandlerFacts.

(* ------------------------------------------------------------------ *)
(** ** The handlers at work                                            *)
(* ------------------------------------------------------------------ *)

Lemma message_handler_ignores_witness :
  Slack.run (Scene.cooperative (Return Scene.result)) []
    (Slack.message_handler Scene.lower (Some (Scene.im "Well, HeLLo there")))
  = ([], Return tt).
Proof.
  apply (message_handler_ignores Scene.lower
           (Scene.cooperative (Return Scene.result))
           (Some (Scene.im "Well, HeLLo there"))).
  right. exists (Scene.im "Well, HeLLo there"). split; [reflexivity|].
  do 4 right. exists (lit "Well, HeLLo there"). split; reflexivity.
Defined.

Lemma direct_message_example :
  Scene.direct_message Scene.lower (Scene.im "What is OODA?") (lit "What is OODA?").
Proof.
  repeat split; try reflexivity; discriminate.
Qed.

Lemma message_handler_answers_witness :
  Slack.run (Scene.cooperative (Return Scene.result)) []
    (Slack.message_handler Scene.lower (Some (Scene.im "What is OODA?")))
  = ([Slack.ASay (Slack.SayString (Slack.dm_notice (lit "What is OODA?")));
      Slack.AQuery (lit "What is OODA?");
      Slack.ASay (Slack.SayObject
        {| Slack.sa_text := replyText Scene.result;
           Slack.sa_mrkdwn := Some true;
           Slack.sa_unfurl_links := None;
           Slack.sa_unfurl_media := None;
           Slack.sa_thread_ts := None |})],
     Return tt).
Proof.
  apply (message_handler_answers Scene.lower
           (Scene.cooperative (Return Scene.result))
           (Scene.im "What is OODA?") (lit "What is OODA?") Scene.result
           direct_message_example eq_refl eq_refl eq_refl).
Defined.

Lemma message_handler_apologises_witness :
  Slack.run
    (Scene.cooperative (Throw (ThrownAxiosError Examples.connection_refused))) []
    (Slack.message_handler Scene.lower (Some (Scene.im "What is OODA?")))
  = ([Slack.ASay (Slack.SayString (Slack.dm_notice (lit "What is OODA?")));
      Slack.AQuery (lit "What is OODA?");
      Slack.ASay (Slack.SayString Slack.dm_apology)],
     Return tt).
Proof.
  apply (proj1 (proj2
           (message_handler_apologises Scene.lower
              (Scene.cooperative (Throw (ThrownAxiosError Examples.connection_refused)))
              (Scene.im "What is OODA?") (lit "What is OODA?")
              (ThrownAxiosError Examples.connection_refused)
              direct_message_example))
           eq_refl eq_refl).
Defined.

Lemma ask_command_blank_witness :
  Slack.run (Scene.cooperative (Return Scene.result)) []
    (Slack.ask_command (Scene.ask "   "))
  = ([Slack.AAck; Slack.ARespond Slack.ask_usage], Return tt).
Proof.
  apply (ask_command_blank (Scene.cooperative (Return Scene.result))
           (Scene.ask "   ")).
  reflexivity.
Defined.

Lemma ask_command_preconditions_witness :
  Slack.run (Scene.cooperative (Return Scene.result)) []
    (Slack.ask_command
       {| Slack.c_command := lit "/ask"; Slack.c_text := lit "why?";
          Slack.c_channel_id := None |})
  = ([Slack.AAck], Throw (ThrownError (lit "No channel ID provided"))).
Proof.
  apply (proj1
           (ask_command_preconditions (Scene.cooperative (Return Scene.result))
              {| Slack.c_command := lit "/ask"; Slack.c_text := lit "why?";
                 Slack.c_channel_id := None |}
              119%N (lit "hy?") eq_refl eq_refl)).
  left. reflexivity.
Defined.

Lemma ask_opened_example (q : completion thrown QueryResult) :
  Scene.ask_opened (Scene.cooperative q) (Scene.ask " why? ")
    (lit "C012345") (lit "why?") Scene.stamp.
Proof.
  repeat split; try reflexivity; discriminate.
Qed.

Lemma ask_opened_reluctant (q : completion thrown QueryResult) :
  Scene.ask_opened (Scene.reluctant q) (Scene.ask " why? ")
    (lit "C012345") (lit "why?") Scene.stamp.
Proof.
  repeat split; try reflexivity; discriminate.
Qed.

Lemma ask_command_answers_witness :
  Slack.run (Scene.cooperative (Return Scene.result)) []
    (Slack.ask_command (Scene.ask " why? "))
  = (Scene.ask_opening (lit "C012345") (lit "why?")
     ++ [Slack.AQuery (lit "why?");
         Slack.ADelete (Scene.ask_delete (lit "C012345") Scene.stamp);
         Slack.APostMessage
           {| Slack.pm_channel := lit "C012345";
              Slack.pm_text := replyText Scene.result;
              Slack.pm_blocks := None;
              Slack.pm_mrkdwn := Some true;
              Slack.pm_unfurl_links := Some false;
              Slack.pm_unfurl_media := Some false |}],
     Return tt).
Proof.
  apply (ask_command_answers (Scene.cooperative (Return Scene.result))
           (Scene.ask " why? ") (lit "C012345") (lit "why?") Scene.stamp
           Scene.result (ask_opened_example _) eq_refl
           {| Slack.pr_ts := Some Scene.stamp |} eq_refl).
Defined.

Lemma ask_command_apologises_witness :
  Slack.run
    (Scene.cooperative (Throw (ThrownAxiosError Examples.connection_refused))) []
    (Slack.ask_command (Scene.ask " why? "))
  = (Scene.ask_opening (lit "C012345") (lit "why?")
     ++ [Slack.AQuery (lit "why?");
         Slack.ADelete (Scene.ask_delete (lit "C012345") Scene.stamp);
         Slack.APostMessage (Slack.ask_apology (lit "C012345"))],
     Return tt).
Proof.
  apply (ask_command_apologises
           (Scene.cooperative (Throw (ThrownAxiosError Examples.connection_refused)))
           (Scene.ask " why? ") (lit "C012345") (lit "why?") Scene.stamp
           (ThrownAxiosError Examples.connection_refused)
           (ask_opened_example _) eq_refl).
Defined.

Lemma ask_command_post_failure_witness :
  Slack.run (Scene.reluctant (Return Scene.result)) []
    (Slack.ask_command (Scene.ask " why? "))
  = (Scene.ask_opening (lit "C012345") (lit "why?")
     ++ [Slack.AQuery (lit "why?");
         Slack.ADelete (Scene.ask_delete (lit "C012345") Scene.stamp);
         Slack.APostMessage
           (Slack.ask_result (lit "C012345") (replyText Scene.result));
         Slack.ADelete (Scene.ask_delete (lit "C012345") Scene.stamp);
         Slack.APostMessage (Slack.ask_apology (lit "C012345"))],
     Return tt).
Proof.
  apply (ask_command_post_failure (Scene.reluctant (Return Scene.result))
           (Scene.ask " why? ") (lit "C012345") (lit "why?") Scene.stamp
           Scene.result (ThrownError (lit "msg_too_long"))
           (ask_opened_reluctant _) eq_refl eq_refl).
Defined.

Lemma mention_handler_paths_witness :
  Slack.run (Scene.cooperative (Return Scene.result)) []
    (Slack.mention_handler
       {| Slack.ev_text := lit "<@U0BOT>  "; Slack.ev_user := lit "U123" |})
  = ([Slack.ASay (Slack.SayString (lit "Hello <@U123>! How can I help you?"))],
     Return tt).
Proof.
  apply (proj1
           (mention_handler_paths (Scene.cooperative (Return Scene.result))
              {| Slack.ev_text := lit "<@U0BOT>  "; Slack.ev_user := lit "U123" |})
           eq_refl eq_refl).
Defined.


(* ------------------------------------------------------------------ *)
(** ** From the transport to the chat                                  *)
(* ------------------------------------------------------------------ *)

Section EndToEnd.

Variable JSON_stringify : json -> js_string.
Variable axios_post :
  js_string -> VectaraRequestPayload -> RequestHeaders ->
  completion thrown AxiosResponse.
Variable toLowerCase : js_string -> js_string.
Variable service : VectaraService.
Variable env : Slack.environment.

(** X29: with the query of the handlers wired to the service, a direct
    message whose request fails in the transport, or comes back with field
    errors, with messages or without a summary (or with a [null] body,
    [search_results: null] or a [null] entry in it), is answered with the
    fixed apology and nothing else: no part of the failure, and no source,
    reaches the chat. *)
Theorem failure_reaches_chat_as_apology
    (m : Slack.Message) (text : js_string) :
  (forall h q,
     env QueryResult h (Slack.Query q)
     = query JSON_stringify axios_post service q) ->
  Scene.direct_message toLowerCase m text ->
  env unit [] (Slack.Say (Slack.SayString (Slack.dm_notice text))) = Return tt ->
  let sent :=
    axios_post (apiUrl service)
      (build_payload JSON_stringify (config service) text)
      (build_headers (config service)) in
  (exists e, sent = Throw e)
  \/ (exists response,
        sent = Return response
        /\ (data response = None
            \/ exists d,
                 data response = Some d
                 /\ (carries_errors d \/ no_summary d
                     \/ search_results d = IsNull
                     \/ exists entries,
                          search_results d = Given entries /\ In None entries))) ->
  Slack.run env [] (Slack.message_handler toLowerCase (Some m))
  = ([Slack.ASay (Slack.SayString (Slack.dm_notice text));
      Slack.AQuery text;
      Slack.ASay (Slack.SayString Slack.dm_apology)],
     env unit
       [Slack.ASay (Slack.SayString (Slack.dm_notice text)); Slack.AQuery text]
       (Slack.Say (Slack.SayString Slack.dm_apology))).
Proof.
  intros Hwired Hm Hnotice sent Hfail. subst sent.
  assert (Hthrows : exists e,
            query JSON_stringify axios_post service text = Throw e).
  { destruct Hfail as [[e He]|(response & Hr & Hbad)].
    - exists e. unfold query. now rewrite He.
    - rewrite (query_resolved _ _ _ _ _ Hr).
      destruct Hbad as [Hnull|(d & Hd & Hbad)].
      { eexists. now apply handle_response_null. }
      destruct (field_errors d) as [fe|] eqn:Hf.
      { eexists. apply (handle_response_errors _ _ _ d Hd).
        left. rewrite Hf. discriminate. }
      destruct (messages d) as [ms|] eqn:Hmsg.
      { eexists. apply (handle_response_errors _ _ _ d Hd).
        right. rewrite Hmsg. discriminate. }
      rewrite (handle_response_clean _ _ _ _ Hd Hf Hmsg).
      destruct Hbad as [[Hc|Hc]|[Hs|[Hn|(entries & Hg & Hin)]]];
        try contradiction.
      + destruct Hs as [-> | ->]; eexists; reflexivity.
      + rewrite Hn. destruct (summary d) as [[|ch s]|]; eexists; reflexivity.
      + rewrite Hg. cbn [destructured sources_of].
        rewrite (all_present_None _ Hin).
        destruct (summary d) as [[|ch s]|]; eexists; reflexivity. }
  destruct Hthrows as [e He].
  rewrite (message_handler_passes toLowerCase m text Hm).
  step. rewrite Hnotice. step. rewrite Hwired, He. step. last_call.
Qed.

End EndToEnd.

(** A refused connection ends as the apology in the chat. *)
Lemma failure_reaches_chat_as_apology_witness :
  Slack.run
    (Scene.wired Examples.stringify
       (Examples.fails (ThrownAxiosError Examples.connection_refused))
       Examples.service) []
    (Slack.message_handler Scene.lower (Some (Scene.im "What is OODA?")))
  = ([Slack.ASay (Slack.SayString (Slack.dm_notice (lit "What is OODA?")));
      Slack.AQuery (lit "What is OODA?");
      Slack.ASay (Slack.SayString Slack.dm_apology)],
     Return tt).
Proof.
  apply (failure_reaches_chat_as_apology Examples.stringify
           (Examples.fails (ThrownAxiosError Examples.connection_refused))
           Scene.lower Examples.service
           (Scene.wired Examples.stringify
              (Examples.fails (ThrownAxiosError Examples.connection_refused))
              Examples.service)
           (Scene.im "What is OODA?") (lit "What is OODA?")).
  - intros h q. reflexivity.
  - exact direct_message_example.
  - reflexivity.
  - left. eexists. reflexivity.
Defined.
